(** * strong-manager: a shallow embedding of the reverse proxy's data plane

    Part I follows the layout of the Go sources: one module per Go
    package ([models], [filter], [middleware], [proxy], [database],
    [main], [handlers]), preceded by small models of the Go built-ins the packages
    rely on (machine integers, [time], [strings], binary64 floats).
    Part II holds the notions the statements are written with and the
    data of the worked examples. Part III states and proves the
    properties of the filter engine, the rate limiter, the routing cache,
    the log sink, the retention sweeper, the backend selector, the
    request handler and the health checker. *)

From Stdlib Require Import ZArith String Ascii List Bool Lia.
From Stdlib Require QArith.QArith_base.
From Stdlib Require Import Floats.SpecFloat.
From stdpp Require Import gmap strings.

Local Open Scope string_scope.
Local Open Scope Z_scope.

(* ===================================================================== *)
(** * Part I: the model                                                    *)
(* ===================================================================== *)

(** ** Go's [int] on a 64-bit platform: two's complement, wrapping. *)
Module GoInt.

Definition min_int : Z := - 2 ^ 63.
Definition max_int : Z := 2 ^ 63 - 1.

Definition in_range (z : Z) : Prop := min_int <= z <= max_int.

Definition wrap (z : Z) : Z := (z + 2 ^ 63) mod 2 ^ 64 - 2 ^ 63.

(** [x++] *)
Definition incr (z : Z) : Z := wrap (z + 1).

End GoInt.

(** ** Package [time]: instants and durations in nanoseconds. *)
Module GoTime.

(** A [time.Time] is modelled by its instant in nanoseconds; a
    [time.Duration] is an [int64] count of nanoseconds. *)
Definition Millisecond : Z := 1000000.
Definition Second : Z := 1000000000.
Definition Minute : Z := 60 * Second.

(** [t.Sub(u)]: the difference, saturated to the range of a Duration. *)
Definition Sub (t u : Z) : Z :=
  Z.max GoInt.min_int (Z.min GoInt.max_int (t - u)).

(** Product of two durations ([int64] multiplication). *)
Definition mul (a b : Z) : Z := GoInt.wrap (a * b).

End GoTime.

(** ** Package [strings] (byte strings). *)
Module GoStrings.

Fixpoint HasPrefix (s prefix : string) {struct prefix} : bool :=
  match prefix with
  | EmptyString => true
  | String c prefix' =>
      match s with
      | EmptyString => false
      | String d s' => if Ascii.eqb c d then HasPrefix s' prefix' else false
      end
  end.

(** [s[n:]] *)
Fixpoint drop (n : nat) (s : string) : string :=
  match n, s with
  | O, _ => s
  | S n', String _ s' => drop n' s'
  | S _, EmptyString => EmptyString
  end.

(** [len(s) >= len(suffix) && s[len(s)-len(suffix):] == suffix] *)
Definition HasSuffix (s suffix : string) : bool :=
  (String.length suffix <=? String.length s)%nat
  && String.eqb (drop (String.length s - String.length suffix) s) suffix.

Fixpoint Contains (s substr : string) : bool :=
  HasPrefix s substr
  || match s with
     | EmptyString => false
     | String _ s' => Contains s' substr
     end.

(** [s[:n]] *)
Fixpoint take (n : nat) (s : string) : string :=
  match n, s with
  | O, _ => EmptyString
  | S n', String c s' => String c (take n' s')
  | S _, EmptyString => EmptyString
  end.

(** [s[lo:hi]] for [lo <= hi <= len(s)] *)
Definition slice (s : string) (lo hi : nat) : string :=
  take (hi - lo) (drop lo s).

(** First element of [strings.Split(s, sep)] for a one-byte separator:
    the text before the first occurrence of [sep]. *)
Fixpoint before (sep : ascii) (s : string) : string :=
  match s with
  | EmptyString => EmptyString
  | String c s' => if Ascii.eqb c sep then EmptyString else String c (before sep s')
  end.

(** [strings.Split(s, sep)] for a one-byte separator: the pieces of [s]
    between the occurrences of [sep], one more than there are
    occurrences. *)
Fixpoint Split (sep : ascii) (s : string) : list string :=
  match s with
  | EmptyString => [EmptyString]
  | String c s' =>
      if Ascii.eqb c sep then EmptyString :: Split sep s'
      else
        match Split sep s' with
        | first :: rest => String c first :: rest
        | [] => [String c EmptyString]
        end
  end.

End GoStrings.

(** ** [float64]: IEEE-754 binary64, round to nearest even. *)
Module Float64.

Definition prec : Z := 53.
Definition emax : Z := 1024.

(** Conversion [float64(n)] of an integer. *)
Definition of_int (n : Z) : spec_float := binary_normalize prec emax n 0 false.

Definition div (x y : spec_float) : spec_float := SFdiv prec emax x y.
Definition sub (x y : spec_float) : spec_float := SFsub prec emax x y.

(** [x > y] *)
Definition gt (x y : spec_float) : bool := SFltb y x.

Definition zero : spec_float := S754_zero false.

Definition is_nan (x : spec_float) : bool :=
  match x with S754_nan => true | _ => false end.

Definition add (x y : spec_float) : spec_float := SFadd prec emax x y.

(** Conversion [int(x)]: the fraction is discarded. Outside the range of
    [int] (and for NaN) the language leaves the result to the
    implementation; on amd64 it is the minimum integer. *)
Definition to_int (x : spec_float) : Z :=
  match x with
  | S754_zero _ => 0
  | S754_finite s m e =>
      let magnitude := if 0 <=? e then Zpos m * 2 ^ e else Zpos m / 2 ^ (- e) in
      let n := if s then - magnitude else magnitude in
      if (GoInt.min_int <=? n) && (n <=? GoInt.max_int) then n else GoInt.min_int
  | _ => GoInt.min_int
  end.

End Float64.

(** ** The parts of the Go standard library that are taken as given:
    address parsing from [net], [strings.TrimSpace] and [url.Parse]. *)
Class GoStdlib := {
  IP : Type;
  IPNet : Type;
  (** [net.ParseCIDR]: [None] stands for a non-nil error. *)
  net_ParseCIDR : string -> option (IP * IPNet);
  (** [net.ParseIP]: [None] stands for the nil address. *)
  net_ParseIP : string -> option IP;
  IPNet_Contains : IPNet -> IP -> bool;
  (** [net.SplitHostPort]: host and port, [None] on error. *)
  net_SplitHostPort : string -> option (string * string);
  strings_TrimSpace : string -> string;
  (** [url.Parse], reduced to the [Host] of the parsed URL. *)
  url_Parse : string -> option string
}.

(** ** Package [models]. *)
Module models.

Record Backend := {
  ID : Z;
  URL : string;
  Weight : Z;
  IsActive : bool;
  Ratio : spec_float
}.

Definition set_Ratio (b : Backend) (r : spec_float) : Backend :=
  {| ID := ID b; URL := URL b; Weight := Weight b;
     IsActive := IsActive b; Ratio := r |}.

Definition FilterMatchTypeIP : string := "ip".
Definition FilterMatchTypePath : string := "path".
Definition FilterMatchTypeDNS : string := "dns".

Definition FilterActionRedirect : string := "redirect".
Definition FilterActionBadRequest : string := "bad_request".
Definition FilterActionTooMany : string := "too_many".
Definition FilterActionCustom : string := "custom".

Record FilterRule := {
  RuleID : Z;
  Name : string;
  MatchType : string;
  MatchValue : string;
  ActionType : string;
  ActionValue : string;
  StatusCode : Z;
  RuleIsActive : bool;
  CreatedAt : Z;
  UpdatedAt : Z;
  Priority : Z
}.

(** The zero value of the struct. *)
Definition FilterRule_zero : FilterRule :=
  {| RuleID := 0; Name := ""; MatchType := ""; MatchValue := "";
     ActionType := ""; ActionValue := ""; StatusCode := 0;
     RuleIsActive := false; CreatedAt := 0; UpdatedAt := 0; Priority := 0 |}.

End models.

(** ** [net/http]: the request fields the handlers read, and status codes. *)
Module http.

Record Request := {
  Host : string;
  URL_Path : string;
  RemoteAddr : string;
  (** headers, keyed by the names the handlers ask for *)
  Header : gmap string string
}.

(** [r.Header.Get(key)] *)
Definition Header_Get (r : Request) (key : string) : string :=
  default "" (Header r !! key).

Definition StatusFound : Z := 302.
Definition StatusBadRequest : Z := 400.
Definition StatusForbidden : Z := 403.
Definition StatusGone : Z := 410.
Definition StatusTooManyRequests : Z := 429.
Definition StatusInternalServerError : Z := 500.
Definition StatusBadGateway : Z := 502.

End http.

(** ** Package [filter]: the filter engine. *)
Module filter.
Import models.

Section Engine.
Context `{GoStdlib}.

(** [matchesWildcard] *)
Definition matchesWildcard (pattern text : string) : bool :=
  if String.eqb pattern "*" then true
  else if GoStrings.HasPrefix pattern "*" && GoStrings.HasSuffix pattern "*" then
    let substring := GoStrings.slice pattern 1 (String.length pattern - 1) in
    GoStrings.Contains text substring
  else if GoStrings.HasPrefix pattern "*" then
    let suffix := GoStrings.drop 1 pattern in
    GoStrings.HasSuffix text suffix
  else if GoStrings.HasSuffix pattern "*" then
    let prefix := GoStrings.slice pattern 0 (String.length pattern - 1) in
    GoStrings.HasPrefix text prefix
  else String.eqb pattern text.

(** [matchesIP] *)
Definition matchesIP (pattern clientIP : string) : bool :=
  if GoStrings.Contains pattern "/" then
    match net_ParseCIDR pattern with
    | None => false
    | Some (_, ipNet) =>
        match net_ParseIP clientIP with
        | None => false
        | Some ip => IPNet_Contains ipNet ip
        end
    end
  else if GoStrings.Contains pattern "*" then matchesWildcard pattern clientIP
  else GoStrings.Contains clientIP pattern.

(** [matchesPath] *)
Definition matchesPath (pattern requestPath : string) : bool :=
  if GoStrings.Contains pattern "*" then matchesWildcard pattern requestPath
  else if GoStrings.HasSuffix pattern "/" then GoStrings.HasPrefix requestPath pattern
  else GoStrings.Contains requestPath pattern.

(** [matchesDNS] *)
Definition matchesDNS (pattern hostname : string) : bool :=
  if GoStrings.Contains pattern "*" then matchesWildcard pattern hostname
  else GoStrings.Contains hostname pattern.

(** [matchesRule] *)
Definition matchesRule (rule : FilterRule) (clientIP hostname requestPath : string) : bool :=
  if String.eqb (MatchType rule) FilterMatchTypeIP then matchesIP (MatchValue rule) clientIP
  else if String.eqb (MatchType rule) FilterMatchTypePath then matchesPath (MatchValue rule) requestPath
  else if String.eqb (MatchType rule) FilterMatchTypeDNS then matchesDNS (MatchValue rule) hostname
  else false.

(** [getStatusCodeForAction] *)
Definition getStatusCodeForAction (rule : FilterRule) : Z :=
  if String.eqb (ActionType rule) FilterActionRedirect then http.StatusFound
  else if String.eqb (ActionType rule) FilterActionBadRequest then http.StatusBadRequest
  else if String.eqb (ActionType rule) FilterActionTooMany then http.StatusTooManyRequests
  else if String.eqb (ActionType rule) FilterActionCustom then
    if 0 <? StatusCode rule then StatusCode rule else http.StatusForbidden
  else http.StatusForbidden.

(** [getResponseForAction] *)
Definition getResponseForAction (rule : FilterRule) : string :=
  if String.eqb (ActionType rule) FilterActionRedirect then ""
  else if String.eqb (ActionType rule) FilterActionBadRequest then
    if negb (String.eqb (ActionValue rule) "") then ActionValue rule else "Bad Request"
  else if String.eqb (ActionType rule) FilterActionTooMany then
    if negb (String.eqb (ActionValue rule) "") then ActionValue rule else "Too Many Requests"
  else if String.eqb (ActionType rule) FilterActionCustom then
    if negb (String.eqb (ActionValue rule) "") then ActionValue rule else "Request Blocked"
  else "Request Blocked".

(** [getRedirectURLForAction] *)
Definition getRedirectURLForAction (rule : FilterRule) : string :=
  if String.eqb (ActionType rule) FilterActionRedirect then ActionValue rule else "".

(** [getClientIP] *)
Definition getClientIP (r : http.Request) : string :=
  let xff := http.Header_Get r "X-Forwarded-For" in
  if negb (String.eqb xff "") then
    strings_TrimSpace (GoStrings.before "," xff)
  else
    let xri := http.Header_Get r "X-Real-IP" in
    if negb (String.eqb xri "") then xri
    else
      match net_SplitHostPort (http.RemoteAddr r) with
      | None => http.RemoteAddr r
      | Some (ip, _) => ip
      end.

Record FilterResult := {
  Filtered : bool;
  Rule : FilterRule;
  ResultStatusCode : Z;
  Response : string;
  RedirectURL : string
}.

(** The goroutine [go logFilteredRequest(...)] started on a match: it
    inserts one row into [filter_logs]. *)
Record FilterLogCall := {
  fl_clientIP : string;
  fl_hostname : string;
  fl_requestPath : string;
  fl_userAgent : string;
  fl_rule : FilterRule
}.

(** The loop of [FilterRequest] over the copied rule list. *)
Fixpoint FilterRequest_rules (rules : list FilterRule)
    (clientIP hostname requestPath userAgent : string)
    : FilterResult * list FilterLogCall :=
  match rules with
  | [] =>
      ({| Filtered := false; Rule := FilterRule_zero; ResultStatusCode := 0;
          Response := ""; RedirectURL := "" |}, [])
  | rule :: rest =>
      if matchesRule rule clientIP hostname requestPath then
        ({| Filtered := true; Rule := rule;
            ResultStatusCode := getStatusCodeForAction rule;
            Response := getResponseForAction rule;
            RedirectURL := getRedirectURLForAction rule |},
         [ {| fl_clientIP := clientIP; fl_hostname := hostname;
              fl_requestPath := requestPath; fl_userAgent := userAgent;
              fl_rule := rule |} ])
      else FilterRequest_rules rest clientIP hostname requestPath userAgent
  end.

(** [FilterRequest]: the result and the logging goroutines it starts. *)
Definition FilterRequest (filterRuleCache : list FilterRule) (r : http.Request)
    : FilterResult * list FilterLogCall :=
  let rules := filterRuleCache in
  let clientIP := getClientIP r in
  let hostname := http.Host r in
  let requestPath := http.URL_Path r in
  let userAgent := http.Header_Get r "User-Agent" in
  FilterRequest_rules rules clientIP hostname requestPath userAgent.

End Engine.
End filter.

(** ** Package [middleware]: the per-client, per-host rate limiter. *)
Module middleware.

Record DNSRateLimitConfig := {
  Hostname : string;
  Enabled : bool;
  Quota : Z;
  PeriodSecs : Z;
  LastUpdated : Z
}.

(** [HostCount] *)
Record HostCount := {
  hc_count : Z;
  hc_lastSeen : Z
}.

(** [IPLimit] *)
Record IPLimit := {
  count : Z;
  lastSeen : Z;
  hostCounts : gmap string HostCount
}.

Record RateLimiter := {
  ipMap : gmap string IPLimit;
  dnsConfigMap : gmap string DNSRateLimitConfig;
  defaultMaxRequests : Z;
  defaultInterval : Z
}.

Definition set_ipMap (rl : RateLimiter) (m : gmap string IPLimit) : RateLimiter :=
  {| ipMap := m; dnsConfigMap := dnsConfigMap rl;
     defaultMaxRequests := defaultMaxRequests rl;
     defaultInterval := defaultInterval rl |}.

(** What the handler reads from the [fiber.Ctx]. *)
Record Ctx := {
  ctx_Path : string;
  ctx_IP : string;
  ctx_Hostname : string
}.

(** How the middleware ends: [c.Next()] or a JSON error with a status. *)
Inductive Handled :=
| Next
| StatusJSON (code : Z) (error : string).

Definition rate_limit_message : string :=
  "Rate limit exceeded for this hostname. Please try again later.".

(** The admin bypass:
    [c.Path() != "/" && len(c.Path()) >= 6 && c.Path()[:6] == "/admin"] *)
Definition is_admin_path (path : string) : bool :=
  negb (String.eqb path "/")
  && (6 <=? String.length path)%nat
  && String.eqb (GoStrings.slice path 0 6) "/admin".

(** The part of the handler that runs under [ipMapLock]. *)
Definition countRequest (rl : RateLimiter) (ip hostname : string) (now : Z)
    (maxRequests interval : Z) : RateLimiter * Handled :=
  match ipMap rl !! ip with
  | None =>
      let limit :=
        {| count := 1; lastSeen := now;
           hostCounts := {[ hostname := {| hc_count := 1; hc_lastSeen := now |} ]} |} in
      (set_ipMap rl (<[ip := limit]> (ipMap rl)), Next)
  | Some limit =>
      let count' := GoInt.incr (count limit) in
      match hostCounts limit !! hostname with
      | None =>
          let hostCount := {| hc_count := 1; hc_lastSeen := now |} in
          let limit' :=
            {| count := count'; lastSeen := now;
               hostCounts := <[hostname := hostCount]> (hostCounts limit) |} in
          (set_ipMap rl (<[ip := limit']> (ipMap rl)), Next)
      | Some hostCount =>
          if interval <? GoTime.Sub now (hc_lastSeen hostCount) then
            let limit' :=
              {| count := count'; lastSeen := now;
                 hostCounts := <[hostname := {| hc_count := 1; hc_lastSeen := now |}]>
                                 (hostCounts limit) |} in
            (set_ipMap rl (<[ip := limit']> (ipMap rl)), Next)
          else
            let hostCount' :=
              {| hc_count := GoInt.incr (hc_count hostCount); hc_lastSeen := now |} in
            let limit' :=
              {| count := count'; lastSeen := now;
                 hostCounts := <[hostname := hostCount']> (hostCounts limit) |} in
            let rl' := set_ipMap rl (<[ip := limit']> (ipMap rl)) in
            if maxRequests <? hc_count hostCount' then
              (rl', StatusJSON http.StatusTooManyRequests rate_limit_message)
            else (rl', Next)
      end
  end.

(** [RateLimiterMiddleware]: one request at instant [now]. *)
Definition RateLimiterMiddleware (rl : RateLimiter) (c : Ctx) (now : Z)
    : RateLimiter * Handled :=
  if is_admin_path (ctx_Path c) then (rl, Next)
  else
    let ip := ctx_IP c in
    let hostname := ctx_Hostname c in
    match dnsConfigMap rl !! hostname with
    | Some config =>
        if Enabled config then
          countRequest rl ip hostname now
            (Quota config) (GoTime.mul (PeriodSecs config) GoTime.Second)
        else (rl, Next)
    | None =>
        countRequest rl ip hostname now (defaultMaxRequests rl) (defaultInterval rl)
    end.

Definition set_dnsConfigMap (rl : RateLimiter) (m : gmap string DNSRateLimitConfig)
    : RateLimiter :=
  {| ipMap := ipMap rl; dnsConfigMap := m;
     defaultMaxRequests := defaultMaxRequests rl;
     defaultInterval := defaultInterval rl |}.

(** [d.Seconds()] of package [time]:
    [sec := d / Second; nsec := d % Second;
     return float64(sec) + float64(nsec)/1e9] *)
Definition Duration_Seconds (d : Z) : spec_float :=
  let sec := Z.quot d GoTime.Second in
  let nsec := Z.rem d GoTime.Second in
  Float64.add (Float64.of_int sec)
              (Float64.div (Float64.of_int nsec) (Float64.of_int 1000000000)).

(** One iteration of the loop of [loadDNSConfigs]. A row holds
    [hostname, rate_limit_enabled, rate_limit_quota, rate_limit_period];
    a [None] row is a row whose [Scan] fails. [clock k] is the reading of
    [time.Now()] for row number [k]. *)
Definition loadRow (rl : RateLimiter) (clock : nat -> Z)
    (acc : gmap string DNSRateLimitConfig * nat)
    (row : option (string * bool * Z * Z)) : gmap string DNSRateLimitConfig * nat :=
  let '(newConfigs, k) := acc in
  match row with
  | None => (newConfigs, S k)
  | Some (hostname, enabled, quota, period) =>
      let quota' := if quota <=? 0 then defaultMaxRequests rl else quota in
      let period' :=
        if period <=? 0 then Float64.to_int (Duration_Seconds (defaultInterval rl))
        else period in
      let config :=
        {| Hostname := hostname; Enabled := enabled; Quota := quota';
           PeriodSecs := period'; LastUpdated := clock k |} in
      (<[hostname := config]> newConfigs, S k)
  end.

(** [loadDNSConfigs]: [rows] is the result of the query, [None] when it
    fails. *)
Definition loadDNSConfigs (rl : RateLimiter)
    (rows : option (list (option (string * bool * Z * Z)))) (clock : nat -> Z)
    : RateLimiter :=
  match rows with
  | None => rl
  | Some rows =>
      let newConfigs := fst (fold_left (loadRow rl clock) rows (∅, 0%nat)) in
      set_dnsConfigMap rl newConfigs
  end.

(** The interval [cleanup] applies to the counter of a host. *)
Definition cleanupInterval (rl : RateLimiter) (hostname : string) : Z :=
  match dnsConfigMap rl !! hostname with
  | Some config =>
      if Enabled config then GoTime.mul (PeriodSecs config) GoTime.Second
      else defaultInterval rl
  | None => defaultInterval rl
  end.

(** The inner loop of [cleanup]: the per-host counters that stay. *)
Definition cleanupHostCounts (rl : RateLimiter) (now : Z)
    (hostCounts : gmap string HostCount) : gmap string HostCount :=
  filter (fun entry =>
            (GoTime.mul 3 (cleanupInterval rl entry.1)
               <? GoTime.Sub now (hc_lastSeen entry.2)) = false)
         hostCounts.

(** What [cleanup] does with one entry of [ipMap]: [None] deletes it. *)
Definition cleanupLimit (rl : RateLimiter) (now : Z) (limit : IPLimit) : option IPLimit :=
  if GoTime.mul 3 (defaultInterval rl) <? GoTime.Sub now (lastSeen limit) then None
  else Some {| count := count limit; lastSeen := lastSeen limit;
               hostCounts := cleanupHostCounts rl now (hostCounts limit) |}.

(** One tick of [cleanup], at instant [now]. *)
Definition cleanup (rl : RateLimiter) (now : Z) : RateLimiter :=
  set_ipMap rl (omap (cleanupLimit rl now) (ipMap rl)).

(** *** The token check of the admin API. *)

(** What [jwt.Parse] returns: an error, or a token with its [Valid] flag
    and its claims ([None] when they are not a [jwt.MapClaims]). The
    middleware copies claim values without looking into them; they are
    modelled as texts. *)
Inductive Parsed :=
| ParseError
| Token (valid : bool) (claims : option (gmap string string)).

(** How [JWTMiddleware] ends: status 401 with an error message, or
    [c.Next()] with the locals [userID], [userEmail] and [userRole]. *)
Inductive Authenticated :=
| Unauthorized (error : string)
| Proceed (userID userEmail userRole : option string).

Section JWT.
(** [strings.ToLower] and [jwt.Parse] with the key function of the
    middleware are taken as given. *)
Variable strings_ToLower : string -> string.
Variable jwt_Parse : string -> Parsed.

(** [JWTMiddleware]; [authHeader] is [c.Get("Authorization")]. *)
Definition JWTMiddleware (authHeader : string) : Authenticated :=
  if String.eqb authHeader "" then Unauthorized "Authorization header is required"
  else
    let parts := GoStrings.Split " " authHeader in
    match parts with
    | [scheme; tokenString] =>
        if negb (String.eqb (strings_ToLower scheme) "bearer") then
          Unauthorized "Authorization header must be in format: Bearer <token>"
        else
          match jwt_Parse tokenString with
          | ParseError => Unauthorized "Invalid or expired token"
          | Token false _ => Unauthorized "Invalid token"
          | Token true None => Unauthorized "Invalid token claims"
          | Token true (Some claims) =>
              Proceed (claims !! "id") (claims !! "email") (claims !! "role")
          end
    | _ => Unauthorized "Authorization header must be in format: Bearer <token>"
    end.

End JWT.

End middleware.

(** ** Package [proxy]: routing cache, backend selection, request handler. *)
Module proxy.
Import models.

(** The package-level variables. *)
Record State := {
  dnsRuleCache : gmap string (list Backend);
  backendCountMap : gmap string Z
}.

(** What the two queries of [refreshCache] return: [None] is a query
    error, a [None] row is a row whose [Scan] fails. *)
Record Database := {
  dns_rules : option (list (option (Z * string)));
  backends_of : Z -> option (list (option Backend))
}.

(** The inner loop of [refreshCache]: the active backends of a rule. *)
Fixpoint collectBackends (rows : list (option Backend)) : list Backend :=
  match rows with
  | [] => []
  | None :: rest => collectBackends rest
  | Some backend :: rest =>
      if IsActive backend then backend :: collectBackends rest
      else collectBackends rest
  end.

(** One iteration of the outer loop of [refreshCache]. *)
Definition cacheRule (db : Database) (tempCache : gmap string (list Backend))
    (row : option (Z * string)) : gmap string (list Backend) :=
  match row with
  | None => tempCache
  | Some (ruleID, hostname) =>
      match backends_of db ruleID with
      | None => tempCache
      | Some backendRows =>
          let backends := collectBackends backendRows in
          if (0 <? length backends)%nat then <[hostname := backends]> tempCache
          else tempCache
      end
  end.

(** [refreshCache] *)
Definition refreshCache (db : Database) (st : State) : State :=
  match dns_rules db with
  | None => st
  | Some rows =>
      let tempCache := fold_left (cacheRule db) rows ∅ in
      {| dnsRuleCache := tempCache; backendCountMap := backendCountMap st |}
  end.

(** [backendCountMap[url]] reads 0 for a missing key. *)
Definition count_of (counts : gmap string Z) (url : string) : Z :=
  default 0 (counts !! url).

(** [backendCountMap[url]++] *)
Definition increment (counts : gmap string Z) (url : string) : gmap string Z :=
  <[url := GoInt.incr (count_of counts url)]> counts.

(** The first loop of [selectBackend]: the minimum weight. *)
Definition findMinWeight (first : Z) (backends : list Backend) : Z :=
  fold_left (fun minWeight backend =>
               if Weight backend <? minWeight then Weight backend else minWeight)
            backends first.

(** [float64(backend.Weight) / float64(minWeight)] *)
Definition ratio (minWeight : Z) (backend : Backend) : spec_float :=
  Float64.div (Float64.of_int (Weight backend)) (Float64.of_int minWeight).

(** [backend.Ratio - float64(selectedCount)] *)
Definition priority (minWeight : Z) (counts : gmap string Z) (backend : Backend)
    : spec_float :=
  Float64.sub (ratio minWeight backend)
              (Float64.of_int (count_of counts (URL backend))).

(** The second loop of [selectBackend], from index [i] on: it stores the
    ratio in every element and keeps the index of the selected one
    ([None] is the nil pointer). *)
Fixpoint selectLoop (minWeight : Z) (counts : gmap string Z) (i : nat)
    (backends : list Backend) (selectedBackend : option nat)
    (maxPriorityValue : spec_float) : list Backend * option nat :=
  match backends with
  | [] => ([], selectedBackend)
  | backend :: rest =>
      let backend' := set_Ratio backend (ratio minWeight backend) in
      let priority := priority minWeight counts backend in
      let '(selected', max') :=
        match selectedBackend with
        | None => (Some i, priority)
        | Some _ =>
            if Float64.gt priority maxPriorityValue then (Some i, priority)
            else (selectedBackend, maxPriorityValue)
        end in
      let '(rest', final) := selectLoop minWeight counts (S i) rest selected' max' in
      (backend' :: rest', final)
  end.

(** [selectBackend]: the slice after the call, the counters after the
    call and the index of the returned element; [None] when the call
    panics (empty slice). *)
Definition selectBackend (backends : list Backend) (counts : gmap string Z)
    : option (list Backend * gmap string Z * nat) :=
  match backends with
  | [] => None
  | [only] => Some (backends, increment counts (URL only), 0%nat)
  | first :: _ =>
      let minWeight := findMinWeight (Weight first) backends in
      match selectLoop minWeight counts 0 backends None Float64.zero with
      | (backends', Some i) =>
          match nth_error backends' i with
          | Some selectedBackend =>
              Some (backends', increment counts (URL selectedBackend), i)
          | None => None
          end
      | (_, None) => None
      end
  end.

(** A call of one of the two callbacks the handler installs on the
    reverse proxy: [proxy.ModifyResponse] with the response of the
    backend, or [proxy.ErrorHandler]. [later] is the amount, in
    milliseconds, by which the reading of
    [time.Since(startTime).Milliseconds()] in that call exceeds the
    reading [latencyMS] handed to [proxyHandler]. *)
Inductive Callback :=
| ModifyResponse (statusCode later : Z)
| ErrorHandler (later : Z).

(** What [proxy.ServeHTTP(w, r)] of [httputil.ReverseProxy] does with the
    callbacks is the business of the library and is taken as given: the
    calls it makes, in order, and whether it ends in
    [panic(http.ErrAbortHandler)] (as it does when copying the body of
    the response fails). *)
Record Upstream := {
  callbacks : list Callback;
  aborts : bool
}.

(** The backend answers and the answer is relayed: [ModifyResponse] is
    called once. *)
Definition Responds (statusCode : Z) : Upstream :=
  {| callbacks := [ModifyResponse statusCode 0]; aborts := false |}.

(** The round trip to the backend fails: [ErrorHandler] is called once. *)
Definition TransportError : Upstream :=
  {| callbacks := [ErrorHandler 0]; aborts := false |}.

(** What the handler does, in order. *)
Inductive Event :=
| http_Error (msg : string) (code : Z)
| ServeHTTP (targetHost : string) (backend : Backend)
| WriteHeader (code : Z)
| Write (body : string)
| Go_logRequest (clientIP hostname requestPath : string)
    (backendID latencyMS statusCode : Z) (isSuccess : bool)
| Panic
| PanicAbortHandler.

(** The bodies of the two callbacks, as [proxyHandler] sets them. *)
Definition callbackEvents (r : http.Request) (hostname : string) (backend : Backend)
    (latencyMS : Z) (call : Callback) : list Event :=
  match call with
  | ModifyResponse statusCode later =>
      [Go_logRequest (http.RemoteAddr r) hostname (http.URL_Path r) (ID backend)
                     (latencyMS + later) statusCode true]
  | ErrorHandler later =>
      [WriteHeader http.StatusBadGateway;
       Write "Bad Gateway";
       Go_logRequest (http.RemoteAddr r) hostname (http.URL_Path r) (ID backend)
                     (latencyMS + later) http.StatusBadGateway false]
  end.

(** [proxy.ServeHTTP(w, r)]: the callbacks run as the library calls them. *)
Definition serveEvents (r : http.Request) (hostname : string) (backend : Backend)
    (latencyMS : Z) (upstream : Upstream) : list Event :=
  (flat_map (callbackEvents r hostname backend latencyMS) (callbacks upstream)
   ++ (if aborts upstream then [PanicAbortHandler] else []))%list.

Section Handler.
Context `{GoStdlib}.

(** [proxyHandler] for a request [r]; [upstream] says what the reverse
    proxy does when it is handed the request, and [latencyMS] is the time
    since [startTime], in milliseconds. *)
Definition proxyHandler (st : State) (r : http.Request)
    (upstream : Upstream) (latencyMS : Z) : State * list Event :=
  let hostname := http.Host r in
  let no_backends :=
    (st, [http_Error ("No backends found for this hostname " +:+ hostname)
                     http.StatusGone]) in
  match dnsRuleCache st !! hostname with
  | None => no_backends
  | Some [] => no_backends
  | Some backends =>
      match selectBackend backends (backendCountMap st) with
      | None => (st, [Panic])
      | Some (backends', counts', i) =>
          let st' := {| dnsRuleCache := <[hostname := backends']> (dnsRuleCache st);
                        backendCountMap := counts' |} in
          match nth_error backends' i with
          | None => (st', [Panic])
          | Some backend =>
              match url_Parse (URL backend) with
              | None =>
                  (st', [http_Error "Internal Server Error"
                                    http.StatusInternalServerError])
              | Some targetHost =>
                  (st', ServeHTTP targetHost backend
                        :: serveEvents r hostname backend latencyMS upstream)
              end
          end
      end
  end.

End Handler.
End proxy.

(** ** Package [database]: the buffered request-log sink. *)
Module database.

Record LogEntry := {
  ClientIP : string;
  Hostname : string;
  RequestPath : string;
  BackendID : Z;
  LatencyMS : Z;
  StatusCode : Z;
  IsSuccess : bool;
  UserAgent : string;
  FilteredBy : Z;
  Timestamp : Z
}.

Record BufferedLogger := {
  buffer : list LogEntry;
  batchSize : Z;
  flushTime : Z
}.

Definition set_buffer (bl : BufferedLogger) (b : list LogEntry) : BufferedLogger :=
  {| buffer := b; batchSize := batchSize bl; flushTime := flushTime bl |}.

(** The handle [DB]: [None] is the nil handle, otherwise the rows of
    [request_logs] in insertion order. *)
Definition Handle : Type := option (list LogEntry).

(** What goes wrong in one call of [batchInsert], if anything:
    [ExecFails k] makes the insert of entry number [k] fail. *)
Inductive Fault :=
| NoFault
| BeginFails
| PrepareFails
| ExecFails (k : nat)
| CommitFails.

Inductive Error :=
| ErrNotInitialized
| ErrBeginTransaction
| ErrPrepareStatement
| ErrExecuteInsert
| ErrCommitTransaction.

(** The loop of [batchInsert]: the rows inserted in the open transaction
    so far are [pending]; [None] when an insert fails. *)
Fixpoint execEntries (fault : Fault) (k : nat) (entries pending : list LogEntry)
    : option (list LogEntry) :=
  match entries with
  | [] => Some pending
  | entry :: rest =>
      match fault with
      | ExecFails j =>
          if Nat.eqb j k then None
          else execEntries fault (S k) rest (pending ++ [entry])%list
      | _ => execEntries fault (S k) rest (pending ++ [entry])%list
      end
  end.

(** [batchInsert]: a failed transaction is rolled back and leaves the
    table as it was. *)
Definition batchInsert (DB : Handle) (entries : list LogEntry) (fault : Fault)
    : Handle * option Error :=
  match DB with
  | None => (DB, Some ErrNotInitialized)
  | Some rows =>
      match fault with
      | BeginFails => (DB, Some ErrBeginTransaction)
      | PrepareFails => (DB, Some ErrPrepareStatement)
      | _ =>
          match execEntries fault 0 entries [] with
          | None => (DB, Some ErrExecuteInsert)
          | Some pending =>
              match fault with
              | CommitFails => (DB, Some ErrCommitTransaction)
              | _ => (Some (rows ++ pending)%list, None)
              end
          end
      end
  end.

Definition maxRetries : nat := 3.
Definition baseDelay : Z := 100 * GoTime.Millisecond.

(** What [writeToDatabase] does, in order. *)
Inductive Event :=
| Sleep (delay : Z)
| BatchInsert (result : option Error)
| LogWrote (entries : nat)
| LogAttemptFailed (attempt : nat) (err : Error)
| LogGaveUp (entries : nat) (attempts : nat) (err : Error).

(** [baseDelay * time.Duration(1<<uint(attempt-1))] *)
Definition backoff (attempt : nat) : Z :=
  GoTime.mul baseDelay (GoInt.wrap (Z.shiftl 1 (Z.of_nat attempt - 1))).

(** The loop of [writeToDatabase] from [attempt] on, with
    [remaining = maxRetries - attempt] iterations left; [faults] says
    what goes wrong in each attempt. *)
Fixpoint writeAttempts (remaining attempt : nat) (faults : nat -> Fault)
    (DB : Handle) (entries : list LogEntry) : Handle * list Event :=
  match remaining with
  | O => (DB, [])
  | S remaining' =>
      let sleep := if (0 <? attempt)%nat then [Sleep (backoff attempt)] else [] in
      match batchInsert DB entries (faults attempt) with
      | (DB', None) =>
          (DB', sleep ++ [BatchInsert None; LogWrote (length entries)])%list
      | (DB', Some err) =>
          let gaveUp :=
            if Nat.eqb attempt (maxRetries - 1)
            then [LogGaveUp (length entries) maxRetries err] else [] in
          let '(DB'', events) :=
            writeAttempts remaining' (S attempt) faults DB' entries in
          (DB'', sleep ++ [BatchInsert (Some err); LogAttemptFailed (attempt + 1) err]
                   ++ gaveUp ++ events)%list
      end
  end.

(** [writeToDatabase] *)
Definition writeToDatabase (faults : nat -> Fault) (DB : Handle)
    (entries : list LogEntry) : Handle * list Event :=
  writeAttempts maxRetries 0 faults DB entries.

(** [flush] *)
Definition flush (bl : BufferedLogger) (faults : nat -> Fault) (DB : Handle)
    : BufferedLogger * Handle * list Event :=
  match buffer bl with
  | [] => (bl, DB, [])
  | _ =>
      let entries := buffer bl in
      let '(DB', events) := writeToDatabase faults DB entries in
      (set_buffer bl [], DB', events)
  end.

(** [LogRequest]: the logger after the append, and whether a flush is
    started. *)
Definition LogRequest (bl : BufferedLogger) (entry : LogEntry) : BufferedLogger * bool :=
  let buffer' := (buffer bl ++ [entry])%list in
  (set_buffer bl buffer', batchSize bl <=? Z.of_nat (length buffer')).

(** ** The sink as the goroutines run it.

    [LogRequest] starts its flush in a goroutine of its own ([go
    logger.flush()]), and the goroutine of [start] calls [flush] at every
    tick and when the logger stops: several flushes can be under way at
    once. Under [bufferMu] a flush takes the buffer and clears it; its
    attempts to write the batch come afterwards, interleaved with the
    calls of [LogRequest] and with the other flushes. The transactions
    of [batchInsert] are serialised by the store and take effect at
    their commit.

    [started] counts the flushes that [LogRequest] has started and that
    have not locked the buffer yet; [writing] holds the batches inside
    [writeToDatabase], each with the number of the attempt that comes
    next; [given_up] records the entries of the batches whose third
    attempt failed, which the program keeps nowhere. *)
Record Sink := {
  logger : BufferedLogger;
  started : nat;
  writing : list (list LogEntry * nat);
  table : Handle;
  given_up : list LogEntry
}.

(** What a goroutine does next: a call of [LogRequest]; a flush started
    by [LogRequest] locks the buffer; the flush of a tick (or of the
    stop) locks the buffer; the batch at position [i] of [writing] has
    its next attempt, which meets [fault]. A step that is not enabled
    leaves the sink as it is. *)
Inductive Step :=
| Call (entry : LogEntry)
| Spawned
| Tick
| Attempt (i : nat) (fault : Fault).

(** [LogRequest], with the goroutine it may start. *)
Definition call (s : Sink) (entry : LogEntry) : Sink :=
  let '(bl, shouldFlush) := LogRequest (logger s) entry in
  {| logger := bl;
     started := if shouldFlush then S (started s) else started s;
     writing := writing s; table := table s; given_up := given_up s |}.

(** The part of [flush] under [bufferMu]. *)
Definition enter (s : Sink) : Sink :=
  match buffer (logger s) with
  | [] => s
  | _ =>
      {| logger := set_buffer (logger s) [];
         started := started s;
         writing := (writing s ++ [(buffer (logger s), 0%nat)])%list;
         table := table s; given_up := given_up s |}
  end.

(** A flush that [LogRequest] has started begins to run. *)
Definition spawned (s : Sink) : Sink :=
  match started s with
  | O => s
  | S n =>
      enter {| logger := logger s; started := n; writing := writing s;
               table := table s; given_up := given_up s |}
  end.

(** One iteration of the loop of [writeToDatabase] for the batch at
    position [i]. *)
Definition attempt (s : Sink) (i : nat) (fault : Fault) : Sink :=
  match writing s !! i with
  | None => s
  | Some (entries, n) =>
      match batchInsert (table s) entries fault with
      | (DB', None) =>
          {| logger := logger s; started := started s;
             writing := delete i (writing s);
             table := DB'; given_up := given_up s |}
      | (DB', Some _) =>
          if (S n <? maxRetries)%nat
          then {| logger := logger s; started := started s;
                  writing := <[i := (entries, S n)]> (writing s);
                  table := DB'; given_up := given_up s |}
          else {| logger := logger s; started := started s;
                  writing := delete i (writing s);
                  table := DB'; given_up := (given_up s ++ entries)%list |}
      end
  end.

Definition step (s : Sink) (st : Step) : Sink :=
  match st with
  | Call entry => call s entry
  | Spawned => spawned s
  | Tick => enter s
  | Attempt i fault => attempt s i fault
  end.

Definition run (s : Sink) (steps : list Step) : Sink := fold_left step steps s.

End database.

(** ** Package [main]: the log retention sweeper. *)
Module main.

(** A row of [request_logs]. The [timestamp] column holds local wall-clock
    text in the layout [2006-01-02 15:04:05], as [batchInsert] writes it;
    texts of that layout (years 0000 to 9999) compare like the instants
    they denote, and a row is modelled with the number of seconds its
    text denotes, counted from the Unix epoch. The [hostname] column may
    be NULL. *)
Record RequestLogRow := {
  row_id : Z;
  timestamp : Z;
  client_ip : string;
  hostname : option string;
  request_path : string;
  backend_id : Z;
  latency_ms : Z;
  status_code : Z;
  is_success : bool;
  user_agent : string;
  filtered_by : Z
}.

(** The surroundings of one sweep: the result of the query on
    [dns_rules] ([None]: the query fails; a [None] row: [Scan] fails),
    which of the successive [Exec] calls fail, and what the successive
    readings of the clock are (seconds of local wall-clock time, counted
    from the Unix epoch). A cutoff in the year 10000 or later has a text
    that is not of the layout of the rows; [beyond_layout timestamp
    cutoff] says whether the text of a row sorts before the text of such
    a cutoff, which is taken as given. *)
Record Env := {
  dns_rules : option (list (option (string * Z)));
  exec_fails : nat -> bool;
  clock : nat -> Z;
  beyond_layout : Z -> Z -> bool
}.

Inductive LogLine :=
| ErrFetchingRules
| ErrScanningRule
| ErrPruning (hostname : string)
| Pruned (rows : Z) (hostname : string) (retentionDays : Z)
| ErrPruningDefault
| PrunedDefault (rows : Z)
| Completed (total : Z).

(** The state threaded through a sweep. *)
Record Sweep := {
  request_logs : list RequestLogRow;
  execs : nat;
  readings : nat;
  totalRowsPruned : Z;
  output : list LogLine
}.

Definition seconds_per_day : Z := 86400.

(** Seconds from the zero of the absolute clock of package [time]
    (1 January of the year -292277022399) to the Unix epoch:
    [-(absoluteToInternal + internalToUnix)]. *)
Definition wallToAbsolute : Z := 9223372028715321600.

(** Seconds from the Unix epoch to 1 January of the year 10000. *)
Definition year_10000 : Z := 253402300800.

(** [t.AddDate(0, 0, days)] on wall-clock seconds. [AddDate] rebuilds the
    instant with [Date], which counts the days since the zero of the
    absolute clock in a [uint64] and multiplies by the seconds of a day:
    the sum wraps modulo 2^64 seconds of the absolute clock. *)
Definition AddDate_days (t days : Z) : Z :=
  (t + wallToAbsolute + days * seconds_per_day) mod 2 ^ 64 - wallToAbsolute.

(** [timestamp < ?], a comparison of texts. The text of a cutoff before
    the year 10000 is of the layout of the rows, or, before the year 0,
    begins with a minus sign: it compares with the text of a row as the
    instants do. *)
Definition sorts_before (env : Env) (timestamp cutoff : Z) : bool :=
  if cutoff <? year_10000 then timestamp <? cutoff
  else beyond_layout env timestamp cutoff.

(** [hostname = ? AND timestamp < ?] *)
Definition matches_host (env : Env) (host : string) (cutoff : Z)
    (row : RequestLogRow) : bool :=
  match hostname row with
  | Some h => String.eqb h host && sorts_before env (timestamp row) cutoff
  | None => false
  end.

(** [(hostname IS NULL OR hostname = '') AND timestamp < ?] *)
Definition matches_default (env : Env) (cutoff : Z) (row : RequestLogRow) : bool :=
  match hostname row with
  | Some h => String.eqb h "" && sorts_before env (timestamp row) cutoff
  | None => sorts_before env (timestamp row) cutoff
  end.

(** [DELETE FROM request_logs WHERE ...]: the remaining rows and the
    number of rows affected. *)
Definition delete_where (p : RequestLogRow -> bool) (rows : list RequestLogRow)
    : list RequestLogRow * Z :=
  (List.filter (fun row => negb (p row)) rows,
   Z.of_nat (length (List.filter p rows))).

Definition say (s : Sweep) (line : LogLine) : Sweep :=
  {| request_logs := request_logs s; execs := execs s; readings := readings s;
     totalRowsPruned := totalRowsPruned s; output := (output s ++ [line])%list |}.

(** The loop of [pruneOldLogs] over the rules. *)
Fixpoint pruneRules (env : Env) (rules : list (option (string * Z))) (s : Sweep) : Sweep :=
  match rules with
  | [] => s
  | None :: rest => pruneRules env rest (say s ErrScanningRule)
  | Some (host, days) :: rest =>
      let retentionDays := if days <=? 0 then 30 else days in
      let cutoffDate := AddDate_days (clock env (readings s)) (- retentionDays) in
      if exec_fails env (execs s) then
        pruneRules env rest
          {| request_logs := request_logs s; execs := S (execs s);
             readings := S (readings s); totalRowsPruned := totalRowsPruned s;
             output := (output s ++ [ErrPruning host])%list |}
      else
        let '(rows', rowsAffected) :=
          delete_where (matches_host env host cutoffDate) (request_logs s) in
        pruneRules env rest
          {| request_logs := rows'; execs := S (execs s);
             readings := S (readings s);
             totalRowsPruned := GoInt.wrap (totalRowsPruned s + rowsAffected);
             output := if 0 <? rowsAffected
                       then (output s ++ [Pruned rowsAffected host retentionDays])%list
                       else output s |}
  end.

(** The last statement of [pruneOldLogs]: rows without a hostname. *)
Definition pruneDefault (env : Env) (s : Sweep) : Sweep :=
  let defaultCutoffDate := AddDate_days (clock env (readings s)) (- 30) in
  if exec_fails env (execs s) then
    {| request_logs := request_logs s; execs := S (execs s);
       readings := S (readings s); totalRowsPruned := totalRowsPruned s;
       output := (output s ++ [ErrPruningDefault])%list |}
  else
    let '(rows', rowsAffected) :=
      delete_where (matches_default env defaultCutoffDate) (request_logs s) in
    {| request_logs := rows'; execs := S (execs s); readings := S (readings s);
       totalRowsPruned := GoInt.wrap (totalRowsPruned s + rowsAffected);
       output := if 0 <? rowsAffected
                 then (output s ++ [PrunedDefault rowsAffected])%list
                 else output s |}.

(** [pruneOldLogs]: the table after the sweep and the lines logged. *)
Definition pruneOldLogs (env : Env) (rows : list RequestLogRow)
    : list RequestLogRow * list LogLine :=
  match dns_rules env with
  | None => (rows, [ErrFetchingRules])
  | Some rules =>
      let s0 := {| request_logs := rows; execs := 0; readings := 0;
                   totalRowsPruned := 0; output := [] |} in
      let s1 := pruneDefault env (pruneRules env rules s0) in
      (request_logs s1, (output s1 ++ [Completed (totalRowsPruned s1)])%list)
  end.

End main.

(** ** Package [handlers]: the backend health checker. *)
Module handlers.

(** [checkBackendHealth]: [resp] is what [client.Get(url)] gives, the
    status code of the response, or [None] for an error. *)
Definition checkBackendHealth (resp : option Z) : bool :=
  match resp with
  | None => false
  | Some statusCode => (200 <=? statusCode) && (statusCode <? 500)
  end.

(** One iteration of the first loop of [checkHealthForEnabledDNSRules].
    A row holds [d.id, d.hostname, b.url]; a [None] row is a row whose
    [Scan] fails. *)
Definition scanRow (acc : list string * gmap string bool)
    (row : option (Z * string * string)) : list string * gmap string bool :=
  let '(urlsToCheck, urlMap) := acc in
  match row with
  | None => acc
  | Some (dnsID, hostname, backendURL) =>
      ((urlsToCheck ++ [backendURL])%list, <[backendURL := true]> urlMap)
  end.

(** [urlMap[url]] reads [false] for a missing key. *)
Definition needs_check (urlMap : gmap string bool) (url : string) : bool :=
  default false (urlMap !! url).

(** The second loop: entries of [healthStatus] that are no longer
    monitored are deleted. *)
Definition evict (urlMap : gmap string bool) (healthStatus : gmap string bool)
    : gmap string bool :=
  filter (fun entry => needs_check urlMap entry.1 = true) healthStatus.

(** The goroutine started for position [k] of [urlsToCheck] stores its
    verdict, under the lock; [probe k] is the answer to its request. *)
Definition storeVerdict (urlsToCheck : list string) (probe : nat -> option Z)
    (healthStatus : gmap string bool) (k : nat) : gmap string bool :=
  match nth_error urlsToCheck k with
  | Some url => <[url := checkBackendHealth (probe k)]> healthStatus
  | None => healthStatus
  end.

(** [checkHealthForEnabledDNSRules]: [rows] is the result of the query
    ([None] when it fails); [schedule] lists the positions of
    [urlsToCheck] in the order in which their goroutines take
    [healthStatusLock]. *)
Definition checkHealthForEnabledDNSRules
    (rows : option (list (option (Z * string * string))))
    (probe : nat -> option Z) (schedule : list nat)
    (healthStatus : gmap string bool) : gmap string bool :=
  match rows with
  | None => healthStatus
  | Some rows =>
      let '(urlsToCheck, urlMap) := fold_left scanRow rows ([], ∅) in
      fold_left (storeVerdict urlsToCheck probe) schedule (evict urlMap healthStatus)
  end.

End handlers.

(** ** A reference instance of the library interface, covering dotted-quad
    IPv4 addresses, [host:port] peers and [http://host/...] URLs. It is
    what the worked examples below run on. *)
Module IPv4.

Definition digit (c : ascii) : option Z :=
  let n := Z.of_nat (nat_of_ascii c) in
  if (48 <=? n) && (n <=? 57) then Some (n - 48) else None.

(** Decimal digits to a number; [None] on a non-digit. *)
Fixpoint decimal_from (acc : Z) (s : string) : option Z :=
  match s with
  | EmptyString => Some acc
  | String c s' =>
      match digit c with
      | Some d => decimal_from (10 * acc + d) s'
      | None => None
      end
  end.

Definition decimal (s : string) : option Z :=
  match s with
  | EmptyString => None
  | _ => if (String.length s <=? 3)%nat then decimal_from 0 s else None
  end.

(** The text after the first [sep], if there is one. *)
Fixpoint after (sep : ascii) (s : string) : option string :=
  match s with
  | EmptyString => None
  | String c s' => if Ascii.eqb c sep then Some s' else after sep s'
  end.

Definition octet (s : string) : option Z :=
  match decimal s with
  | Some n => if n <=? 255 then Some n else None
  | None => None
  end.

(** [a.b.c.d] as a 32-bit number. *)
Definition ParseIP (s : string) : option Z :=
  let dot := "."%char in
  match octet (GoStrings.before dot s), after dot s with
  | Some a, Some s1 =>
      match octet (GoStrings.before dot s1), after dot s1 with
      | Some b, Some s2 =>
          match octet (GoStrings.before dot s2), after dot s2 with
          | Some c, Some s3 =>
              match octet s3 with
              | Some d => Some (Z.shiftl a 24 + Z.shiftl b 16 + Z.shiftl c 8 + d)
              | None => None
              end
          | _, _ => None
          end
      | _, _ => None
      end
  | _, _ => None
  end.

(** A network is its base address and its prefix length. *)
Definition network (ip bits : Z) : Z * Z :=
  (Z.shiftl (Z.shiftr ip (32 - bits)) (32 - bits), bits).

Definition ParseCIDR (s : string) : option (Z * (Z * Z)) :=
  let slash := "/"%char in
  match ParseIP (GoStrings.before slash s), after slash s with
  | Some ip, Some len =>
      match decimal len with
      | Some bits => if bits <=? 32 then Some (ip, network ip bits) else None
      | None => None
      end
  | _, _ => None
  end.

Definition Contains (net : Z * Z) (ip : Z) : bool :=
  let '(base, bits) := net in
  Z.shiftr ip (32 - bits) =? Z.shiftr base (32 - bits).

Definition SplitHostPort (s : string) : option (string * string) :=
  let colon := ":"%char in
  match after colon s with
  | Some port => Some (GoStrings.before colon s, port)
  | None => None
  end.

Definition is_space (c : ascii) : bool :=
  let n := nat_of_ascii c in
  (Nat.eqb n 32 || (Nat.leb 9 n && Nat.leb n 13))%bool.

Fixpoint trim_left (s : string) : string :=
  match s with
  | String c s' => if is_space c then trim_left s' else s
  | EmptyString => s
  end.

Fixpoint trim_right (s : string) : string :=
  match s with
  | EmptyString => EmptyString
  | String c s' =>
      match trim_right s' with
      | EmptyString => if is_space c then EmptyString else String c EmptyString
      | t => String c t
      end
  end.

Definition TrimSpace (s : string) : string := trim_right (trim_left s).

Definition url_host (s : string) : option string :=
  if GoStrings.HasPrefix s "http://" then Some (GoStrings.before "/" (GoStrings.drop 7 s))
  else if GoStrings.HasPrefix s "https://" then Some (GoStrings.before "/" (GoStrings.drop 8 s))
  else None.

#[export] Instance stdlib : GoStdlib := {|
  IP := Z;
  IPNet := Z * Z;
  net_ParseCIDR := ParseCIDR;
  net_ParseIP := ParseIP;
  IPNet_Contains := Contains;
  net_SplitHostPort := SplitHostPort;
  strings_TrimSpace := TrimSpace;
  url_Parse := url_host
|}.

End IPv4.

(* ===================================================================== *)
(** * Part II: the vocabulary of the statements, and the data of the
    worked examples                                                      *)
(* ===================================================================== *)

Section TruthTableData.
Import models filter IPv4.

Definition rule_matching (kind value : string) : FilterRule :=
  {| RuleID := 1; Name := "r"; MatchType := kind; MatchValue := value;
     ActionType := FilterActionCustom; ActionValue := ""; StatusCode := 0;
     RuleIsActive := true; CreatedAt := 0; UpdatedAt := 0; Priority := 0 |}.

End TruthTableData.

Section StringNotions.

Definition begins_with (s x : string) : Prop := exists r, s = x +:+ r.

Definition ends_with (s x : string) : Prop := exists l, s = l +:+ x.

Definition contains (s x : string) : Prop := exists l r, s = l +:+ x +:+ r.

End StringNotions.

Section FilterNotions.
Import models filter.
Context `{GoStdlib}.

(** The request field a rule is matched against. *)
Definition subject (rule : FilterRule) (clientIP hostname requestPath : string)
    : option string :=
  if String.eqb (MatchType rule) FilterMatchTypeIP then Some clientIP
  else if String.eqb (MatchType rule) FilterMatchTypePath then Some requestPath
  else if String.eqb (MatchType rule) FilterMatchTypeDNS then Some hostname
  else None.

(** [subj] is a valid address inside the block written [V]. *)
Definition in_cidr (V subj : string) : Prop :=
  exists ip0 ipNet ip,
    net_ParseCIDR V = Some (ip0, ipNet)
    /\ net_ParseIP subj = Some ip
    /\ IPNet_Contains ipNet ip = true.

End FilterNotions.

Section PipelineNotions.
Import models filter proxy.
Context `{GoStdlib}.

(** The first rule of the list that matches the request. *)
Definition first_match (cache : list FilterRule) (r : http.Request)
    (rule : FilterRule) : Prop :=
  exists earlier later,
    cache = (earlier ++ rule :: later)%list
    /\ Forall (fun q => matchesRule q (getClientIP r) (http.Host r)
                                    (http.URL_Path r) = false) earlier
    /\ matchesRule rule (getClientIP r) (http.Host r) (http.URL_Path r) = true.

End PipelineNotions.

Section PipelineData.
Import models filter proxy IPv4.

Definition backend_u1 : Backend :=
  {| ID := 7; URL := "http://u1"; Weight := 1; IsActive := true;
     Ratio := Float64.zero |}.

(** The routing table [api.test -> http://u1], nothing selected yet. *)
Definition state_api_test : State :=
  {| dnsRuleCache := {[ "api.test" := [backend_u1] ]}; backendCountMap := ∅ |}.

Definition request_to (host path : string) : http.Request :=
  {| http.Host := host; http.URL_Path := path;
     http.RemoteAddr := "192.0.2.5:40000"; http.Header := ∅ |}.

(** A rule that matches every path. *)
Definition block_all : FilterRule :=
  {| RuleID := 3; Name := "all"; MatchType := FilterMatchTypePath;
     MatchValue := "*"; ActionType := FilterActionBadRequest;
     ActionValue := ""; StatusCode := 0; RuleIsActive := true;
     CreatedAt := 0; UpdatedAt := 0; Priority := 10 |}.

End PipelineData.

Section RateLimiterNotions.
Import middleware.

(** The quota and the interval the limiter applies to a host: those of
    its configuration when it is enabled, the defaults of the limiter
    when the host has no configuration, none when it is disabled. *)
Definition limits (rl : RateLimiter) (hostname : string) : option (Z * Z) :=
  match dnsConfigMap rl !! hostname with
  | Some config =>
      if Enabled config
      then Some (Quota config, GoTime.mul (PeriodSecs config) GoTime.Second)
      else None
  | None => Some (defaultMaxRequests rl, defaultInterval rl)
  end.

(** The counter of a client for a host. *)
Definition counter (rl : RateLimiter) (ip hostname : string) : option HostCount :=
  match ipMap rl !! ip with
  | Some limit => hostCounts limit !! hostname
  | None => None
  end.

(** A sequence of requests, each with its instant, handled one after the
    other: the limiter at the end and the outcomes in order. *)
Fixpoint serve (rl : RateLimiter) (reqs : list (Ctx * Z))
    : RateLimiter * list Handled :=
  match reqs with
  | [] => (rl, [])
  | (c, now) :: rest =>
      let '(rl1, h) := RateLimiterMiddleware rl c now in
      let '(rl2, hs) := serve rl1 rest in
      (rl2, h :: hs)
  end.

End RateLimiterNotions.

Section RateLimiterData.
Import middleware.

(** The limiter as [main] creates it: [NewRateLimiter(100, time.Minute)]. *)
Definition limiter_default : RateLimiter :=
  {| ipMap := ∅; dnsConfigMap := ∅;
     defaultMaxRequests := 100; defaultInterval := GoTime.Minute |}.

Definition config_api (enabled : bool) (quota periodSecs : Z) : DNSRateLimitConfig :=
  {| Hostname := "api.test"; Enabled := enabled; Quota := quota;
     PeriodSecs := periodSecs; LastUpdated := 0 |}.

Definition limiter_with (config : DNSRateLimitConfig) : RateLimiter :=
  {| ipMap := ∅; dnsConfigMap := {[ "api.test" := config ]};
     defaultMaxRequests := 100; defaultInterval := GoTime.Minute |}.

Definition ping : Ctx :=
  {| ctx_Path := "/ping"; ctx_IP := "198.51.100.7"; ctx_Hostname := "api.test" |}.

Definition seconds (n : Z) : Z := n * GoTime.Second.

End RateLimiterData.

Section RoutingCacheNotions.
Import models proxy.

(** A store with the rule [api.test -> http://u1]. *)
Definition db_api_test : Database :=
  {| dns_rules := Some [Some (1, "api.test")];
     backends_of := fun ruleID =>
                      if ruleID =? 1 then Some [Some backend_u1] else Some [] |}.

(** The same routing table after five selections of [http://u1]. *)
Definition state_after_five : State :=
  {| dnsRuleCache := {[ "api.test" := [backend_u1] ]};
     backendCountMap := {[ "http://u1" := 5 ]} |}.

End RoutingCacheNotions.

Section LogSinkNotions.
Import database.

(** [100 ms * 2^(attempt-1)], in nanoseconds. *)
Definition retry_delay (attempt : Z) : Z :=
  100 * GoTime.Millisecond * 2 ^ (attempt - 1).

End LogSinkNotions.

Section RetentionNotions.
Import main.






(** The cutoff of a retention of [retention] days at [now] does not
    precede the zero of the absolute clock (some 2.9e11 years back). *)
Definition within_clock (now retention : Z) : Prop :=
  retention * seconds_per_day <= now + wallToAbsolute.

(** The row is deleted by the statement that is run for a rule at [now]. *)
Definition swept_by_rule (env : Env) (now : Z) (row : RequestLogRow)
    (rule : option (string * Z)) : bool :=
  match rule with
  | Some (host, days) =>
      matches_host env host
        (AddDate_days now (- (if days <=? 0 then 30 else days))) row
  | None => false
  end.

Definition day (n : Z) : Z := n * seconds_per_day.

(** A sweep on day 100 with the one rule [a.test: 2^63 - 1 days]. *)
Definition forever_env : Env :=
  {| dns_rules := Some [Some ("a.test", 2 ^ 63 - 1)];
     exec_fails := fun _ => false;
     clock := fun _ => day 100;
     beyond_layout := fun _ _ => false |}.

Definition row_of (id : Z) (host : option string) (at_time : Z) : RequestLogRow :=
  {| row_id := id; timestamp := at_time; client_ip := "192.0.2.5";
     hostname := host; request_path := "/"; backend_id := 7; latency_ms := 3;
     status_code := 200; is_success := true; user_agent := "ua"; filtered_by := 0 |}.

(** A sweep on day 100 with the rules [a.test: 0 days], [b.test: 7 days]. *)
Definition sweep_env : Env :=
  {| dns_rules := Some [Some ("a.test", 0); Some ("b.test", 7)];
     exec_fails := fun _ => false;
     clock := fun _ => day 100;
     beyond_layout := fun _ _ => false |}.

End RetentionNotions.

Section Float64OrderNotions.
Import Float64.

(** A key whose lexicographic order is the order of the numbers. *)
Definition order_key (x : spec_float) : Z * Z * Z :=
  match x with
  | S754_zero _ => (0, 0, 0)
  | S754_infinity s => (if s then -2 else 2, 0, 0)
  | S754_nan => (0, 0, 0)
  | S754_finite false m e => (1, e, Zpos m)
  | S754_finite true m e => (-1, - e, - Zpos m)
  end.

Definition lex_lt (a b : Z * Z * Z) : Prop :=
  a.1.1 < b.1.1
  \/ (a.1.1 = b.1.1 /\ (a.1.2 < b.1.2 \/ (a.1.2 = b.1.2 /\ a.2 < b.2))).

End Float64OrderNotions.

Section Float64RoundingNotions.
Import Float64.

(** The number of bits a rounding step drops. *)
Definition dropped (m e : Z) : Z :=
  Z.max 0 (fexp prec emax (Zdigits2 m + e) - e).

End Float64RoundingNotions.

Section SelectorNotions.
Import models proxy Float64.
Import QArith_base(Q, Qeq, Qlt, Qminus, Qdiv, inject_Z).

Definition is_number (x : spec_float) : Prop :=
  match x with
  | S754_zero _ | S754_finite _ _ _ => True
  | _ => False
  end.

(** The index the loop ends with, from position [i] on, when it holds
    position [s] with priority [m]. *)
Fixpoint first_max_from (i : nat) (ps : list spec_float) (s : nat) (m : spec_float) : nat :=
  match ps with
  | [] => s
  | p :: ps' =>
      if gt p m then first_max_from (S i) ps' i p
      else first_max_from (S i) ps' s m
  end.

(** [i] is the first position of a maximum of [ps]. *)
Definition first_maximum (ps : list spec_float) (i : nat) : Prop :=
  exists m,
    nth_error ps i = Some m
    /\ (forall j q, nth_error ps j = Some q -> gt q m = false)
    /\ (forall j q, (j < i)%nat -> nth_error ps j = Some q -> gt m q = true).

(** [w] is the minimum weight in the list. *)
Definition minimum_weight (backends : list Backend) (w : Z) : Prop :=
  (exists b, In b backends /\ Weight b = w)
  /\ List.Forall (fun b => w <= Weight b) backends.

(** The priority of a candidate as the fraction it is written as:
    [weight / w_min - selected_count]. *)
Definition exact_priority (w_min selected_count weight : Z) : Q :=
  Qminus (Qdiv (inject_Z weight) (inject_Z w_min)) (inject_Z selected_count).

(** The same expression in binary64, as Go evaluates
    [float64(weight) / float64(w_min) - float64(selected_count)]: the
    conversions, the quotient and the difference are each rounded to
    nearest. *)
Definition rounded_priority (w_min selected_count weight : Z) : spec_float :=
  sub (div (of_int weight) (of_int w_min)) (of_int selected_count).

(** The running count of a candidate: that of its origin URL, 0 when the
    URL has none yet. *)
Definition selected_count (counts : gmap string Z) (b : Backend) : Z :=
  default 0 (counts !! URL b).

(** A count after one more selection; the greatest [int] wraps. *)
Definition next_count (n : Z) : Z :=
  if n =? 2 ^ 63 - 1 then - 2 ^ 63 else n + 1.

End SelectorNotions.

Section SelectorData.
Import models proxy Float64.

Definition backend_of (id : Z) (url : string) (weight : Z) : Backend :=
  {| ID := id; URL := url; Weight := weight; IsActive := true; Ratio := zero |}.

Definition one_and_three : list Backend :=
  [backend_of 1 "http://u1" 1; backend_of 2 "http://u2" 3].

(** The element at the returned index, and the counters. *)
Definition choice (backends : list Backend) (counts : gmap string Z)
    : option (string * gmap string Z) :=
  match selectBackend backends counts with
  | Some (backends', counts', i) =>
      match nth_error backends' i with
      | Some b => Some (URL b, counts')
      | None => None
      end
  | None => None
  end.

(** Successive selections, each on the counters left by the previous one. *)
Fixpoint choices (n : nat) (backends : list Backend) (counts : gmap string Z)
    : list string :=
  match n with
  | O => []
  | S n' =>
      match choice backends counts with
      | Some (url, counts') => url :: choices n' backends counts'
      | None => []
      end
  end.

(** Weights 3, 4 and 7; the third backend has been selected once. *)
Definition three_four_seven : list Backend :=
  [backend_of 1 "http://a" 3; backend_of 2 "http://b" 4; backend_of 3 "http://c" 7].

Definition third_selected_once : gmap string Z := {[ "http://c" := 1 ]}.

End SelectorData.

Section FilterEngineNotions.
Import models filter.
Context `{GoStdlib}.

(** The result for a request that no rule matches: the zero value. *)
Definition not_filtered : FilterResult :=
  {| Filtered := false; Rule := FilterRule_zero; ResultStatusCode := 0;
     Response := ""; RedirectURL := "" |}.

(** The rule matches the request. *)
Definition rule_matches (rule : FilterRule) (r : http.Request) : Prop :=
  matchesRule rule (getClientIP r) (http.Host r) (http.URL_Path r) = true.

End FilterEngineNotions.

Section FilterEngineData.
Import models filter.

(** A request that arrives from [peer] and carries a forwarding header. *)
Definition forwarded_from (peer : string) : http.Request :=
  {| http.Host := "api.test"; http.URL_Path := "/";
     http.RemoteAddr := peer;
     http.Header := {[ "X-Forwarded-For" := "10.1.2.3, 172.16.0.1" ]} |}.

End FilterEngineData.

Section RateLimiterRunNotions.
Import middleware.

(** Each instant of [times] is at most [interval] after the one before
    it, the first one at most [interval] after [previous]. *)
Fixpoint paced (interval previous : Z) (times : list Z) : Prop :=
  match times with
  | [] => True
  | t :: rest => GoTime.Sub t previous <= interval /\ paced interval t rest
  end.

(** The outcome for a request that brings the count to [n]. *)
Definition verdict (quota n : Z) : Handled :=
  if quota <? n then StatusJSON http.StatusTooManyRequests rate_limit_message
  else Next.

(** The same request, sent at each of the instants [times]. *)
Definition repeated (c : Ctx) (times : list Z) : list (Ctx * Z) :=
  map (fun t => (c, t)) times.



(** The configuration [loadDNSConfigs] builds from a row read at [at_time]. *)
Definition config_of_row (rl : RateLimiter) (hostname : string) (enabled : bool)
    (quota period at_time : Z) : DNSRateLimitConfig :=
  {| Hostname := hostname; Enabled := enabled;
     Quota := if quota <=? 0 then defaultMaxRequests rl else quota;
     PeriodSecs := if period <=? 0
                   then Float64.to_int (Duration_Seconds (defaultInterval rl))
                   else period;
     LastUpdated := at_time |}.

End RateLimiterRunNotions.

Section RateLimiterRunData.
Import middleware.

(** A limiter in which the client of [ping] has sent [n] requests to
    [api.test], the last one at instant 0. *)
Definition limiter_after (n : Z) : RateLimiter :=
  {| ipMap := {[ "198.51.100.7" :=
                   {| count := n; lastSeen := 0;
                      hostCounts := {[ "api.test" := {| hc_count := n; hc_lastSeen := 0 |} ]} |} ]};
     dnsConfigMap := {[ "api.test" := config_api true 2 10 ]};
     defaultMaxRequests := 100; defaultInterval := GoTime.Minute |}.

Definition admin_page : Ctx :=
  {| ctx_Path := "/administrator"; ctx_IP := "198.51.100.7";
     ctx_Hostname := "api.test" |}.

End RateLimiterRunData.

Section RoutingNotions.
Import models proxy.

(** The backend without the scratch field the selector writes. *)
Definition erase_Ratio (b : Backend) : Backend := set_Ratio b Float64.zero.

(** The same backends in the same order, up to the scratch field. *)
Definition same_backends (backends backends' : list Backend) : Prop :=
  map erase_Ratio backends' = map erase_Ratio backends.

(** Every cached list is non-empty and holds active backends only. *)
Definition well_formed (cache : gmap string (list Backend)) : Prop :=
  forall host backends,
    cache !! host = Some backends ->
    backends <> [] /\ List.Forall (fun b => IsActive b = true) backends.

(** A priority that no later candidate can exceed: a NaN or [+Inf]. *)
Definition unbeatable (p : spec_float) : Prop :=
  p = S754_nan \/ p = S754_infinity false.

Definition is_log (e : Event) : bool :=
  match e with
  | Go_logRequest _ _ _ _ _ _ _ => true
  | _ => false
  end.

Definition is_bad_gateway (e : Event) : bool :=
  match e with
  | WriteHeader code => code =? http.StatusBadGateway
  | _ => false
  end.

Definition is_error_call (call : Callback) : bool :=
  match call with
  | ErrorHandler _ => true
  | ModifyResponse _ _ => false
  end.

(** The request-log entry that is due for a call of a callback, for the
    request [r] handed to the reverse proxy for the backend [backendID],
    when the reading of the handler is [latencyMS]: the status of the
    response and success for an answer, 502 and failure for an error. *)
Definition log_of (r : http.Request) (backendID latencyMS : Z) (call : Callback)
    : Event :=
  match call with
  | ModifyResponse statusCode later =>
      Go_logRequest (http.RemoteAddr r) (http.Host r) (http.URL_Path r) backendID
                    (latencyMS + later) statusCode true
  | ErrorHandler later =>
      Go_logRequest (http.RemoteAddr r) (http.Host r) (http.URL_Path r) backendID
                    (latencyMS + later) 502 false
  end.

End RoutingNotions.

Section HandlerRunNotions.
Import models proxy.
Context `{GoStdlib}.

(** A sequence of requests, each with what its upstream does and the
    latency measured, handled one after the other: the state at the end. *)
Fixpoint handle_all (st : State) (reqs : list (http.Request * Upstream * Z)) : State :=
  match reqs with
  | [] => st
  | (r, upstream, latencyMS) :: rest =>
      handle_all (fst (proxyHandler st r upstream latencyMS)) rest
  end.

(** The answer [410 Gone] of the handler. *)
Definition gone (r : http.Request) : Event :=
  http_Error ("No backends found for this hostname " +:+ http.Host r) http.StatusGone.

End HandlerRunNotions.

Section RoutingData.
Import models proxy.

(** A backend of weight 5 followed by one of weight 0. *)
Definition five_and_zero : list Backend :=
  [backend_of 1 "http://u1" 5; backend_of 2 "http://u2" 0].

End RoutingData.

Section LogSinkRunNotions.
Import database.

(** The rows of the table; none behind the nil handle. *)
Definition rows_of (DB : Handle) : list LogEntry :=
  match DB with Some rows => rows | None => [] end.

(** The entries the sink holds: buffered, or in a batch being written. *)
Definition held (s : Sink) : list LogEntry :=
  (buffer (logger s) ++ concat (map fst (writing s)))%list.

(** The entries handed to [LogRequest] in the course of a run. *)
Fixpoint submitted (steps : list Step) : list LogEntry :=
  match steps with
  | [] => []
  | Call entry :: rest => entry :: submitted rest
  | _ :: rest => submitted rest
  end.

(** No attempt of the run meets a fault. *)
Definition faultless (steps : list Step) : Prop :=
  forall i fault, In (Attempt i fault) steps -> fault = NoFault.

(** From [s] to [s'], with the entries [new] coming in: the table and
    the entries given up only grow, and what was held or came in is
    afterwards in the table, still held, or given up. *)
Definition conserved (s s' : Sink) (new : list LogEntry) : Prop :=
  exists added lost,
    rows_of (table s') = (rows_of (table s) ++ added)%list
    /\ given_up s' = (given_up s ++ lost)%list
    /\ Permutation (added ++ held s' ++ lost) (held s ++ new).

End LogSinkRunNotions.

Section LogSinkRunData.
Import database.

Definition entry_of (path : string) : LogEntry :=
  {| ClientIP := "192.0.2.5:40000"; Hostname := "api.test"; RequestPath := path;
     BackendID := 7; LatencyMS := 12; StatusCode := 200; IsSuccess := true;
     UserAgent := ""; FilteredBy := 0; Timestamp := 0 |}.

Definition empty_logger : BufferedLogger :=
  {| buffer := []; batchSize := 50; flushTime := 5 * GoTime.Second |}.

(** The first attempt cannot begin a transaction, the later ones can. *)
Definition busy_once (attempt : nat) : Fault :=
  match attempt with
  | O => BeginFails
  | _ => NoFault
  end.

(** A logger that starts a flush at two entries. *)
Definition small_sink : Sink :=
  {| logger := {| buffer := []; batchSize := 2; flushTime := 5 * GoTime.Second |};
     started := 0; writing := []; table := Some []; given_up := [] |}.

End LogSinkRunData.

Section RetentionRunNotions.
Import main.

(** No rule of the list names the host. *)
Definition unnamed_host (rules : list (option (string * Z))) (host : string) : Prop :=
  forall days, ~ In (Some (host, days)) rules.

(** The last line of the output. *)
Definition last_line (lines : list LogLine) : option LogLine := List.last (map Some lines) None.

(** The rows counted so far and the rows left add up to the rows the
    sweep started with. *)
Definition accounted (total : Z) (s : Sweep) : Prop :=
  0 <= totalRowsPruned s
  /\ totalRowsPruned s + Z.of_nat (length (request_logs s)) = total.

End RetentionRunNotions.

Section RetentionRunData.
Import main.

(** A sweep in which the delete for the second rule fails. *)
Definition flaky_env : Env :=
  {| dns_rules := Some [Some ("a.test", 0); Some ("b.test", 7)];
     exec_fails := fun k => Nat.eqb k 1;
     clock := fun _ => day 100;
     beyond_layout := fun _ _ => false |}.

Definition flaky_rows : list RequestLogRow :=
  [row_of 1 (Some "a.test") (day 1); row_of 2 (Some "b.test") (day 1);
   row_of 3 None (day 1); row_of 4 (Some "c.test") (day 1)].

End RetentionRunData.

Section HealthNotions.
Import handlers.

(** The URLs a sweep probes, in query order: those of the rows that scan. *)
Fixpoint monitored (rows : list (option (Z * string * string))) : list string :=
  match rows with
  | [] => []
  | None :: rest => monitored rest
  | Some (_, _, backendURL) :: rest => backendURL :: monitored rest
  end.

(** The backend answered with a status from 200 to 499. *)
Definition answered_below_500 (resp : option Z) : Prop :=
  exists statusCode, resp = Some statusCode /\ 200 <= statusCode < 500.

End HealthNotions.

Section HealthData.
Import handlers.

Definition health_rows : list (option (Z * string * string)) :=
  [Some (1, "api.test", "http://u1"); None; Some (1, "api.test", "http://u2");
   Some (2, "www.test", "http://u1")].

(** [http://u1] answers 404 to the first probe and times out on the
    second one; [http://u2] answers 503. *)
Definition health_probe (k : nat) : option Z :=
  match k with
  | 0%nat => Some 404
  | 1%nat => Some 503
  | _ => None
  end.

Definition health_before : gmap string bool :=
  {[ "http://gone" := true; "http://u2" := true ]}.

End HealthData.

Section TokenCheckNotions.
Import middleware.

(** The text holds no space. *)
Definition spaceless (s : string) : Prop := ~ contains s " ".

End TokenCheckNotions.

Section TokenCheckData.
Import middleware.

(** Lower case for the letters [A] to [Z]. *)
Definition lower_ascii (c : ascii) : ascii :=
  let n := nat_of_ascii c in
  if (Nat.leb 65 n && Nat.leb n 90)%bool then ascii_of_nat (n + 32) else c.

Fixpoint lower (s : string) : string :=
  match s with
  | EmptyString => EmptyString
  | String c s' => String (lower_ascii c) (lower s')
  end.

(** A verifier that accepts the one token [good]. *)
Definition accepts_good (tokenString : string) : Parsed :=
  if String.eqb tokenString "good"
  then Token true (Some {[ "id" := "7"; "role" := "admin" ]})
  else ParseError.

End TokenCheckData.

Section CleanupData.
Import middleware.

(** A host limited to 2 requests per hour; a client that has sent 5
    requests to it, the last one at instant 0. *)
Definition hourly_limiter : RateLimiter :=
  {| ipMap := {[ "198.51.100.7" :=
                   {| count := 5; lastSeen := 0;
                      hostCounts := {[ "api.test" := {| hc_count := 5; hc_lastSeen := 0 |} ]} |} ]};
     dnsConfigMap := {[ "api.test" := config_api true 2 3600 ]};
     defaultMaxRequests := 100; defaultInterval := GoTime.Minute |}.

End CleanupData.

(* ===================================================================== *)
(** * Part III: properties                                                 *)
(* ===================================================================== *)

(** ** Worked examples: the pattern truth table of the filter engine. *)
Section TruthTable.
Import models filter IPv4.

Example cidr_inside :
  matchesRule (rule_matching "ip" "10.0.0.0/8") "10.1.2.3" "h" "/" = true.
Proof. vm_compute. reflexivity. Qed.

Example cidr_outside :
  matchesRule (rule_matching "ip" "10.0.0.0/8") "192.168.1.1" "h" "/" = false.
Proof. vm_compute. reflexivity. Qed.

Example star_alone :
  matchesRule (rule_matching "path" "*") "1.2.3.4" "h" "/anything" = true.
Proof. vm_compute. reflexivity. Qed.

Example star_both_sides :
  matchesRule (rule_matching "path" "*admin*") "1.2.3.4" "h" "/admin/login" = true.
Proof. vm_compute. reflexivity. Qed.

Example path_prefix :
  matchesRule (rule_matching "path" "/api/") "1.2.3.4" "h" "/api/users" = true.
Proof. vm_compute. reflexivity. Qed.

Example path_prefix_miss :
  matchesRule (rule_matching "path" "/api/") "1.2.3.4" "h" "/apiv2/users" = false.
Proof. vm_compute. reflexivity. Qed.

Example host_suffix :
  matchesRule (rule_matching "dns" "*.example.com") "1.2.3.4" "api.example.com" "/" = true.
Proof. vm_compute. reflexivity. Qed.

Example host_prefix :
  matchesRule (rule_matching "dns" "api.*") "1.2.3.4" "api.example.com" "/" = true.
Proof. vm_compute. reflexivity. Qed.

Example host_substring :
  matchesRule (rule_matching "dns" "example") "1.2.3.4" "my.example.org" "/" = true.
Proof. vm_compute. reflexivity. Qed.

End TruthTable.

(** ** Byte strings: what the functions of [strings] decide. *)
Section StringFacts.

Lemma append_nil_l (s : string) : "" +:+ s = s.
Proof. reflexivity. Qed.

Lemma append_cons (c : ascii) (s t : string) :
  String c s +:+ t = String c (s +:+ t).
Proof. reflexivity. Qed.

Lemma append_nil_r (s : string) : s +:+ "" = s.
Proof.
  induction s as [|c s IH]; [reflexivity | now rewrite append_cons, IH].
Qed.

Lemma append_assoc (a b c : string) : (a +:+ b) +:+ c = a +:+ b +:+ c.
Proof.
  induction a as [|x a IH]; [reflexivity | now rewrite !append_cons, IH].
Qed.

Lemma length_append (a b : string) :
  String.length (a +:+ b) = (String.length a + String.length b)%nat.
Proof.
  induction a as [|x a IH]; [reflexivity |].
  rewrite append_cons. simpl. now rewrite IH.
Qed.

Lemma HasPrefix_spec (s p : string) :
  GoStrings.HasPrefix s p = true <-> begins_with s p.
Proof.
  unfold begins_with. revert s.
  induction p as [|c p IH]; intros s; simpl.
  - split; [intros _; now exists s | reflexivity].
  - destruct s as [|d s].
    + split; [discriminate | intros [r Hr]; discriminate].
    + setoid_rewrite append_cons.
      destruct (Ascii.eqb_spec c d) as [->|Hne].
      * rewrite IH. split; intros [r Hr]; exists r; [now rewrite Hr | congruence].
      * split; [discriminate | intros [r Hr]; congruence].
Qed.

Lemma drop_append (a b : string) : GoStrings.drop (String.length a) (a +:+ b) = b.
Proof.
  induction a as [|x a IH]; [now destruct b |].
  rewrite append_cons. simpl. exact IH.
Qed.

Lemma take_append (a b : string) : GoStrings.take (String.length a) (a +:+ b) = a.
Proof.
  induction a as [|x a IH]; [now destruct b |].
  rewrite append_cons. simpl. now rewrite IH.
Qed.

Lemma take_drop (n : nat) (s : string) :
  GoStrings.take n s +:+ GoStrings.drop n s = s.
Proof.
  revert s. induction n as [|n IH]; intros s; simpl.
  - now destruct s.
  - destruct s as [|c s]; [reflexivity |].
    rewrite append_cons. now rewrite IH.
Qed.

Lemma HasSuffix_spec (s p : string) :
  GoStrings.HasSuffix s p = true <-> ends_with s p.
Proof.
  unfold GoStrings.HasSuffix, ends_with.
  rewrite andb_true_iff, Nat.leb_le, String.eqb_eq. split.
  - intros [_ Hd].
    exists (GoStrings.take (String.length s - String.length p) s).
    pose proof (take_drop (String.length s - String.length p) s) as Htd.
    rewrite Hd in Htd. now symmetry.
  - intros [l ->]. rewrite length_append. split; [lia |].
    replace (String.length l + String.length p - String.length p)%nat
      with (String.length l) by lia.
    apply drop_append.
Qed.

Lemma Contains_spec (s x : string) :
  GoStrings.Contains s x = true <-> contains s x.
Proof.
  unfold contains. induction s as [|c s IH].
  - cbn [GoStrings.Contains]. rewrite orb_false_r, HasPrefix_spec. split.
    + intros [r Hr]. exists "", r. exact Hr.
    + intros [l [r Hr]]. destruct l; [now exists r | discriminate].
  - cbn [GoStrings.Contains]. rewrite orb_true_iff, HasPrefix_spec, IH. split.
    + intros [[r Hr] | [l [r Hr]]].
      * exists "", r. exact Hr.
      * exists (String c l), r. rewrite append_cons. now rewrite Hr.
    + intros [l [r Hr]]. destruct l as [|d l].
      * left. now exists r.
      * right. exists l, r. rewrite append_cons in Hr. congruence.
Qed.

Lemma HasPrefix_false (s p : string) :
  GoStrings.HasPrefix s p = false <-> ~ begins_with s p.
Proof. rewrite <- HasPrefix_spec. now destruct (GoStrings.HasPrefix s p). Qed.

Lemma HasSuffix_false (s p : string) :
  GoStrings.HasSuffix s p = false <-> ~ ends_with s p.
Proof. rewrite <- HasSuffix_spec. now destruct (GoStrings.HasSuffix s p). Qed.

Lemma Contains_false (s x : string) :
  GoStrings.Contains s x = false <-> ~ contains s x.
Proof. rewrite <- Contains_spec. now destruct (GoStrings.Contains s x). Qed.

End StringFacts.

(** ** The filter engine: pattern semantics. *)
Section FilterFacts.
Import models filter.
Context `{GoStdlib}.

Ltac kinds_clash :=
  exfalso;
  unfold FilterMatchTypeIP, FilterMatchTypePath, FilterMatchTypeDNS in *;
  subst; congruence.

Lemma eqb_star_false (c : ascii) (s t : string) :
  String.eqb (String c (s +:+ String "*" t)) "*" = false.
Proof.
  apply String.eqb_neq. intros Heq. injection Heq as _ Heq.
  destruct s; discriminate.
Qed.

Lemma wildcard_star (text : string) : matchesWildcard "*" text = true.
Proof. reflexivity. Qed.

Lemma wildcard_infix (X text : string) :
  matchesWildcard ("*" +:+ X +:+ "*") text = GoStrings.Contains text X.
Proof.
  unfold matchesWildcard.
  rewrite append_cons, append_nil_l, eqb_star_false.
  assert (Hsuf : GoStrings.HasSuffix (String "*" (X +:+ "*")) "*" = true).
  { apply HasSuffix_spec. exists (String "*" X). now rewrite append_cons. }
  rewrite Hsuf. cbn [GoStrings.HasPrefix Ascii.eqb Bool.eqb andb].
  unfold GoStrings.slice. cbn [String.length GoStrings.drop].
  rewrite length_append. cbn [String.length].
  replace (S (String.length X + 1) - 1 - 1)%nat with (String.length X) by lia.
  now rewrite take_append.
Qed.

Lemma wildcard_suffix (X text : string) :
  ~ ends_with X "*" ->
  matchesWildcard ("*" +:+ X) text = GoStrings.HasSuffix text X.
Proof.
  intros Hx. destruct X as [|c X].
  - rewrite append_nil_r, wildcard_star. symmetry.
    apply HasSuffix_spec. exists text. now rewrite append_nil_r.
  - unfold matchesWildcard. rewrite append_cons, append_nil_l.
    replace (String.eqb (String "*" (String c X)) "*") with false by reflexivity.
    assert (Hsuf : GoStrings.HasSuffix (String "*" (String c X)) "*" = false).
    { apply HasSuffix_false. intros [l Hl]. apply Hx.
      destruct l as [|d l]; [discriminate |].
      rewrite append_cons in Hl. injection Hl as _ Hl. now exists l. }
    rewrite Hsuf. reflexivity.
Qed.

Lemma wildcard_prefix (X text : string) :
  ~ begins_with X "*" ->
  matchesWildcard (X +:+ "*") text = GoStrings.HasPrefix text X.
Proof.
  intros Hx. destruct X as [|c X].
  - rewrite append_nil_l, wildcard_star. now destruct text.
  - unfold matchesWildcard. rewrite append_cons.
    replace (String.eqb (String c (X +:+ "*")) "*") with false
      by (symmetry; apply (eqb_star_false c X "")).
    assert (Hpre : GoStrings.HasPrefix (String c (X +:+ "*")) "*" = false).
    { apply HasPrefix_false. intros [r Hr]. apply Hx.
      rewrite append_cons, append_nil_l in Hr. injection Hr as -> _.
      exists X. reflexivity. }
    rewrite Hpre. cbn [andb].
    assert (Hsuf : GoStrings.HasSuffix (String c (X +:+ "*")) "*" = true).
    { apply HasSuffix_spec. exists (String c X). now rewrite append_cons. }
    rewrite Hsuf. unfold GoStrings.slice. cbn [GoStrings.drop String.length].
    rewrite length_append. cbn [String.length].
    replace (S (String.length X + 1) - 1 - 0)%nat with (String.length (String c X))
      by (cbn [String.length]; lia).
    rewrite <- append_cons. now rewrite take_append.
Qed.

Lemma matchesIP_cidr (V subj : string) :
  contains V "/" -> (matchesIP V subj = true <-> in_cidr V subj).
Proof.
  intros Hslash. apply Contains_spec in Hslash.
  unfold matchesIP, in_cidr. rewrite Hslash.
  destruct (net_ParseCIDR V) as [[ip0 ipNet]|].
  - destruct (net_ParseIP subj) as [ip|].
    + split.
      * intros Hc. now exists ip0, ipNet, ip.
      * intros (a & n & i & Ha & Hi & Hc). congruence.
    + split; [discriminate | intros (a & n & i & _ & Hi & _); discriminate].
  - split; [discriminate | intros (a & n & i & Ha & _); discriminate].
Qed.

Lemma matchesRule_by_kind (rule : FilterRule) (clientIP hostname requestPath subj : string) :
  subject rule clientIP hostname requestPath = Some subj ->
  let V := MatchValue rule in
  let m := matchesRule rule clientIP hostname requestPath in
  (MatchType rule = FilterMatchTypeIP /\ m = matchesIP V subj)
  \/ (MatchType rule = FilterMatchTypePath /\ m = matchesPath V subj)
  \/ (MatchType rule = FilterMatchTypeDNS /\ m = matchesDNS V subj).
Proof.
  unfold subject, matchesRule. cbv zeta.
  destruct (String.eqb_spec (MatchType rule) FilterMatchTypeIP) as [Hip|_].
  { intros [= <-]. now left. }
  destruct (String.eqb_spec (MatchType rule) FilterMatchTypePath) as [Hpath|_].
  { intros [= <-]. right. now left. }
  destruct (String.eqb_spec (MatchType rule) FilterMatchTypeDNS) as [Hdns|_].
  { intros [= <-]. right. now right. }
  discriminate.
Qed.

(** C6. A rule with match value [V] is evaluated against the subject
    [subj] selected by its match kind as follows. If [V] contains a slash
    and the kind is the client address, the rule matches exactly when
    [subj] is a valid address inside the block [V]. Else, if [V] contains
    a star: a lone star always matches; a star on both sides of [X]
    matches exactly when [subj] contains [X]; a leading star before [X]
    exactly when [subj] ends with [X]; a trailing star after [X] exactly
    when [subj] begins with [X] (the shapes are told apart in that order,
    so the [X] of a leading star does not end with a star and the [X] of
    a trailing star does not begin with one). Else, if [V] ends with a
    slash and the kind is the path, the rule matches exactly when [subj]
    begins with [V]. Otherwise it matches exactly when [subj] contains
    [V]. *)
Theorem matchesRule_pattern_semantics
    (rule : FilterRule) (clientIP hostname requestPath subj : string) :
  subject rule clientIP hostname requestPath = Some subj ->
  let V := MatchValue rule in
  let kind := MatchType rule in
  let matches := matchesRule rule clientIP hostname requestPath = true in
  (kind = FilterMatchTypeIP -> contains V "/" -> (matches <-> in_cidr V subj))
  /\ (~ (kind = FilterMatchTypeIP /\ contains V "/") -> contains V "*" ->
      (V = "*" -> matches)
      /\ (forall X, V = "*" +:+ X +:+ "*" -> (matches <-> contains subj X))
      /\ (forall X, V = "*" +:+ X -> ~ ends_with X "*" ->
            (matches <-> ends_with subj X))
      /\ (forall X, V = X +:+ "*" -> ~ begins_with X "*" ->
            (matches <-> begins_with subj X)))
  /\ (kind = FilterMatchTypePath -> ~ contains V "*" -> ends_with V "/" ->
      (matches <-> begins_with subj V))
  /\ (~ (kind = FilterMatchTypeIP /\ contains V "/") -> ~ contains V "*" ->
      ~ (kind = FilterMatchTypePath /\ ends_with V "/") ->
      (matches <-> contains subj V)).
Proof.
  intros Hsubj V kind matches.
  pose proof (matchesRule_by_kind _ _ _ _ _ Hsubj) as Hkind.
  cbv zeta in Hkind. fold V in Hkind. fold kind in Hkind.
  assert (Hwild : ~ (kind = FilterMatchTypeIP /\ contains V "/") ->
                  contains V "*" ->
                  matchesRule rule clientIP hostname requestPath
                  = matchesWildcard V subj).
  { intros Hnc Hstar. apply Contains_spec in Hstar.
    destruct Hkind as [[Hk ->] | [[Hk ->] | [Hk ->]]].
    - unfold matchesIP.
      destruct (GoStrings.Contains V "/") eqn:Hs.
      + exfalso. apply Hnc. split; [exact Hk | now apply Contains_spec].
      + now rewrite Hstar.
    - unfold matchesPath. now rewrite Hstar.
    - unfold matchesDNS. now rewrite Hstar. }
  split; [| split; [| split]].
  - intros Hip Hslash. unfold matches.
    destruct Hkind as [[_ ->] | [[Hk _] | [Hk _]]]; [| kinds_clash | kinds_clash].
    now apply matchesIP_cidr.
  - intros Hnc Hstar. unfold matches. rewrite (Hwild Hnc Hstar).
    split; [| split; [| split]].
    + intros ->. apply wildcard_star.
    + intros X ->. rewrite wildcard_infix. apply Contains_spec.
    + intros X -> HX. rewrite wildcard_suffix by assumption. apply HasSuffix_spec.
    + intros X -> HX. rewrite wildcard_prefix by assumption. apply HasPrefix_spec.
  - intros Hpath Hnostar Hslash. unfold matches.
    destruct Hkind as [[Hk _] | [[_ ->] | [Hk _]]]; [kinds_clash | | kinds_clash].
    unfold matchesPath.
    apply Contains_false in Hnostar. apply HasSuffix_spec in Hslash.
    rewrite Hnostar, Hslash. apply HasPrefix_spec.
  - intros Hnc Hnostar Hnp. unfold matches. apply Contains_false in Hnostar.
    destruct Hkind as [[Hk ->] | [[Hk ->] | [Hk ->]]].
    + unfold matchesIP. destruct (GoStrings.Contains V "/") eqn:Hs.
      * exfalso. apply Hnc. split; [exact Hk | now apply Contains_spec].
      * rewrite Hnostar. apply Contains_spec.
    + unfold matchesPath. rewrite Hnostar.
      destruct (GoStrings.HasSuffix V "/") eqn:Hs.
      * exfalso. apply Hnp. split; [exact Hk | now apply HasSuffix_spec].
      * apply Contains_spec.
    + unfold matchesDNS. rewrite Hnostar. apply Contains_spec.
Qed.

End FilterFacts.

Section FilterWitness.
Import models filter IPv4.

Lemma matchesRule_pattern_semantics_witness :
  subject (rule_matching "ip" "10.0.0.0/8") "10.1.2.3" "h" "/" = Some "10.1.2.3"
  /\ (matchesRule (rule_matching "ip" "10.0.0.0/8") "10.1.2.3" "h" "/" = true
      <-> in_cidr "10.0.0.0/8" "10.1.2.3")
  /\ (matchesRule (rule_matching "path" "/api/") "1.2.3.4" "h" "/api/users" = true
      <-> begins_with "/api/users" "/api/").
Proof.
  split; [reflexivity | split].
  - apply (proj1 (matchesRule_pattern_semantics
                    (rule_matching "ip" "10.0.0.0/8") "10.1.2.3" "h" "/"
                    "10.1.2.3" eq_refl)).
    + reflexivity.
    + exists "10.0.0.0", "8". reflexivity.
  - apply (proj1 (proj2 (proj2 (matchesRule_pattern_semantics
                    (rule_matching "path" "/api/") "1.2.3.4" "h" "/api/users"
                    "/api/users" eq_refl)))).
    + reflexivity.
    + intros [l [r Hr]].
      assert (Hc : GoStrings.Contains "/api/" "*" = true).
      { apply Contains_spec. now exists l, r. }
      vm_compute in Hc. discriminate.
    + exists "/api". reflexivity.
Defined.

End FilterWitness.

(** ** The rate limiter. *)
Section RateLimiterFacts.
Import middleware.

Lemma middleware_counts (rl : RateLimiter) (c : Ctx) (now quota period : Z) :
  is_admin_path (ctx_Path c) = false ->
  limits rl (ctx_Hostname c) = Some (quota, period) ->
  RateLimiterMiddleware rl c now
  = countRequest rl (ctx_IP c) (ctx_Hostname c) now quota period.
Proof.
  intros Hpath Hlim. unfold RateLimiterMiddleware, limits in *. rewrite Hpath.
  destruct (dnsConfigMap rl !! ctx_Hostname c) as [config|].
  - destruct (Enabled config); [now inversion Hlim | discriminate].
  - now inversion Hlim.
Qed.

Lemma counter_set (rl : RateLimiter) (ip hostname : string) (limit : IPLimit) :
  counter (set_ipMap rl (<[ip := limit]> (ipMap rl))) ip hostname
  = hostCounts limit !! hostname.
Proof. unfold counter, set_ipMap. cbn. now rewrite lookup_insert_eq. Qed.

(** The decision on an existing counter, under [ipMapLock]. *)
Lemma countRequest_existing_counter
    (rl : RateLimiter) (ip hostname : string) (now quota period : Z)
    (hostCount : HostCount) :
  counter rl ip hostname = Some hostCount ->
  let rl' := fst (countRequest rl ip hostname now quota period) in
  let outcome := snd (countRequest rl ip hostname now quota period) in
  let elapsed := GoTime.Sub now (hc_lastSeen hostCount) in
  let count' := GoInt.incr (hc_count hostCount) in
  (period < elapsed ->
     counter rl' ip hostname = Some {| hc_count := 1; hc_lastSeen := now |}
     /\ outcome = Next)
  /\ (elapsed <= period ->
     counter rl' ip hostname = Some {| hc_count := count'; hc_lastSeen := now |}
     /\ (quota < count' ->
           outcome = StatusJSON http.StatusTooManyRequests rate_limit_message)
     /\ (count' <= quota -> outcome = Next)).
Proof.
  intros Hcounter. cbv zeta.
  unfold counter in Hcounter. unfold countRequest.
  destruct (ipMap rl !! ip) as [limit|]; [| discriminate].
  rewrite Hcounter.
  destruct (Z.ltb_spec period (GoTime.Sub now (hc_lastSeen hostCount))) as [Hlt|Hge].
  - split; [| lia]. intros _. cbn [fst snd]. rewrite counter_set. cbn.
    now rewrite lookup_insert_eq.
  - split; [lia |]. intros _. cbv zeta. cbn [hc_count].
    destruct (Z.ltb_spec quota (GoInt.incr (hc_count hostCount))) as [Hq|Hq];
      cbn [fst snd]; rewrite counter_set; cbn; rewrite lookup_insert_eq;
      (split; [reflexivity | split; [intros ?; (reflexivity || lia)
                                    | intros ?; (reflexivity || lia)]]).
Qed.

(** C2. For a request that is counted, from a client whose
    counter for the host exists: when the time elapsed since the
    counter's [lastSeen] (the instant of the previous counted request of
    that client to that host) exceeds the period, the counter restarts at
    1 with [lastSeen = now] and the request passes; otherwise the count is
    incremented, [lastSeen] becomes [now], and the request is rejected
    with status 429 exactly when the new count exceeds the quota. *)
Theorem existing_counter_decision
    (rl : RateLimiter) (c : Ctx) (now quota period : Z) (hostCount : HostCount) :
  is_admin_path (ctx_Path c) = false ->
  limits rl (ctx_Hostname c) = Some (quota, period) ->
  counter rl (ctx_IP c) (ctx_Hostname c) = Some hostCount ->
  let rl' := fst (RateLimiterMiddleware rl c now) in
  let outcome := snd (RateLimiterMiddleware rl c now) in
  let elapsed := GoTime.Sub now (hc_lastSeen hostCount) in
  let count' := GoInt.incr (hc_count hostCount) in
  (period < elapsed ->
     counter rl' (ctx_IP c) (ctx_Hostname c)
       = Some {| hc_count := 1; hc_lastSeen := now |}
     /\ outcome = Next)
  /\ (elapsed <= period ->
     counter rl' (ctx_IP c) (ctx_Hostname c)
       = Some {| hc_count := count'; hc_lastSeen := now |}
     /\ (quota < count' ->
           outcome = StatusJSON http.StatusTooManyRequests rate_limit_message)
     /\ (count' <= quota -> outcome = Next)).
Proof.
  intros Hpath Hlim Hcounter. cbv zeta.
  rewrite (middleware_counts _ _ _ _ _ Hpath Hlim).
  exact (countRequest_existing_counter rl _ _ now quota period hostCount Hcounter).
Qed.

(** C3. A request to a host whose configuration exists with
    [enabled = false] passes and leaves the limiter as it was. A request
    to a host without any configuration is counted against the default
    quota and interval of the limiter: on an existing counter that was
    last seen within the default interval, it is rejected with status 429
    as soon as the new count exceeds the default quota. *)
Theorem no_enabled_config_decision (rl : RateLimiter) (c : Ctx) (now : Z) :
  is_admin_path (ctx_Path c) = false ->
  (forall config,
      dnsConfigMap rl !! ctx_Hostname c = Some config -> Enabled config = false ->
      RateLimiterMiddleware rl c now = (rl, Next))
  /\ (dnsConfigMap rl !! ctx_Hostname c = None ->
      RateLimiterMiddleware rl c now
      = countRequest rl (ctx_IP c) (ctx_Hostname c) now
                     (defaultMaxRequests rl) (defaultInterval rl)
      /\ (forall hostCount,
            counter rl (ctx_IP c) (ctx_Hostname c) = Some hostCount ->
            GoTime.Sub now (hc_lastSeen hostCount) <= defaultInterval rl ->
            defaultMaxRequests rl < GoInt.incr (hc_count hostCount) ->
            snd (RateLimiterMiddleware rl c now)
            = StatusJSON http.StatusTooManyRequests rate_limit_message)).
Proof.
  intros Hpath. split.
  - intros config Hcfg Hoff. unfold RateLimiterMiddleware.
    now rewrite Hpath, Hcfg, Hoff.
  - intros Hcfg.
    assert (Heq : RateLimiterMiddleware rl c now
                  = countRequest rl (ctx_IP c) (ctx_Hostname c) now
                                 (defaultMaxRequests rl) (defaultInterval rl)).
    { unfold RateLimiterMiddleware. now rewrite Hpath, Hcfg. }
    split; [exact Heq |].
    intros hostCount Hcounter Hrecent Hover. rewrite Heq.
    destruct (countRequest_existing_counter rl _ _ now (defaultMaxRequests rl)
                (defaultInterval rl) hostCount Hcounter) as [_ Hsame].
    destruct (Hsame Hrecent) as (_ & Hreject & _). now apply Hreject.
Qed.

(** C10. The first request of a client (no entry in the IP map), and the
    first request of a known client for a host it has no counter for,
    always pass; when the request is counted, the counter of the client
    for the host is set to 1, whatever the quota, zero included. *)
Theorem first_request_passes (rl : RateLimiter) (c : Ctx) (now : Z) :
  counter rl (ctx_IP c) (ctx_Hostname c) = None ->
  snd (RateLimiterMiddleware rl c now) = Next
  /\ (forall quota period,
        is_admin_path (ctx_Path c) = false ->
        limits rl (ctx_Hostname c) = Some (quota, period) ->
        counter (fst (RateLimiterMiddleware rl c now)) (ctx_IP c) (ctx_Hostname c)
        = Some {| hc_count := 1; hc_lastSeen := now |}).
Proof.
  intros Hnone.
  assert (Hcount : forall quota period,
            snd (countRequest rl (ctx_IP c) (ctx_Hostname c) now quota period) = Next
            /\ counter (fst (countRequest rl (ctx_IP c) (ctx_Hostname c) now quota period))
                       (ctx_IP c) (ctx_Hostname c)
               = Some {| hc_count := 1; hc_lastSeen := now |}).
  { intros quota period. unfold counter in Hnone. unfold countRequest.
    destruct (ipMap rl !! ctx_IP c) as [limit|].
    - rewrite Hnone. cbn [fst snd]. split; [reflexivity |].
      rewrite counter_set. cbn. now rewrite lookup_insert_eq.
    - cbn [fst snd]. split; [reflexivity |].
      rewrite counter_set. cbn. now rewrite lookup_singleton_eq. }
  split.
  - unfold RateLimiterMiddleware.
    destruct (is_admin_path (ctx_Path c)); [reflexivity |].
    destruct (dnsConfigMap rl !! ctx_Hostname c) as [config|].
    + destruct (Enabled config); [apply Hcount | reflexivity].
    + apply Hcount.
  - intros quota period Hpath Hlim.
    rewrite (middleware_counts _ _ _ _ _ Hpath Hlim). apply Hcount.
Qed.

End RateLimiterFacts.

Section RateLimiterExamples.
Import middleware.

(** Quota 2 per 60 s, requests at 0 s, 40 s and 80 s. The window of the
    counter opens at 0 s (count 1) and is still the same at 40 s (count
    2). At 80 s the window is 80 s old, more than the period, yet the
    request is counted in it and rejected: the limiter compares with the
    instant of the previous request (40 s). *)
Lemma window_start_is_not_consulted :
  counter (fst (serve (limiter_with (config_api true 2 60)) [(ping, seconds 0)]))
          "198.51.100.7" "api.test"
  = Some {| hc_count := 1; hc_lastSeen := seconds 0 |}
  /\ counter (fst (serve (limiter_with (config_api true 2 60))
                         [(ping, seconds 0); (ping, seconds 40)]))
             "198.51.100.7" "api.test"
     = Some {| hc_count := 2; hc_lastSeen := seconds 40 |}
  /\ seconds 60 < GoTime.Sub (seconds 80) (seconds 0)
  /\ snd (serve (limiter_with (config_api true 2 60))
                [(ping, seconds 0); (ping, seconds 40); (ping, seconds 80)])
     = [Next; Next; StatusJSON 429 rate_limit_message]
  /\ counter (fst (serve (limiter_with (config_api true 2 60))
                         [(ping, seconds 0); (ping, seconds 40); (ping, seconds 80)]))
             "198.51.100.7" "api.test"
     = Some {| hc_count := 3; hc_lastSeen := seconds 80 |}.
Proof. repeat split; vm_compute; reflexivity. Qed.

(** Without any configuration for the host the default quota applies:
    of 101 requests in the same instant the last one is rejected. *)
Lemma unconfigured_host_is_limited :
  dnsConfigMap limiter_default !! "api.test" = None
  /\ snd (serve limiter_default (repeat (ping, seconds 0) 101))
     = (repeat Next 100 ++ [StatusJSON 429 rate_limit_message])%list.
Proof. split; vm_compute; reflexivity. Qed.

Lemma existing_counter_decision_witness :
  is_admin_path (ctx_Path ping) = false
  /\ limits (fst (serve (limiter_with (config_api true 2 60)) [(ping, seconds 0)]))
            (ctx_Hostname ping) = Some (2, seconds 60)
  /\ counter (fst (serve (limiter_with (config_api true 2 60)) [(ping, seconds 0)]))
             (ctx_IP ping) (ctx_Hostname ping)
     = Some {| hc_count := 1; hc_lastSeen := seconds 0 |}
  /\ snd (RateLimiterMiddleware
            (fst (serve (limiter_with (config_api true 2 60)) [(ping, seconds 0)]))
            ping (seconds 40)) = Next.
Proof.
  assert (H1 : is_admin_path (ctx_Path ping) = false) by reflexivity.
  assert (H2 : limits (fst (serve (limiter_with (config_api true 2 60))
                                  [(ping, seconds 0)]))
                      (ctx_Hostname ping) = Some (2, seconds 60))
    by (vm_compute; reflexivity).
  assert (H3 : counter (fst (serve (limiter_with (config_api true 2 60))
                                   [(ping, seconds 0)]))
                       (ctx_IP ping) (ctx_Hostname ping)
               = Some {| hc_count := 1; hc_lastSeen := seconds 0 |})
    by (vm_compute; reflexivity).
  split; [exact H1 | split; [exact H2 | split; [exact H3 |]]].
  assert (Hle : GoTime.Sub (seconds 40) (seconds 0) <= seconds 60)
    by (vm_compute; discriminate).
  destruct (proj2 (existing_counter_decision _ ping (seconds 40) _ _ _ H1 H2 H3) Hle)
    as (_ & _ & Hpass).
  apply Hpass. vm_compute. discriminate.
Defined.

Lemma no_enabled_config_decision_witness :
  is_admin_path (ctx_Path ping) = false
  /\ RateLimiterMiddleware (limiter_with (config_api false 5 60)) ping (seconds 3)
     = (limiter_with (config_api false 5 60), Next).
Proof.
  assert (H1 : is_admin_path (ctx_Path ping) = false) by reflexivity.
  split; [exact H1 |].
  apply (proj1 (no_enabled_config_decision
                  (limiter_with (config_api false 5 60)) ping (seconds 3) H1)
               (config_api false 5 60)); reflexivity.
Defined.

(** A first request passes even under a quota of 0. *)
Lemma first_request_passes_witness :
  counter (limiter_with (config_api true 0 60)) (ctx_IP ping) (ctx_Hostname ping) = None
  /\ limits (limiter_with (config_api true 0 60)) (ctx_Hostname ping)
     = Some (0, seconds 60)
  /\ snd (RateLimiterMiddleware (limiter_with (config_api true 0 60)) ping (seconds 3))
     = Next.
Proof.
  assert (H1 : counter (limiter_with (config_api true 0 60))
                       (ctx_IP ping) (ctx_Hostname ping) = None)
    by (vm_compute; reflexivity).
  split; [exact H1 | split; [vm_compute; reflexivity |]].
  exact (proj1 (first_request_passes _ ping (seconds 3) H1)).
Defined.

End RateLimiterExamples.

(** ** The routing cache. *)
Section RoutingCacheFacts.
Import models proxy.

(** A refresh replaces the routing table and nothing else. *)
Lemma refreshCache_backendCountMap (db : Database) (st : State) :
  backendCountMap (refreshCache db st) = backendCountMap st.
Proof. unfold refreshCache. now destruct (dns_rules db). Qed.

(** C4. After a refresh of the routing cache the selection count of a
    backend is what it was before: a backend selected five times still
    counts five selections, the counters are not reset. *)
Theorem refresh_keeps_selection_count :
  count_of (backendCountMap state_after_five) "http://u1" = 5
  /\ dnsRuleCache (refreshCache db_api_test state_after_five)
     = {[ "api.test" := [backend_u1] ]}
  /\ count_of (backendCountMap (refreshCache db_api_test state_after_five)) "http://u1"
     = 5.
Proof. repeat split; vm_compute; reflexivity. Qed.

End RoutingCacheFacts.

(** ** The log sink. *)
Section LogSinkFacts.
Import database.

Lemma execEntries_some (fault : Fault) (entries : list LogEntry) :
  forall k pending result,
    execEntries fault k entries pending = Some result ->
    result = (pending ++ entries)%list.
Proof.
  induction entries as [|entry rest IH]; intros k pending result; cbn [execEntries].
  - intros [= <-]. now rewrite app_nil_r.
  - destruct fault; try (intros Hr; apply IH in Hr; rewrite Hr, <- app_assoc; reflexivity).
    destruct (Nat.eqb k0 k); [discriminate |].
    intros Hr; apply IH in Hr; rewrite Hr, <- app_assoc; reflexivity.
Qed.

(** A call of [batchInsert] either fails and leaves the table as it was,
    or appends the whole batch. *)
Lemma batchInsert_all_or_nothing (DB : Handle) (entries : list LogEntry) (fault : Fault) :
  (exists err, batchInsert DB entries fault = (DB, Some err))
  \/ (exists rows, DB = Some rows
                  /\ batchInsert DB entries fault = (Some (rows ++ entries)%list, None)).
Proof.
  unfold batchInsert. destruct DB as [rows|]; [| left; now eexists].
  destruct fault; try (left; now eexists);
    destruct (execEntries _ 0 entries []) as [pending|] eqn:Hexec;
    try (left; now eexists);
    apply execEntries_some in Hexec; cbn [app] in Hexec; subst pending;
    first [ right; exists rows; split; reflexivity | left; now eexists ].
Qed.

Lemma backoff_1 : backoff 1 = retry_delay 1.
Proof. reflexivity. Qed.

Lemma backoff_2 : backoff 2 = retry_delay 2.
Proof. reflexivity. Qed.

(** C8. A flush of a non-empty buffer empties the buffer and tries the
    transactional batch write at most three times, sleeping
    [100 ms * 2^(attempt-1)] before the retries (100 ms, then 200 ms). It
    stops at the first success, which appends the batch to the table
    once. When the three attempts fail, the table is as it was, the batch
    is gone from the buffer and the failure is logged. A flush of an
    empty buffer does nothing. *)
Theorem flush_retry_policy (bl : BufferedLogger) (faults : nat -> Fault) (DB : Handle) :
  let entries := buffer bl in
  let n := length entries in
  let bl' := fst (fst (flush bl faults DB)) in
  let DB' := snd (fst (flush bl faults DB)) in
  let events := snd (flush bl faults DB) in
  (entries = [] /\ bl' = bl /\ DB' = DB /\ events = [])
  \/ (entries <> [] /\ buffer bl' = []
      /\ ((exists rows,
             DB = Some rows /\ DB' = Some (rows ++ entries)%list
             /\ events = [BatchInsert None; LogWrote n])
          \/ (exists rows e1,
             DB = Some rows /\ DB' = Some (rows ++ entries)%list
             /\ events = [BatchInsert (Some e1); LogAttemptFailed 1 e1;
                          Sleep (retry_delay 1); BatchInsert None; LogWrote n])
          \/ (exists rows e1 e2,
             DB = Some rows /\ DB' = Some (rows ++ entries)%list
             /\ events = [BatchInsert (Some e1); LogAttemptFailed 1 e1;
                          Sleep (retry_delay 1);
                          BatchInsert (Some e2); LogAttemptFailed 2 e2;
                          Sleep (retry_delay 2); BatchInsert None; LogWrote n])
          \/ (exists e1 e2 e3,
             DB' = DB
             /\ events = [BatchInsert (Some e1); LogAttemptFailed 1 e1;
                          Sleep (retry_delay 1);
                          BatchInsert (Some e2); LogAttemptFailed 2 e2;
                          Sleep (retry_delay 2);
                          BatchInsert (Some e3); LogAttemptFailed 3 e3;
                          LogGaveUp n 3 e3]))).
Proof.
  cbv zeta. unfold flush.
  destruct (buffer bl) as [|entry rest] eqn:Hbuf.
  { left. repeat split; reflexivity. }
  right. split; [discriminate |].
  unfold writeToDatabase, maxRetries. cbn [writeAttempts].
  set (entries := entry :: rest).
  destruct (batchInsert_all_or_nothing DB entries (faults 0%nat))
    as [[e1 H1] | [rows [-> H1]]]; rewrite H1.
  2:{ split; [reflexivity |]. left. exists rows. repeat split; reflexivity. }
  destruct (batchInsert_all_or_nothing DB entries (faults 1%nat))
    as [[e2 H2] | [rows [-> H2]]]; rewrite H2.
  2:{ split; [reflexivity |]. right. left. exists rows, e1. repeat split; reflexivity. }
  destruct (batchInsert_all_or_nothing DB entries (faults 2%nat))
    as [[e3 H3] | [rows [-> H3]]]; rewrite H3.
  2:{ split; [reflexivity |]. right. right. left. exists rows, e1, e2.
      repeat split; reflexivity. }
  split; [reflexivity |]. right. right. right. exists e1, e2, e3.
  repeat split; reflexivity.
Qed.

End LogSinkFacts.

(** ** The retention sweeper. *)
Section RetentionFacts.
Import main.

Lemma filter_filter {A : Type} (p q : A -> bool) (l : list A) :
  List.filter p (List.filter q l) = List.filter (fun x => q x && p x) l.
Proof.
  induction l as [|x l IH]; [reflexivity |]. cbn [List.filter].
  destruct (q x); cbn [List.filter andb]; [| exact IH].
  destruct (p x); now rewrite IH.
Qed.

Lemma filter_ext_bool {A : Type} (p q : A -> bool) (l : list A) :
  (forall x, p x = q x) -> List.filter p l = List.filter q l.
Proof.
  intros Hpq. induction l as [|x l IH]; [reflexivity |].
  cbn [List.filter]. now rewrite Hpq, IH.
Qed.







(** The loop over the rules keeps the rows that the statement of no rule
    deletes. *)
Lemma pruneRules_swept (env : Env) (now : Z) :
  (forall k, exec_fails env k = false) ->
  (forall k, clock env k = now) ->
  forall rules s,
    request_logs (pruneRules env rules s)
    = List.filter (fun row => negb (existsb (swept_by_rule env now row) rules))
                  (request_logs s).
Proof.
  intros Hexec Hclock rules.
  induction rules as [|rule rules IH]; intros s.
  - cbn. induction (request_logs s) as [|row rows IHr]; [reflexivity |].
    cbn. now rewrite <- IHr.
  - destruct rule as [[host days]|]; cbn [pruneRules].
    + rewrite Hexec, Hclock. unfold delete_where. rewrite IH. cbn [request_logs].
      rewrite filter_filter. apply filter_ext_bool. intros row.
      cbn [existsb swept_by_rule].
      now rewrite negb_orb.
    + rewrite IH. unfold say. cbn [request_logs].
      apply filter_ext_bool. intros row. reflexivity.
Qed.

(** The whole sweep, in terms of the statements it runs. *)
Lemma pruneOldLogs_swept (env : Env) (rules : list (option (string * Z)))
    (now : Z) (rows : list RequestLogRow) :
  dns_rules env = Some rules ->
  (forall k, exec_fails env k = false) ->
  (forall k, clock env k = now) ->
  fst (pruneOldLogs env rows)
  = List.filter
      (fun row => negb (existsb (swept_by_rule env now row) rules
                        || matches_default env (AddDate_days now (- 30)) row))
      rows.
Proof.
  intros Hrules Hexec Hclock. unfold pruneOldLogs. rewrite Hrules.
  cbn [fst]. unfold pruneDefault. rewrite Hexec, Hclock.
  unfold delete_where. cbn [request_logs].
  rewrite (pruneRules_swept env now Hexec Hclock). cbn [request_logs].
  rewrite filter_filter. apply filter_ext_bool. intros row.
  now rewrite negb_orb.
Qed.




(** The rows the sweep of the witness keeps. *)
Example sweep_on_day_100 :
  fst (pruneOldLogs sweep_env
         [row_of 1 (Some "b.test") (day 92); row_of 2 (Some "b.test") (day 94);
          row_of 3 None (day 69); row_of 4 (Some "") (day 71);
          row_of 5 (Some "c.test") (day 1)])
  = [row_of 2 (Some "b.test") (day 94); row_of 4 (Some "") (day 71);
     row_of 5 (Some "c.test") (day 1)].
Proof. vm_compute. reflexivity. Qed.

(** A retention of [2^63 - 1] days wraps the day count of [AddDate]: the
    cutoff is one day after [now], and a row of the host written at [now]
    is deleted. This is why the retentions are bounded in the property
    above. *)
Example wrapped_retention_cutoff :
  AddDate_days (day 100) (- (2 ^ 63 - 1)) = day 101
  /\ ~ within_clock (day 100) (2 ^ 63 - 1)
  /\ fst (pruneOldLogs forever_env [row_of 1 (Some "a.test") (day 100)]) = [].
Proof.
  split; [vm_compute; reflexivity |].
  split; [| vm_compute; reflexivity].
  intros Hclock. vm_compute in Hclock. now apply Hclock.
Qed.

End RetentionFacts.

(** ** binary64: the order of the comparison [>]. *)
Section Float64Order.
Import Float64.

Lemma gt_order_key (x y : spec_float) :
  is_nan x = false -> is_nan y = false ->
  (gt x y = true <-> lex_lt (order_key y) (order_key x)).
Proof.
  unfold gt, SFltb, lex_lt.
  destruct x as [sx|sx| |sx mx ex], y as [sy|sy| |sy my ey];
    try discriminate; intros _ _;
    try destruct sx; try destruct sy; cbn; try (split; [discriminate | lia]);
    try (split; [lia | reflexivity]).
  - destruct (Z.compare_spec ey ex) as [Heq|Hlt|Hgt].
    + change (Pos.compare_cont Eq my mx) with (Pos.compare my mx).
      destruct (Pos.compare_spec my mx); cbn; split; (discriminate || lia || reflexivity).
    + split; (discriminate || lia || reflexivity).
    + split; (discriminate || lia || reflexivity).
  - destruct (Z.compare_spec ey ex) as [Heq|Hlt|Hgt].
    + change (Pos.compare_cont Eq my mx) with (Pos.compare my mx).
      destruct (Pos.compare_spec my mx); cbn; split; (discriminate || lia || reflexivity).
    + split; (discriminate || lia || reflexivity).
    + split; (discriminate || lia || reflexivity).
Qed.

Lemma gt_not_nan (x y : spec_float) :
  gt x y = true -> is_nan x = false /\ is_nan y = false.
Proof.
  unfold gt, SFltb. destruct x, y; cbn; try discriminate; now split.
Qed.

Lemma gt_irrefl (x : spec_float) : gt x x = false.
Proof.
  destruct (gt x x) eqn:Hgt; [| reflexivity].
  destruct (gt_not_nan _ _ Hgt) as [Hx _].
  apply (gt_order_key x x Hx Hx) in Hgt. unfold lex_lt in Hgt. lia.
Qed.

Lemma gt_trans (x y z : spec_float) :
  gt x y = true -> gt y z = true -> gt x z = true.
Proof.
  intros Hxy Hyz.
  destruct (gt_not_nan _ _ Hxy) as [Hx Hy].
  destruct (gt_not_nan _ _ Hyz) as [_ Hz].
  apply (gt_order_key x y Hx Hy) in Hxy. apply (gt_order_key y z Hy Hz) in Hyz.
  apply (gt_order_key x z Hx Hz). unfold lex_lt in *. lia.
Qed.

(** Among numbers, what is not above [m] is below whatever is above [m]. *)
Lemma gt_above_all_below (q m p : spec_float) :
  is_nan q = false ->
  gt q m = false -> gt p m = true -> gt p q = true.
Proof.
  intros Hq Hqm Hpm.
  destruct (gt_not_nan _ _ Hpm) as [Hp Hm].
  apply (gt_order_key p m Hp Hm) in Hpm. apply (gt_order_key p q Hp Hq).
  assert (Hn : ~ lex_lt (order_key m) (order_key q)).
  { intros Hl. apply (gt_order_key q m Hq Hm) in Hl. congruence. }
  unfold lex_lt in *. lia.
Qed.

End Float64Order.

(** ** binary64: conversions of machine integers are finite, and the
    operations of the selector never produce a NaN from them. *)
Section Float64Rounding.
Import Float64.

Lemma digits2_pos_bounds (p : positive) :
  2 ^ (Zpos (digits2_pos p) - 1) <= Zpos p < 2 ^ Zpos (digits2_pos p).
Proof.
  induction p as [p IH|p IH|]; cbn [digits2_pos].
  - rewrite Pos2Z.inj_succ. replace (Z.succ (Zpos (digits2_pos p)) - 1)
      with (Z.succ (Zpos (digits2_pos p) - 1)) by lia.
    rewrite !Z.pow_succ_r by lia. lia.
  - rewrite Pos2Z.inj_succ. replace (Z.succ (Zpos (digits2_pos p)) - 1)
      with (Z.succ (Zpos (digits2_pos p) - 1)) by lia.
    rewrite !Z.pow_succ_r by lia. lia.
  - cbn. lia.
Qed.

Lemma Zdigits2_bounds (m : Z) :
  0 < m -> 1 <= Zdigits2 m /\ 2 ^ (Zdigits2 m - 1) <= m < 2 ^ Zdigits2 m.
Proof.
  destruct m as [|p|p]; try lia. intros _. cbn [Zdigits2].
  split; [lia | apply digits2_pos_bounds].
Qed.

Lemma Zdigits2_le (m B : Z) :
  0 < m <= 2 ^ B -> 0 <= B -> Zdigits2 m <= B + 1.
Proof.
  intros [Hpos Hle] HB.
  destruct (Zdigits2_bounds m Hpos) as [Hd [Hlow _]].
  assert (H : 2 ^ (Zdigits2 m - 1) <= 2 ^ B) by lia.
  apply Z.pow_le_mono_r_iff in H; lia.
Qed.

Lemma dropped_bounds (m e : Z) :
  0 < m -> -1074 <= e ->
  0 <= dropped m e <= Z.max 0 (Zdigits2 m - 53) /\ 2 ^ dropped m e <= m.
Proof.
  intros Hm He. destruct (Zdigits2_bounds m Hm) as [Hd [Hlow _]].
  assert (Hb : 0 <= dropped m e <= Z.max 0 (Zdigits2 m - 53)).
  { unfold dropped, fexp, emin, prec, emax. lia. }
  split; [exact Hb |].
  apply Z.le_trans with (2 ^ (Zdigits2 m - 1)); [| exact Hlow].
  apply Z.pow_le_mono_r; lia.
Qed.

Lemma shr_1_m (r : shr_record) : 0 <= shr_m r -> shr_m (shr_1 r) = shr_m r / 2.
Proof.
  destruct r as [m r s]. cbn [shr_m]. intros Hm. rewrite <- Z.div2_div.
  destruct m as [|[p|p|]|p]; try lia; reflexivity.
Qed.

Lemma iter_shr_1_m (k : positive) :
  forall r, 0 <= shr_m r ->
            shr_m (SpecFloat.iter_pos shr_1 k r) = shr_m r / 2 ^ Zpos k.
Proof.
  induction k as [k IH|k IH|]; intros r Hr; cbn [SpecFloat.iter_pos].
  - assert (H1 : 0 <= shr_m (shr_1 r)) by (rewrite shr_1_m by lia; apply Z.div_pos; lia).
    assert (H2 : 0 <= shr_m (SpecFloat.iter_pos shr_1 k (shr_1 r)))
      by (rewrite IH by lia; apply Z.div_pos; [lia | apply Z.pow_pos_nonneg; lia]).
    rewrite IH, IH, shr_1_m by lia.
    rewrite !Z.div_div by (try apply Z.pow_pos_nonneg; lia).
    f_equal. replace (Zpos k~1) with (Z.succ (Zpos k + Zpos k)) by lia.
    rewrite Z.pow_succ_r, Z.pow_add_r by lia. lia.
  - assert (H2 : 0 <= shr_m (SpecFloat.iter_pos shr_1 k r))
      by (rewrite IH by lia; apply Z.div_pos; [lia | apply Z.pow_pos_nonneg; lia]).
    rewrite IH, IH by lia.
    rewrite !Z.div_div by (try apply Z.pow_pos_nonneg; lia).
    f_equal. replace (Zpos k~0) with (Zpos k + Zpos k) by lia.
    rewrite Z.pow_add_r by lia. lia.
  - now rewrite shr_1_m.
Qed.

Lemma shr_fexp_spec (m e : Z) (l : location) :
  0 <= m ->
  exists r, shr_fexp prec emax m e l = (r, e + dropped m e)
            /\ shr_m r = m / 2 ^ dropped m e.
Proof.
  intros Hm. unfold shr_fexp, shr, dropped.
  assert (Hrec : shr_m (shr_record_of_loc m l) = m) by (now destruct l as [|[]]).
  destruct (fexp prec emax (Zdigits2 m + e) - e) as [|n|n] eqn:Hn.
  - exists (shr_record_of_loc m l). split; [f_equal; lia |].
    rewrite Hrec. replace (Z.max 0 0) with 0 by lia. now rewrite Z.pow_0_r, Z.div_1_r.
  - exists (SpecFloat.iter_pos shr_1 n (shr_record_of_loc m l)). split; [f_equal; lia |].
    rewrite iter_shr_1_m by lia. rewrite Hrec.
    now replace (Z.max 0 (Zpos n)) with (Zpos n) by lia.
  - exists (shr_record_of_loc m l). split; [f_equal; lia |].
    rewrite Hrec. replace (Z.max 0 (Zneg n)) with 0 by lia.
    now rewrite Z.pow_0_r, Z.div_1_r.
Qed.

Lemma round_nearest_even_bounds (m : Z) (l : location) :
  m <= round_nearest_even m l <= m + 1.
Proof. destruct l as [|[]]; cbn; try destruct (Z.even m); lia. Qed.

(** Rounding a non-negative mantissa never gives a NaN. *)
Lemma binary_round_aux_not_nan (sx : bool) (mx ex : Z) (lx : location) :
  0 <= mx -> is_nan (binary_round_aux prec emax sx mx ex lx) = false.
Proof.
  intros Hmx. unfold binary_round_aux.
  destruct (shr_fexp_spec mx ex lx Hmx) as (r1 & -> & Hr1).
  assert (H1 : 0 <= shr_m r1)
    by (rewrite Hr1; apply Z.div_pos; [lia | apply Z.pow_pos_nonneg; unfold dropped; lia]).
  pose proof (round_nearest_even_bounds (shr_m r1) (loc_of_shr_record r1)) as Hround.
  set (m2 := round_nearest_even (shr_m r1) (loc_of_shr_record r1)) in *.
  destruct (shr_fexp_spec m2 (ex + dropped mx ex) loc_Exact) as (r2 & -> & Hr2); [lia |].
  assert (H2 : 0 <= shr_m r2)
    by (rewrite Hr2; apply Z.div_pos; [lia | apply Z.pow_pos_nonneg; unfold dropped; lia]).
  destruct (shr_m r2); [reflexivity | | lia].
  now destruct (_ <=? _).
Qed.

(** Rounding a positive mantissa below [2^64] with an exponent between
    [-1074] and [0] gives a finite, non-zero number. *)
Lemma binary_round_aux_finite (sx : bool) (mx ex : Z) (lx : location) :
  0 < mx < 2 ^ 64 -> -1074 <= ex <= 0 ->
  exists m e, binary_round_aux prec emax sx mx ex lx = S754_finite sx m e.
Proof.
  intros Hmx Hex. unfold binary_round_aux.
  destruct (shr_fexp_spec mx ex lx) as (r1 & -> & Hr1); [lia |].
  destruct (dropped_bounds mx ex) as [Hn1 Hpow1]; [lia | lia |].
  assert (Hd1 : Zdigits2 mx <= 65) by (apply (Zdigits2_le mx 64); lia).
  assert (H1 : 0 < shr_m r1 <= mx).
  { rewrite Hr1. split.
    - apply Z.div_str_pos. split; [apply Z.pow_pos_nonneg; lia | exact Hpow1].
    - apply Z.div_le_upper_bound; [apply Z.pow_pos_nonneg; lia |].
      assert (0 < 2 ^ dropped mx ex) by (apply Z.pow_pos_nonneg; lia). nia. }
  pose proof (round_nearest_even_bounds (shr_m r1) (loc_of_shr_record r1)) as Hround.
  set (m2 := round_nearest_even (shr_m r1) (loc_of_shr_record r1)) in *.
  destruct (shr_fexp_spec m2 (ex + dropped mx ex) loc_Exact) as (r2 & -> & Hr2); [lia |].
  destruct (dropped_bounds m2 (ex + dropped mx ex)) as [Hn2 Hpow2]; [lia | lia |].
  assert (Hd2 : Zdigits2 m2 <= 65) by (apply (Zdigits2_le m2 64); lia).
  assert (H2 : 0 < shr_m r2).
  { rewrite Hr2. apply Z.div_str_pos.
    split; [apply Z.pow_pos_nonneg; lia | exact Hpow2]. }
  destruct (shr_m r2) as [|m3|m3]; try lia.
  destruct (Z.leb_spec (ex + dropped mx ex + dropped m2 (ex + dropped mx ex))
                       (emax - prec)) as [_|Hbig].
  - now eexists _, _.
  - unfold emax, prec in Hbig. lia.
Qed.

Lemma iter_xO (p k : positive) : Zpos (Pos.iter xO p k) = Zpos p * 2 ^ Zpos k.
Proof.
  induction k as [|k IH] using Pos.peano_ind.
  - cbn. lia.
  - rewrite Pos.iter_succ, Pos2Z.inj_xO, IH, Pos2Z.inj_succ, Z.pow_succ_r by lia. lia.
Qed.

Lemma binary_round_finite (s : bool) (p : positive) :
  Zpos p < 2 ^ 64 ->
  exists m e, binary_round prec emax s p 0 = S754_finite s m e.
Proof.
  intros Hp. unfold binary_round, shl_align.
  destruct (Zdigits2_bounds (Zpos p)) as [Hd [Hlow Hhigh]]; [lia |].
  cbn [Zdigits2] in Hd, Hlow, Hhigh.
  assert (Hf : fexp prec emax (Zpos (digits2_pos p) + 0) = Zpos (digits2_pos p) - 53)
    by (unfold fexp, emin, prec, emax; lia).
  rewrite Hf.
  destruct (Zpos (digits2_pos p) - 53 - 0) as [|k|k] eqn:Hk.
  - apply binary_round_aux_finite; lia.
  - apply binary_round_aux_finite; lia.
  - apply binary_round_aux_finite; [| lia].
    rewrite iter_xO. split; [apply Z.mul_pos_pos; [lia | apply Z.pow_pos_nonneg; lia] |].
    apply Z.lt_trans with (2 ^ 53); [| reflexivity].
    replace 53 with (Zpos (digits2_pos p) + Zpos k) by lia.
    rewrite Z.pow_add_r by lia.
    apply Z.mul_lt_mono_pos_r; [apply Z.pow_pos_nonneg; lia | exact Hhigh].
Qed.

(** [float64(n)] of a machine integer is zero or finite. *)
Lemma of_int_cases (n : Z) :
  GoInt.in_range n ->
  (n = 0 /\ of_int n = S754_zero false)
  \/ (n <> 0 /\ exists s m e, of_int n = S754_finite s m e).
Proof.
  unfold GoInt.in_range, GoInt.min_int, GoInt.max_int. intros Hn.
  destruct n as [|p|p].
  - left. now split.
  - right. split; [discriminate |]. exists false.
    apply (binary_round_finite false p). lia.
  - right. split; [discriminate |]. exists true.
    apply (binary_round_finite true p). lia.
Qed.

End Float64Rounding.

(** ** The backend selector. *)
Section SelectorFacts.
Import models proxy Float64.
Import QArith_base(Q, Qeq, Qlt, Qminus, Qdiv, inject_Z).

Lemma of_int_is_number (n : Z) : GoInt.in_range n -> is_number (of_int n).
Proof.
  intros Hn. destruct (of_int_cases n Hn) as [[_ ->] | [_ (s & m & e & ->)]]; exact I.
Qed.

Lemma binary_round_not_nan (s : bool) (m : positive) (e : Z) :
  is_nan (binary_round prec emax s m e) = false.
Proof.
  unfold binary_round. destruct (shl_align _ _ _) as [mz ez].
  apply binary_round_aux_not_nan. lia.
Qed.

Lemma binary_normalize_not_nan (m e : Z) (szero : bool) :
  is_nan (binary_normalize prec emax m e szero) = false.
Proof.
  destruct m; cbn [binary_normalize]; [reflexivity | |]; apply binary_round_not_nan.
Qed.

Lemma div_not_nan (x y : spec_float) :
  is_number x -> (exists s m e, y = S754_finite s m e) -> is_nan (div x y) = false.
Proof.
  intros Hx (sy & my & ey & ->).
  destruct x as [sx|sx| |sx mx ex]; try contradiction; [reflexivity |].
  unfold div, SFdiv, SFdiv_core_binary.
  set (m' := match _ - _ - _ with Zpos _ => _ | Z0 => _ | Zneg _ => _ end).
  assert (Hm' : 0 <= m').
  { subst m'. destruct (_ - _ - _); [lia | | lia]. apply Z.shiftl_nonneg. lia. }
  pose proof (Z_div_mod m' (Zpos my) eq_refl) as Hdiv.
  destruct (Z.div_eucl m' (Zpos my)) as [q r].
  apply binary_round_aux_not_nan. nia.
Qed.

Lemma sub_not_nan (x y : spec_float) :
  is_nan x = false -> is_number y -> is_nan (sub x y) = false.
Proof.
  intros Hx Hy.
  destruct x as [sx|sx| |sx mx ex]; try discriminate;
    destruct y as [sy|sy| |sy my ey]; try contradiction;
    try reflexivity.
  - now destruct sx, sy.
  - unfold sub, SFsub. apply binary_normalize_not_nan.
Qed.

(** The priority of a candidate is a number: not a NaN. *)
Lemma priority_not_nan (minWeight : Z) (counts : gmap string Z) (b : Backend) :
  GoInt.in_range minWeight -> minWeight <> 0 ->
  GoInt.in_range (Weight b) ->
  GoInt.in_range (count_of counts (URL b)) ->
  is_nan (priority minWeight counts b) = false.
Proof.
  intros Hmin Hnz Hw Hc. unfold priority, ratio.
  apply sub_not_nan; [| now apply of_int_is_number].
  apply div_not_nan; [now apply of_int_is_number |].
  destruct (of_int_cases minWeight Hmin) as [[H0 _] | [_ Hfin]]; [contradiction | exact Hfin].
Qed.

(** *** The selection loop on the list of priorities. *)

Lemma selectLoop_first_max (minWeight : Z) (counts : gmap string Z) :
  forall backends i s m,
    selectLoop minWeight counts i backends (Some s) m
    = (map (fun b => set_Ratio b (ratio minWeight b)) backends,
       Some (first_max_from i (map (priority minWeight counts) backends) s m)).
Proof.
  induction backends as [|b rest IH]; intros i s m; cbn [selectLoop map first_max_from].
  - reflexivity.
  - destruct (gt (priority minWeight counts b) m); now rewrite IH.
Qed.

Lemma selectLoop_start (minWeight : Z) (counts : gmap string Z)
    (first : Backend) (rest : list Backend) :
  selectLoop minWeight counts 0 (first :: rest) None zero
  = (map (fun b => set_Ratio b (ratio minWeight b)) (first :: rest),
     Some (first_max_from 1 (map (priority minWeight counts) rest) 0
                          (priority minWeight counts first))).
Proof. cbn [selectLoop]. now rewrite selectLoop_first_max. Qed.

Lemma first_max_from_spec (ps : list spec_float) :
  forall (seen : list spec_float) (s : nat) (m : spec_float),
    Forall (fun p => is_nan p = false) (seen ++ ps)%list ->
    nth_error seen s = Some m ->
    (forall j q, nth_error seen j = Some q -> gt q m = false) ->
    (forall j q, (j < s)%nat -> nth_error seen j = Some q -> gt m q = true) ->
    first_maximum (seen ++ ps)%list (first_max_from (length seen) ps s m).
Proof.
  induction ps as [|p ps IH]; intros seen s m Hnum Hs Hall Hearlier;
    cbn [first_max_from].
  - rewrite app_nil_r. exists m. split; [exact Hs | split; assumption].
  - assert (Hseen : (seen ++ p :: ps = (seen ++ [p]) ++ ps)%list)
      by (now rewrite <- app_assoc).
    assert (Hlen : S (length seen) = length (seen ++ [p])%list)
      by (rewrite length_app; cbn; lia).
    assert (Hp : nth_error (seen ++ [p])%list (length seen) = Some p).
    { rewrite nth_error_app2 by lia. now rewrite Nat.sub_diag. }
    assert (Hs_lt : (s < length seen)%nat).
    { apply nth_error_Some. congruence. }
    assert (Hold : forall j q, nth_error (seen ++ [p])%list j = Some q ->
                               nth_error seen j = Some q \/ (j = length seen /\ q = p)).
    { intros j q Hj. destruct (Nat.lt_ge_cases j (length seen)) as [Hlt|Hge].
      - left. now rewrite nth_error_app1 in Hj.
      - right. rewrite nth_error_app2 in Hj by lia.
        destruct (j - length seen)%nat as [|k] eqn:Hk; cbn in Hj.
        + split; [lia | congruence].
        + now destruct k. }
    assert (Hq_num : forall j q, nth_error seen j = Some q -> is_nan q = false).
    { intros j q Hj. rewrite List.Forall_forall in Hnum. apply Hnum.
      apply in_or_app. left. now apply nth_error_In with j. }
    rewrite Hseen in Hnum |- *. rewrite Hlen.
    destruct (gt p m) eqn:Hgt.
    + apply IH; [exact Hnum | exact Hp | |].
      * intros j q Hj. destruct (Hold j q Hj) as [Hin | [_ ->]].
        -- destruct (gt q p) eqn:Hqp; [| reflexivity].
           pose proof (Hall j q Hin) as Hqm.
           rewrite (gt_trans q p m Hqp Hgt) in Hqm. discriminate.
        -- apply gt_irrefl.
      * intros j q Hlt Hj. destruct (Hold j q Hj) as [Hin | [-> _]]; [| lia].
        apply (gt_above_all_below q m p);
          [now apply (Hq_num j) | now apply (Hall j) | exact Hgt].
    + apply IH; [exact Hnum | now rewrite nth_error_app1 | |].
      * intros j q Hj. destruct (Hold j q Hj) as [Hin | [_ ->]];
          [now apply (Hall j) | exact Hgt].
      * intros j q Hlt Hj. destruct (Hold j q Hj) as [Hin | [-> _]]; [| lia].
        now apply (Hearlier j).
Qed.

Lemma first_max_from_bound (ps : list spec_float) :
  forall i s m, (s < i)%nat -> (first_max_from i ps s m < i + length ps)%nat.
Proof.
  induction ps as [|p ps IH]; intros i s m Hs; cbn [first_max_from length].
  - lia.
  - destruct (gt p m).
    + specialize (IH (S i) i p). lia.
    + specialize (IH (S i) s m). lia.
Qed.

(** On a non-empty list the selector returns an element of the list,
    with a ratio stored in it. *)
Lemma selectBackend_returns_member (backends : list Backend) (counts : gmap string Z) :
  backends <> [] ->
  exists i original r backends' counts',
    nth_error backends i = Some original
    /\ selectBackend backends counts = Some (backends', counts', i)
    /\ nth_error backends' i = Some (set_Ratio original r).
Proof.
  intros Hne. destruct backends as [|first [|second rest]]; [contradiction | |].
  - exists 0%nat, first, (Ratio first), [first], (increment counts (URL first)).
    repeat split. now destruct first.
  - unfold selectBackend. cbv zeta. rewrite selectLoop_start.
    set (minWeight := findMinWeight _ _).
    set (i := first_max_from _ _ _ _).
    set (backends := first :: second :: rest).
    assert (Hi : (i < length backends)%nat).
    { subst i backends.
      pose proof (first_max_from_bound
                    (map (priority minWeight counts) (second :: rest)) 1 0
                    (priority minWeight counts first)) as Hb.
      rewrite length_map in Hb. cbn [length] in *. lia. }
    destruct (nth_error backends i) as [original|] eqn:Horiginal;
      [| apply nth_error_None in Horiginal; lia].
    rewrite nth_error_map, Horiginal. cbn [option_map].
    exists i, original, (ratio minWeight original). eexists _, _.
    split; [exact Horiginal | split; [reflexivity |]].
    fold backends. now rewrite nth_error_map, Horiginal.
Qed.

(** *** The minimum weight. *)

Lemma findMinWeight_spec (backends : list Backend) :
  forall first,
    let w := findMinWeight first backends in
    w <= first
    /\ List.Forall (fun b => w <= Weight b) backends
    /\ (w = first \/ exists b, In b backends /\ Weight b = w).
Proof.
  induction backends as [|b rest IH]; intros first; cbn [findMinWeight fold_left].
  - repeat split; [lia | constructor | now left].
  - fold (findMinWeight (if Weight b <? first then Weight b else first) rest).
    destruct (IH (if Weight b <? first then Weight b else first)) as (Hle & Hall & Hin).
    destruct (Z.ltb_spec (Weight b) first) as [Hlt|Hge].
    + repeat split; [lia | constructor; [lia | exact Hall] |].
      right. destruct Hin as [-> | (b' & Hb' & Hw)].
      * exists b. split; [now left | reflexivity].
      * exists b'. split; [now right | exact Hw].
    + repeat split; [lia | constructor; [lia | exact Hall] |].
      destruct Hin as [-> | (b' & Hb' & Hw)]; [now left |].
      right. exists b'. split; [now right | exact Hw].
Qed.

Lemma findMinWeight_minimum (first : Backend) (rest : list Backend) :
  minimum_weight (first :: rest) (findMinWeight (Weight first) (first :: rest)).
Proof.
  destruct (findMinWeight_spec (first :: rest) (Weight first)) as (Hle & Hall & Hin).
  split; [| exact Hall].
  destruct Hin as [Heq | Hex]; [| exact Hex].
  exists first. split; [now left | now symmetry].
Qed.

Lemma increment_same (counts : gmap string Z) (url : string) :
  count_of (increment counts url) url = GoInt.incr (count_of counts url).
Proof. unfold increment, count_of at 1. now rewrite lookup_insert_eq. Qed.

Lemma increment_other (counts : gmap string Z) (url other : string) :
  other <> url -> increment counts url !! other = counts !! other.
Proof. intros Hne. unfold increment. now rewrite lookup_insert_ne. Qed.

(** *** Weights of zero. *)

Lemma ratio_by_zero (b : Backend) :
  0 <= Weight b <= GoInt.max_int -> unbeatable (ratio 0 b).
Proof.
  intros Hw. unfold ratio, unbeatable.
  destruct (Weight b) as [|p|p] eqn:Hweight; [now left | | lia].
  right. unfold of_int at 1. cbn [binary_normalize].
  destruct (binary_round_finite false p) as (m & e & ->).
  { unfold GoInt.max_int in Hw. lia. }
  reflexivity.
Qed.

Lemma priority_by_zero (counts : gmap string Z) (b : Backend) :
  0 <= Weight b <= GoInt.max_int ->
  GoInt.in_range (count_of counts (URL b)) ->
  unbeatable (priority 0 counts b).
Proof.
  intros Hw Hc. unfold priority.
  pose proof (of_int_is_number _ Hc) as Hnum.
  destruct (ratio_by_zero b Hw) as [-> | ->]; [now left |].
  right. destruct (of_int (count_of counts (URL b))); try contradiction; reflexivity.
Qed.

Lemma first_max_from_unbeatable (ps : list spec_float) :
  forall i s m,
    unbeatable m -> List.Forall unbeatable ps -> first_max_from i ps s m = s.
Proof.
  induction ps as [|p ps IH]; intros i s m Hm Hps; cbn [first_max_from];
    [reflexivity |].
  inversion Hps as [|p' ps' Hp Hrest]; subst.
  assert (Hgt : gt p m = false).
  { destruct Hm as [-> | ->]; destruct Hp as [-> | ->]; reflexivity. }
  rewrite Hgt. now apply IH.
Qed.

Lemma count_in_range (counts : gmap string Z) :
  (forall url n, counts !! url = Some n -> GoInt.in_range n) ->
  forall url, GoInt.in_range (count_of counts url).
Proof.
  intros Hcounts url. unfold count_of.
  destruct (counts !! url) as [n|] eqn:Hn; cbn.
  - now apply (Hcounts url).
  - unfold GoInt.in_range, GoInt.min_int, GoInt.max_int. lia.
Qed.

(** The priority the loop computes is the priority of the specification,
    evaluated in binary64. *)
Lemma priority_rounded (w_min : Z) (counts : gmap string Z) (b : Backend) :
  priority w_min counts b
  = rounded_priority w_min (selected_count counts b) (Weight b).
Proof. reflexivity. Qed.

Lemma incr_next_count (n : Z) : GoInt.in_range n -> GoInt.incr n = next_count n.
Proof.
  unfold GoInt.in_range, GoInt.min_int, GoInt.max_int, next_count. intros Hn.
  destruct (Z.eqb_spec n (2 ^ 63 - 1)) as [-> | Hne]; [reflexivity |].
  unfold GoInt.incr, GoInt.wrap. rewrite Z.mod_small; lia.
Qed.

Lemma increment_next_count (counts : gmap string Z) (b : Backend) :
  (forall url n, counts !! url = Some n -> GoInt.in_range n) ->
  increment counts (URL b) !! URL b = Some (next_count (selected_count counts b))
  /\ (forall url, url <> URL b -> increment counts (URL b) !! url = counts !! url).
Proof.
  intros Hcounts. split.
  - unfold increment. rewrite lookup_insert_eq. f_equal.
    apply incr_next_count. now apply count_in_range.
  - intros url Hurl. now apply increment_other.
Qed.

(** C5. For a non-empty list of candidates whose weights are machine
    integers, and counters that are machine integers, the selector
    returns a candidate of the list, stores a ratio in it, increments
    the counter of that candidate's URL by one (the greatest [int]
    wraps) and leaves the other counters alone. A list with a single
    element yields that element. With [w_min] the minimum weight in the
    list, the candidate is chosen as follows. When [w_min] is not zero,
    the priorities [weight / w_min - selected_count], evaluated in
    binary64, are numbers, and the selector returns the first candidate
    whose binary64 priority is the greatest: no candidate has a greater
    one, and every candidate at an earlier position has a smaller one.
    When [w_min] is zero, the selector returns the first candidate of
    the list. *)
Theorem selectBackend_weighted_choice
    (backends : list Backend) (counts : gmap string Z) :
  (forall only, backends = [only] ->
     exists counts', selectBackend backends counts = Some ([only], counts', 0%nat))
  /\ (backends <> [] ->
      List.Forall (fun b => GoInt.in_range (Weight b)) backends ->
      (forall url n, counts !! url = Some n -> GoInt.in_range n) ->
      exists (w_min : Z) (i : nat) (selected : Backend)
             (backends' : list Backend) (counts' : gmap string Z),
        minimum_weight backends w_min
        /\ selectBackend backends counts = Some (backends', counts', i)
        /\ nth_error backends i = Some selected
        /\ (exists r, nth_error backends' i = Some (set_Ratio selected r))
        /\ counts' !! URL selected = Some (next_count (selected_count counts selected))
        /\ (forall url, url <> URL selected -> counts' !! url = counts !! url)
        /\ (w_min <> 0 ->
            let rounded b :=
              rounded_priority w_min (selected_count counts b) (Weight b) in
            (forall b, In b backends -> is_nan (rounded b) = false)
            /\ (forall j b, nth_error backends j = Some b ->
                  gt (rounded b) (rounded selected) = false)
            /\ (forall j b, (j < i)%nat -> nth_error backends j = Some b ->
                  gt (rounded selected) (rounded b) = true))
        /\ (w_min = 0 -> i = 0%nat)).
Proof.
  split; [intros only ->; eexists; reflexivity |].
  intros Hne Hweights Hcounts.
  destruct backends as [|first rest]; [contradiction |].
  set (w_min := findMinWeight (Weight first) (first :: rest)).
  pose proof (findMinWeight_minimum first rest) as Hmin. fold w_min in Hmin.
  destruct rest as [|second rest].
  { (* a single backend *)
    destruct (increment_next_count counts first Hcounts) as [Hsame Hother].
    exists w_min, 0%nat, first, [first], (increment counts (URL first)).
    cbn [selectBackend nth_error].
    split; [exact Hmin |]. split; [reflexivity |]. split; [reflexivity |].
    split; [exists (Ratio first); now destruct first |].
    split; [exact Hsame |]. split; [exact Hother |].
    split; [| reflexivity].
    intros Hnz. cbv zeta.
    assert (Hw : GoInt.in_range w_min /\ w_min <> 0).
    { split; [| exact Hnz]. destruct Hmin as [(b & Hb & <-) _].
      rewrite List.Forall_forall in Hweights. now apply Hweights. }
    split; [| split].
    - intros b [<- | []]. rewrite <- priority_rounded.
      apply priority_not_nan; try tauto.
      + rewrite List.Forall_forall in Hweights. apply Hweights. now left.
      + now apply count_in_range.
    - intros j b Hj. destruct j as [|[|j]]; cbn in Hj; try discriminate.
      injection Hj as <-. apply gt_irrefl.
    - intros j b Hlt; lia. }
  set (backends := first :: second :: rest) in *.
  set (store := fun b => set_Ratio b (ratio w_min b)).
  set (prio := priority w_min counts).
  set (i := first_max_from 1 (map prio (second :: rest)) 0 (prio first)).
  assert (Hloop : selectLoop w_min counts 0 backends None zero
                  = (map store backends, Some i)).
  { unfold backends. now rewrite selectLoop_start. }
  assert (Hcall : forall selected,
             nth_error backends i = Some selected ->
             selectBackend backends counts
             = Some (map store backends, increment counts (URL selected), i)).
  { intros selected Hsel.
    unfold selectBackend, backends. fold backends. fold w_min. cbv zeta.
    rewrite Hloop, nth_error_map, Hsel. reflexivity. }
  destruct (Z.eq_dec w_min 0) as [Hzero | Hnz].
  - (* the minimum weight is zero *)
    assert (Hprio : List.Forall unbeatable (map prio backends)).
    { apply List.Forall_map. destruct Hmin as [_ Hall].
      rewrite List.Forall_forall in Hweights, Hall |- *.
      intros b Hb. specialize (Hweights b Hb). specialize (Hall b Hb).
      unfold prio. rewrite Hzero. apply priority_by_zero.
      - unfold GoInt.in_range in Hweights. lia.
      - now apply count_in_range. }
    assert (Hi : i = 0%nat).
    { inversion Hprio as [|p ps Hfirst Hrest]; subst p ps.
      unfold i. now apply first_max_from_unbeatable. }
    destruct (increment_next_count counts first Hcounts) as [Hsame Hother].
    exists w_min, i, first, (map store backends), (increment counts (URL first)).
    split; [exact Hmin |].
    split; [apply Hcall; now rewrite Hi |].
    split; [now rewrite Hi |].
    split; [exists (ratio w_min first); now rewrite Hi |].
    split; [exact Hsame |]. split; [exact Hother |].
    split; [intros Hnz; contradiction | intros _; exact Hi].
  - (* the minimum weight is not zero *)
    assert (Hrange : GoInt.in_range w_min).
    { destruct Hmin as [(b & Hb & <-) _].
      rewrite List.Forall_forall in Hweights. now apply Hweights. }
    assert (Hnum : List.Forall (fun p => is_nan p = false) (map prio backends)).
    { apply List.Forall_map. rewrite List.Forall_forall in Hweights |- *.
      intros b Hb. apply priority_not_nan; try assumption.
      - now apply Hweights.
      - now apply count_in_range. }
    assert (Hmax : first_maximum (map prio backends) i).
    { apply (first_max_from_spec (map prio (second :: rest)) [prio first] 0%nat
               (prio first) Hnum eq_refl).
      - intros j q Hj. destruct j as [|[|j]]; cbn in Hj; try discriminate.
        injection Hj as <-. apply gt_irrefl.
      - intros j q Hlt. lia. }
    destruct Hmax as (m & Hi & Hall & Hearlier).
    rewrite nth_error_map in Hi.
    destruct (nth_error backends i) as [selected|] eqn:Hsel; [| discriminate].
    injection Hi as <-. specialize (Hcall selected eq_refl).
    destruct (increment_next_count counts selected Hcounts) as [Hsame Hother].
    exists w_min, i, selected, (map store backends),
           (increment counts (URL selected)).
    split; [exact Hmin |]. split; [exact Hcall |]. split; [exact Hsel |].
    split; [exists (ratio w_min selected); now rewrite nth_error_map, Hsel |].
    split; [exact Hsame |]. split; [exact Hother |].
    split; [| intros Hzero; contradiction].
    intros _. cbv zeta. split; [| split].
    + intros b Hb. rewrite <- priority_rounded.
      rewrite List.Forall_forall in Hnum. apply Hnum.
      apply in_map_iff. now exists b.
    + intros j b Hj. rewrite <- !priority_rounded.
      apply (Hall j). now rewrite nth_error_map, Hj.
    + intros j b Hlt Hj. rewrite <- !priority_rounded.
      apply (Hearlier j); [exact Hlt |]. now rewrite nth_error_map, Hj.
Qed.

End SelectorFacts.

Section SelectorExamples.
Import models proxy Float64.
Import QArith_base(Q, Qeq, Qlt, Qminus, Qdiv, inject_Z).

Example first_selections :
  choices 6 one_and_three ∅
  = ["http://u2"; "http://u2"; "http://u1"; "http://u2"; "http://u1"; "http://u2"].
Proof. vm_compute. reflexivity. Qed.

Example single_backend_selected :
  choice [backend_of 1 "http://u1" 5] {[ "http://u1" := 41 ]}
  = Some ("http://u1", {[ "http://u1" := 42 ]}).
Proof. vm_compute. reflexivity. Qed.

(** Priorities are binary64 numbers. With weights 3, 4 and 7 and counts
    1, 1 and 2 they are [3/3 - 1], [4/3 - 1] and [7/3 - 2]; the last two
    are different binary64 numbers, the third being the greater, and the
    third candidate is selected. *)
Example priorities_are_rounded :
  gt (priority 3 {[ "http://c" := 2; "http://b" := 1 ]} (backend_of 3 "http://c" 7))
     (priority 3 {[ "http://c" := 2; "http://b" := 1 ]} (backend_of 2 "http://b" 4))
  = true
  /\ choice [backend_of 1 "http://a" 3; backend_of 2 "http://b" 4; backend_of 3 "http://c" 7]
            {[ "http://a" := 1; "http://b" := 1; "http://c" := 2 ]}
     = Some ("http://c", {[ "http://a" := 1; "http://b" := 1; "http://c" := 3 ]}).
Proof. split; vm_compute; reflexivity. Qed.

(** With weights 3, 4 and 7 and the third backend selected once, the
    priorities are [3/3 - 0 = 1], [4/3 - 0 = 4/3] and [7/3 - 1 = 4/3]:
    the second and the third candidate tie for the maximum, and the
    earlier of them is the second. The selector returns the third: in
    binary64 [4/3] is rounded down and [7/3] is rounded up, so that the
    priority it computes for the third candidate is the greater. *)
Lemma exact_tie_goes_to_later_candidate :
  minimum_weight three_four_seven 3
  /\ Qlt (exact_priority 3 0 3) (exact_priority 3 0 4)
  /\ Qeq (exact_priority 3 0 4) (exact_priority 3 1 7)
  /\ gt (rounded_priority 3 1 7) (rounded_priority 3 0 4) = true
  /\ exists backends',
       selectBackend three_four_seven third_selected_once
       = Some (backends', <["http://c" := 2]> third_selected_once, 2%nat).
Proof.
  split.
  { split; [exists (backend_of 1 "http://a" 3); split; [now left | reflexivity] |].
    repeat constructor; cbn; lia. }
  split; [reflexivity |]. split; [reflexivity |].
  split; [vm_compute; reflexivity |].
  eexists. vm_compute. reflexivity.
Qed.

Lemma selectBackend_weighted_choice_witness :
  (three_four_seven <> []
   /\ List.Forall (fun b => GoInt.in_range (Weight b)) three_four_seven
   /\ (forall url n, third_selected_once !! url = Some n -> GoInt.in_range n))
  /\ exists (w_min : Z) (i : nat) (selected : Backend)
            (backends' : list Backend) (counts' : gmap string Z),
       minimum_weight three_four_seven w_min
       /\ selectBackend three_four_seven third_selected_once
          = Some (backends', counts', i)
       /\ nth_error three_four_seven i = Some selected
       /\ (exists r, nth_error backends' i = Some (set_Ratio selected r))
       /\ counts' !! URL selected
          = Some (next_count (selected_count third_selected_once selected))
       /\ (forall url, url <> URL selected ->
             counts' !! url = third_selected_once !! url)
       /\ (w_min <> 0 ->
           let rounded b :=
             rounded_priority w_min (selected_count third_selected_once b)
                              (Weight b) in
           (forall b, In b three_four_seven -> is_nan (rounded b) = false)
           /\ (forall j b, nth_error three_four_seven j = Some b ->
                 gt (rounded b) (rounded selected) = false)
           /\ (forall j b, (j < i)%nat -> nth_error three_four_seven j = Some b ->
                 gt (rounded selected) (rounded b) = true))
       /\ (w_min = 0 -> i = 0%nat).
Proof.
  assert (H1 : three_four_seven <> []) by discriminate.
  assert (H2 : List.Forall (fun b => GoInt.in_range (Weight b)) three_four_seven).
  { repeat constructor; cbn; unfold GoInt.min_int, GoInt.max_int; lia. }
  assert (H3 : forall url n,
             third_selected_once !! url = Some n -> GoInt.in_range n).
  { intros url n Hn. unfold third_selected_once in Hn.
    destruct (decide (url = "http://c")) as [-> | Hne].
    - rewrite lookup_singleton_eq in Hn. injection Hn as <-.
      unfold GoInt.in_range, GoInt.min_int, GoInt.max_int. lia.
    - rewrite lookup_singleton_ne in Hn by congruence. discriminate. }
  split; [split; [exact H1 | split; [exact H2 | exact H3]] |].
  exact (proj2 (selectBackend_weighted_choice three_four_seven third_selected_once)
           H1 H2 H3).
Defined.

End SelectorExamples.

(** ** The request pipeline. *)
Section PipelineFacts.
Import models filter proxy.
Context `{GoStdlib}.

(** X25. The filter engine decides by the first rule of the cache that
    matches the request: it reports the request as filtered by that
    rule, with the status, body and redirect URL of that rule's action,
    and starts exactly one filter-log write, for that rule; later rules
    that match too are not consulted. *)
Theorem FilterRequest_first_rule_decides
    (cache : list FilterRule) (r : http.Request) (rule : FilterRule) :
  first_match cache r rule ->
  FilterRequest cache r =
    ({| Filtered := true; Rule := rule;
        ResultStatusCode := getStatusCodeForAction rule;
        Response := getResponseForAction rule;
        RedirectURL := getRedirectURLForAction rule |},
     [ {| fl_clientIP := getClientIP r; fl_hostname := http.Host r;
          fl_requestPath := http.URL_Path r;
          fl_userAgent := http.Header_Get r "User-Agent";
          fl_rule := rule |} ]).
Proof.
  intros (earlier & later & -> & Hearlier & Hrule).
  unfold FilterRequest. cbv zeta.
  induction Hearlier as [|q earlier Hq _ IH]; cbn [app FilterRequest_rules].
  - now rewrite Hrule.
  - rewrite Hq. exact IH.
Qed.

(** C9. When the routing cache has no backends for the
    host of the request, the handler answers 410 Gone with the message
    [No backends found for this hostname <host>] and does nothing else:
    the state is unchanged, nothing is forwarded and no request-log entry
    is emitted. *)
Theorem no_backends_gone
    (st : State) (r : http.Request) (upstream : Upstream) (latencyMS : Z) :
  dnsRuleCache st !! http.Host r = None \/ dnsRuleCache st !! http.Host r = Some [] ->
  proxyHandler st r upstream latencyMS =
    (st, [http_Error ("No backends found for this hostname " +:+ http.Host r)
                     http.StatusGone]).
Proof.
  intros [Hnone | Hempty]; unfold proxyHandler; cbv zeta.
  - now rewrite Hnone.
  - now rewrite Hempty.
Qed.

End PipelineFacts.

Section PipelineExamples.
Import models filter proxy IPv4.

(** C1. The handler of the proxy listener never evaluates the filter
    engine. With a rule in the filter cache that matches every path, the
    engine reports the request to [api.test/ping] as filtered; the
    handler all the same looks up the route, forwards the request to the
    selected backend and logs it as an ordinary proxied request: no
    response is written from the rule's action and no filter-log write
    is started. *)
Theorem filter_match_is_forwarded :
  Filtered (fst (FilterRequest [block_all] (request_to "api.test" "/ping"))) = true
  /\ proxyHandler state_api_test (request_to "api.test" "/ping") (Responds 200) 12
     = ({| dnsRuleCache := {[ "api.test" := [backend_u1] ]};
           backendCountMap := {[ "http://u1" := 1 ]} |},
        [ServeHTTP "u1" backend_u1;
         Go_logRequest "192.0.2.5:40000" "api.test" "/ping" 7 12 200 true]).
Proof. split; vm_compute; reflexivity. Qed.

(** For a host without backends the handler emits no request-log entry. *)
Lemma unknown_host_not_logged :
  dnsRuleCache state_api_test !! "nope.test" = None
  /\ ~ (exists clientIP hostname requestPath latencyMS statusCode,
          In (Go_logRequest clientIP hostname requestPath 0 latencyMS statusCode false)
             (snd (proxyHandler state_api_test (request_to "nope.test" "/x")
                                (Responds 200) 0))).
Proof.
  split; [vm_compute; reflexivity |].
  intros (c & h & p & l & s & Hin). vm_compute in Hin.
  destruct Hin as [Hin | []]. discriminate.
Qed.

Lemma FilterRequest_first_rule_decides_witness :
  first_match [block_all; rule_matching "path" "/ping"]
              (request_to "api.test" "/ping") block_all
  /\ ResultStatusCode
       (fst (FilterRequest [block_all; rule_matching "path" "/ping"]
                           (request_to "api.test" "/ping")))
     = 400.
Proof.
  assert (Hfirst : first_match [block_all; rule_matching "path" "/ping"]
                               (request_to "api.test" "/ping") block_all).
  { exists [], [rule_matching "path" "/ping"].
    split; [reflexivity | split; [constructor | reflexivity]]. }
  split; [exact Hfirst |].
  rewrite (FilterRequest_first_rule_decides _ _ _ Hfirst). reflexivity.
Defined.

Lemma no_backends_gone_witness :
  dnsRuleCache state_api_test !! "nope.test" = None
  /\ proxyHandler state_api_test (request_to "nope.test" "/x") (Responds 200) 0
     = (state_api_test,
        [http_Error "No backends found for this hostname nope.test" 410]).
Proof.
  assert (Hnone : dnsRuleCache state_api_test !! "nope.test" = None)
    by (vm_compute; reflexivity).
  split; [exact Hnone |].
  exact (no_backends_gone state_api_test (request_to "nope.test" "/x")
                          (Responds 200) 0 (or_introl Hnone)).
Defined.

End PipelineExamples.

(** ** Further properties of the filter engine. *)
Section FilterEngineFacts.
Import models filter.
Context `{GoStdlib}.

Lemma FilterRequest_rules_outcome
    (rules : list FilterRule) (clientIP hostname requestPath userAgent : string) :
  (List.Forall (fun q => matchesRule q clientIP hostname requestPath = false) rules
   /\ FilterRequest_rules rules clientIP hostname requestPath userAgent
      = (not_filtered, []))
  \/ (exists rule,
        In rule rules
        /\ matchesRule rule clientIP hostname requestPath = true
        /\ Filtered (fst (FilterRequest_rules rules clientIP hostname requestPath
                                              userAgent)) = true
        /\ length (snd (FilterRequest_rules rules clientIP hostname requestPath
                                            userAgent)) = 1%nat).
Proof.
  induction rules as [|rule rest IH]; cbn [FilterRequest_rules].
  - left. split; [constructor | reflexivity].
  - destruct (matchesRule rule clientIP hostname requestPath) eqn:Hrule.
    + right. exists rule. split; [now left |]. split; [exact Hrule |].
      split; reflexivity.
    + destruct IH as [[Hnone Heq] | (q & Hq & Hmatch & Hres)].
      * left. split; [now constructor | exact Heq].
      * right. exists q. split; [now right |]. split; [exact Hmatch | exact Hres].
Qed.

(** X1. The filter engine reports a request as filtered exactly when some
    rule of the cache matches it. When no rule matches (an empty cache
    included), the result is the zero value (not filtered, status 0, no
    body, no redirect) and no filter-log write is started; when one does,
    exactly one write is started. *)
Theorem FilterRequest_filters_iff_matched (cache : list FilterRule) (r : http.Request) :
  let result := fst (FilterRequest cache r) in
  let logs := snd (FilterRequest cache r) in
  (Filtered result = true <-> exists rule, In rule cache /\ rule_matches rule r)
  /\ (Filtered result = false <-> FilterRequest cache r = (not_filtered, []))
  /\ (Filtered result = true -> length logs = 1%nat).
Proof.
  cbv zeta. unfold FilterRequest, rule_matches. cbv zeta.
  destruct (FilterRequest_rules_outcome cache (getClientIP r) (http.Host r)
              (http.URL_Path r) (http.Header_Get r "User-Agent"))
    as [[Hnone Heq] | (q & Hq & Hmatch & Hres & Hlogs)].
  - rewrite Heq. cbn [fst snd not_filtered Filtered].
    split; [| split; [| discriminate]].
    + split; [discriminate |]. intros (rule & Hin & Hrule).
      rewrite List.Forall_forall in Hnone. rewrite (Hnone rule Hin) in Hrule.
      discriminate.
    + split; reflexivity.
  - split; [| split].
    + split; [| intros _; exact Hres]. intros _. now exists q.
    + split.
      * intros Hfalse. rewrite Hres in Hfalse. discriminate.
      * intros Heq. rewrite Heq in Hres. discriminate.
    + intros _. exact Hlogs.
Qed.

(** X2. The response the engine prepares for a matched rule: the status
    is always positive; a redirect has status 302, no body and the
    action value as its target; every other action has no redirect
    target, a non-empty body, and status 400, 429, 403 or, for a custom
    action with a positive status code, that code. *)
Theorem action_response_shape (rule : FilterRule) :
  let status := getStatusCodeForAction rule in
  let body := getResponseForAction rule in
  let target := getRedirectURLForAction rule in
  0 < status
  /\ (ActionType rule = FilterActionRedirect ->
      status = http.StatusFound /\ body = "" /\ target = ActionValue rule)
  /\ (ActionType rule <> FilterActionRedirect ->
      target = "" /\ body <> ""
      /\ (status = http.StatusBadRequest \/ status = http.StatusTooManyRequests
          \/ status = http.StatusForbidden
          \/ (ActionType rule = FilterActionCustom /\ 0 < StatusCode rule
              /\ status = StatusCode rule))).
Proof.
  cbv zeta.
  unfold getStatusCodeForAction, getResponseForAction, getRedirectURLForAction.
  assert (Hbody : forall fallback : string,
             fallback <> "" ->
             (if negb (String.eqb (ActionValue rule) "") then ActionValue rule
              else fallback) <> "").
  { intros fallback Hf.
    destruct (String.eqb_spec (ActionValue rule) "") as [_|Hne]; cbn [negb]; assumption. }
  destruct (String.eqb_spec (ActionType rule) FilterActionRedirect) as [Hred|Hred].
  { split; [reflexivity |]. split; [intros _; repeat split | contradiction]. }
  destruct (String.eqb_spec (ActionType rule) FilterActionBadRequest) as [Hbad|Hbad].
  { split; [reflexivity |]. split; [contradiction |]. intros _.
    split; [reflexivity |]. split; [now apply Hbody | now left]. }
  destruct (String.eqb_spec (ActionType rule) FilterActionTooMany) as [Hmany|Hmany].
  { split; [reflexivity |]. split; [contradiction |]. intros _.
    split; [reflexivity |]. split; [now apply Hbody | right; now left]. }
  destruct (String.eqb_spec (ActionType rule) FilterActionCustom) as [Hcustom|Hcustom].
  { destruct (Z.ltb_spec 0 (StatusCode rule)) as [Hpos|Hnonpos].
    - split; [exact Hpos |]. split; [contradiction |]. intros _.
      split; [reflexivity |]. split; [now apply Hbody |].
      right. right. right. now repeat split.
    - split; [reflexivity |]. split; [contradiction |]. intros _.
      split; [reflexivity |]. split; [now apply Hbody |]. right. right. now left. }
  split; [reflexivity |]. split; [contradiction |]. intros _.
  split; [reflexivity |]. split; [discriminate |]. right. right. now left.
Qed.

(** A rule whose value holds a star is evaluated by [matchesWildcard],
    unless it is an address rule whose value also holds a slash. *)
Lemma matchesRule_wildcard
    (rule : FilterRule) (clientIP hostname requestPath subj : string) :
  subject rule clientIP hostname requestPath = Some subj ->
  ~ (MatchType rule = FilterMatchTypeIP /\ contains (MatchValue rule) "/") ->
  contains (MatchValue rule) "*" ->
  matchesRule rule clientIP hostname requestPath
  = matchesWildcard (MatchValue rule) subj.
Proof.
  intros Hsubj Hnc Hstar. apply Contains_spec in Hstar.
  pose proof (matchesRule_by_kind _ _ _ _ _ Hsubj) as Hkind. cbv zeta in Hkind.
  destruct Hkind as [[Hk ->] | [[Hk ->] | [Hk ->]]].
  - unfold matchesIP.
    destruct (GoStrings.Contains (MatchValue rule) "/") eqn:Hs.
    + exfalso. apply Hnc. split; [exact Hk | now apply Contains_spec].
    + now rewrite Hstar.
  - unfold matchesPath. now rewrite Hstar.
  - unfold matchesDNS. now rewrite Hstar.
Qed.

Lemma wildcard_literal (V text : string) :
  ~ begins_with V "*" -> ~ ends_with V "*" ->
  matchesWildcard V text = String.eqb V text.
Proof.
  intros Hpre Hsuf. unfold matchesWildcard.
  destruct (String.eqb_spec V "*") as [->|_].
  { exfalso. apply Hpre. now exists "". }
  apply HasPrefix_false in Hpre. apply HasSuffix_false in Hsuf.
  now rewrite Hpre, Hsuf.
Qed.

(** X3. A star that is neither the first nor the last character of the
    match value is no wildcard: such a rule (other than an address rule
    with a slash) matches exactly the subject that is equal to the match
    value, star included. *)
Theorem interior_star_is_literal
    (rule : FilterRule) (clientIP hostname requestPath subj : string) :
  subject rule clientIP hostname requestPath = Some subj ->
  ~ (MatchType rule = FilterMatchTypeIP /\ contains (MatchValue rule) "/") ->
  contains (MatchValue rule) "*" ->
  ~ begins_with (MatchValue rule) "*" ->
  ~ ends_with (MatchValue rule) "*" ->
  (matchesRule rule clientIP hostname requestPath = true <-> subj = MatchValue rule).
Proof.
  intros Hsubj Hnc Hstar Hpre Hsuf.
  rewrite (matchesRule_wildcard _ _ _ _ _ Hsubj Hnc Hstar).
  rewrite (wildcard_literal _ _ Hpre Hsuf), String.eqb_eq.
  split; intros Heq; now symmetry.
Qed.

Lemma Contains_empty (s : string) : GoStrings.Contains s "" = true.
Proof. now destruct s. Qed.

(** X4. A rule of a known kind whose match value is empty, or is two
    stars, matches every request. *)
Theorem empty_value_matches_everything
    (rule : FilterRule) (clientIP hostname requestPath subj : string) :
  subject rule clientIP hostname requestPath = Some subj ->
  MatchValue rule = "" \/ MatchValue rule = "**" ->
  matchesRule rule clientIP hostname requestPath = true.
Proof.
  intros Hsubj Hvalue.
  pose proof (matchesRule_by_kind _ _ _ _ _ Hsubj) as Hkind. cbv zeta in Hkind.
  assert (Hstars : matchesWildcard "**" subj = true).
  { unfold matchesWildcard, GoStrings.slice. cbn. apply Contains_empty. }
  destruct Hkind as [[_ ->] | [[_ ->] | [_ ->]]];
    destruct Hvalue as [-> | ->];
    unfold matchesIP, matchesPath, matchesDNS; cbn;
    first [apply Contains_empty | exact Hstars].
Qed.

(** X5. When a request carries a non-empty [X-Forwarded-For] header, the
    engine never consults the peer address (nor [X-Real-IP]): two
    requests with the same forwarding header, host, path and user agent
    get the same result and the same filter-log write, wherever they come
    from. *)
Theorem forwarded_header_overrides_peer (cache : list FilterRule) (r r' : http.Request) :
  http.Header_Get r "X-Forwarded-For" <> "" ->
  http.Header_Get r' "X-Forwarded-For" = http.Header_Get r "X-Forwarded-For" ->
  http.Host r' = http.Host r ->
  http.URL_Path r' = http.URL_Path r ->
  http.Header_Get r' "User-Agent" = http.Header_Get r "User-Agent" ->
  FilterRequest cache r' = FilterRequest cache r.
Proof.
  intros Hxff Hsame Hhost Hpath Hagent.
  assert (Hip : getClientIP r' = getClientIP r).
  { unfold getClientIP. cbv zeta. rewrite Hsame.
    now destruct (String.eqb_spec (http.Header_Get r "X-Forwarded-For") ""). }
  unfold FilterRequest. cbv zeta. now rewrite Hip, Hhost, Hpath, Hagent.
Qed.

End FilterEngineFacts.

Section FilterEngineExamples.
Import models filter IPv4.

Lemma interior_star_is_literal_witness :
  subject (rule_matching "dns" "api*test") "1.2.3.4" "api*test" "/" = Some "api*test"
  /\ (matchesRule (rule_matching "dns" "api*test") "1.2.3.4" "api*test" "/" = true
      <-> "api*test" = "api*test")
  /\ matchesRule (rule_matching "dns" "api*test") "1.2.3.4" "api.v2.test" "/" = false.
Proof.
  split; [reflexivity |]. split; [| vm_compute; reflexivity].
  assert (Hno : forall x : string,
             GoStrings.Contains "api*test" x = false -> ~ contains "api*test" x).
  { intros x Hx. now apply Contains_false. }
  apply (interior_star_is_literal (rule_matching "dns" "api*test")
           "1.2.3.4" "api*test" "/" "api*test" eq_refl).
  - intros [Hkind _]. discriminate.
  - exists "api", "test". reflexivity.
  - intros Hb. apply HasPrefix_spec in Hb. vm_compute in Hb. discriminate.
  - intros He. apply HasSuffix_spec in He. vm_compute in He. discriminate.
Defined.

Lemma empty_value_matches_everything_witness :
  subject (rule_matching "path" "") "1.2.3.4" "h" "/any/path" = Some "/any/path"
  /\ matchesRule (rule_matching "path" "") "1.2.3.4" "h" "/any/path" = true.
Proof.
  split; [reflexivity |].
  apply (empty_value_matches_everything (rule_matching "path" "")
           "1.2.3.4" "h" "/any/path" "/any/path" eq_refl).
  now left.
Defined.

Lemma forwarded_header_overrides_peer_witness :
  http.Header_Get (forwarded_from "192.0.2.5:40000") "X-Forwarded-For" <> ""
  /\ FilterRequest [rule_matching "ip" "10.0.0.0/8"] (forwarded_from "203.0.113.9:1")
     = FilterRequest [rule_matching "ip" "10.0.0.0/8"] (forwarded_from "192.0.2.5:40000")
  /\ Filtered (fst (FilterRequest [rule_matching "ip" "10.0.0.0/8"]
                                  (forwarded_from "192.0.2.5:40000"))) = true.
Proof.
  assert (Hxff : http.Header_Get (forwarded_from "192.0.2.5:40000") "X-Forwarded-For"
                 <> "") by (vm_compute; discriminate).
  split; [exact Hxff |]. split; [| vm_compute; reflexivity].
  exact (forwarded_header_overrides_peer [rule_matching "ip" "10.0.0.0/8"]
           (forwarded_from "192.0.2.5:40000") (forwarded_from "203.0.113.9:1")
           Hxff eq_refl eq_refl eq_refl eq_refl).
Defined.

End FilterEngineExamples.

(** ** Further properties of the rate limiter. *)
Section RateLimiterRunFacts.
Import middleware.

Lemma is_admin_path_prefix (path : string) :
  is_admin_path path = true <-> begins_with path "/admin".
Proof.
  unfold is_admin_path, GoStrings.slice. cbn [GoStrings.drop].
  rewrite Nat.sub_0_r. split.
  - rewrite !andb_true_iff. intros [_ Heq]. apply String.eqb_eq in Heq.
    exists (GoStrings.drop 6 path). rewrite <- Heq. symmetry. apply take_drop.
  - intros [r ->]. rewrite !append_cons, append_nil_l. reflexivity.
Qed.

(** X6. A request whose path begins with [/admin] (the admin API, but
    also a path such as [/administrator]) bypasses the limiter: it
    passes and leaves every counter as it was. *)
Theorem admin_prefix_bypasses_limiter (rl : RateLimiter) (c : Ctx) (now : Z) :
  begins_with (ctx_Path c) "/admin" ->
  RateLimiterMiddleware rl c now = (rl, Next).
Proof.
  intros Hadmin. apply is_admin_path_prefix in Hadmin.
  unfold RateLimiterMiddleware. now rewrite Hadmin.
Qed.

Lemma counter_other_client (rl : RateLimiter) (ip other hostname : string)
    (limit : IPLimit) :
  other <> ip ->
  ipMap (set_ipMap rl (<[ip := limit]> (ipMap rl))) !! other = ipMap rl !! other.
Proof. intros Hne. unfold set_ipMap. cbn. now rewrite lookup_insert_ne. Qed.

Lemma countRequest_frame
    (rl : RateLimiter) (ip hostname : string) (now quota interval : Z) :
  let rl' := fst (countRequest rl ip hostname now quota interval) in
  dnsConfigMap rl' = dnsConfigMap rl
  /\ defaultMaxRequests rl' = defaultMaxRequests rl
  /\ defaultInterval rl' = defaultInterval rl
  /\ (forall other, other <> ip -> ipMap rl' !! other = ipMap rl !! other)
  /\ (forall other, other <> hostname -> counter rl' ip other = counter rl ip other).
Proof.
  cbv zeta. unfold countRequest.
  destruct (ipMap rl !! ip) as [limit|] eqn:Hip.
  - assert (Hframe : forall hostCount n,
              let rl' := set_ipMap rl
                           (<[ip := {| count := n; lastSeen := now;
                                       hostCounts := <[hostname := hostCount]>
                                                       (hostCounts limit) |}]>
                              (ipMap rl)) in
              dnsConfigMap rl' = dnsConfigMap rl
              /\ defaultMaxRequests rl' = defaultMaxRequests rl
              /\ defaultInterval rl' = defaultInterval rl
              /\ (forall other, other <> ip -> ipMap rl' !! other = ipMap rl !! other)
              /\ (forall other, other <> hostname ->
                    counter rl' ip other = counter rl ip other)).
    { intros hostCount n. cbv zeta.
      split; [reflexivity |]. split; [reflexivity |]. split; [reflexivity |].
      split.
      - intros other Hne. now apply counter_other_client.
      - intros other Hne. rewrite counter_set. cbn [hostCounts].
        unfold counter. rewrite Hip. now rewrite lookup_insert_ne. }
    destruct (hostCounts limit !! hostname) as [hostCount|]; [| apply Hframe].
    destruct (interval <? GoTime.Sub now (hc_lastSeen hostCount)); [apply Hframe |].
    cbv zeta. cbn [hc_count].
    destruct (quota <? GoInt.incr (hc_count hostCount)); apply Hframe.
  - cbn [fst].
    split; [reflexivity |]. split; [reflexivity |]. split; [reflexivity |].
    split.
    + intros other Hne. now apply counter_other_client.
    + intros other Hne. rewrite counter_set. cbn [hostCounts].
      unfold counter. rewrite Hip. now rewrite lookup_singleton_ne.
Qed.

(** X7. Handling a request touches nothing but the entry of its client:
    the configurations and the defaults of the limiter stay, the entries
    of all other clients stay, and so do the counters of the same client
    for all other hosts. *)
Theorem limiter_touches_one_counter (rl : RateLimiter) (c : Ctx) (now : Z) :
  let rl' := fst (RateLimiterMiddleware rl c now) in
  dnsConfigMap rl' = dnsConfigMap rl
  /\ defaultMaxRequests rl' = defaultMaxRequests rl
  /\ defaultInterval rl' = defaultInterval rl
  /\ (forall ip, ip <> ctx_IP c -> ipMap rl' !! ip = ipMap rl !! ip)
  /\ (forall hostname, hostname <> ctx_Hostname c ->
        counter rl' (ctx_IP c) hostname = counter rl (ctx_IP c) hostname).
Proof.
  cbv zeta. unfold RateLimiterMiddleware.
  destruct (is_admin_path (ctx_Path c)); [now repeat split |].
  destruct (dnsConfigMap rl !! ctx_Hostname c) as [config|].
  - destruct (Enabled config); [apply countRequest_frame | now repeat split].
  - apply countRequest_frame.
Qed.

Lemma incr_exact (z : Z) :
  GoInt.min_int <= z -> z < GoInt.max_int -> GoInt.incr z = z + 1.
Proof.
  unfold GoInt.incr, GoInt.wrap, GoInt.min_int, GoInt.max_int. intros Hlo Hhi.
  rewrite Z.mod_small by lia. lia.
Qed.

Lemma last_cons (t d : Z) (rest : list Z) :
  List.last (t :: rest) d = List.last rest t.
Proof.
  revert t d. induction rest as [|z rest IH]; intros t d; [reflexivity |].
  change (List.last (t :: z :: rest) d) with (List.last (z :: rest) d).
  now rewrite (IH z d), (IH z t).
Qed.

Lemma limits_after_request (rl : RateLimiter) (c : Ctx) (now : Z) (hostname : string) :
  limits (fst (RateLimiterMiddleware rl c now)) hostname = limits rl hostname.
Proof.
  assert (Hcount : forall quota interval,
             limits (fst (countRequest rl (ctx_IP c) (ctx_Hostname c) now
                                       quota interval)) hostname
             = limits rl hostname).
  { intros quota interval.
    destruct (countRequest_frame rl (ctx_IP c) (ctx_Hostname c) now quota interval)
      as (Hcfg & Hmax & Hint & _).
    cbv zeta in *. unfold limits. now rewrite Hcfg, Hmax, Hint. }
  unfold RateLimiterMiddleware.
  destruct (is_admin_path (ctx_Path c)); [reflexivity |].
  destruct (dnsConfigMap rl !! ctx_Hostname c) as [config|]; [| apply Hcount].
  destruct (Enabled config); [apply Hcount | reflexivity].
Qed.

(** X8. A run of requests of one client to one host, each arriving
    within one period of the one before it, never restarts the counter,
    however many periods the run spans: request number [k] of the run
    brings the count to [count + k] and is rejected with status 429
    exactly when that exceeds the quota. Once the quota is used up, every
    further request of the run is rejected, a rejected request moving
    [lastSeen] like any other. *)
Theorem paced_run_counts_up
    (rl : RateLimiter) (c : Ctx) (quota interval : Z) (hostCount : HostCount)
    (times : list Z) :
  is_admin_path (ctx_Path c) = false ->
  limits rl (ctx_Hostname c) = Some (quota, interval) ->
  counter rl (ctx_IP c) (ctx_Hostname c) = Some hostCount ->
  paced interval (hc_lastSeen hostCount) times ->
  GoInt.min_int <= hc_count hostCount ->
  hc_count hostCount + Z.of_nat (length times) <= GoInt.max_int ->
  snd (serve rl (repeated c times))
  = map (fun k => verdict quota (hc_count hostCount + Z.of_nat k))
        (seq 1 (length times))
  /\ counter (fst (serve rl (repeated c times))) (ctx_IP c) (ctx_Hostname c)
     = Some {| hc_count := hc_count hostCount + Z.of_nat (length times);
               hc_lastSeen := List.last times (hc_lastSeen hostCount) |}.
Proof.
  intros Hpath. revert rl hostCount.
  induction times as [|t rest IH]; intros rl hostCount Hlim Hcounter Hpaced Hlo Hhi.
  - cbn [repeated map serve fst snd length seq List.last]. split; [reflexivity |].
    rewrite Hcounter, Z.add_0_r. now destruct hostCount.
  - cbn [length] in Hhi. destruct Hpaced as [Hgap Hpaced].
    cbn [repeated map serve]. fold (repeated c rest).
    pose proof (limits_after_request rl c t (ctx_Hostname c)) as Hlim'.
    rewrite Hlim in Hlim'.
    pose proof (middleware_counts rl c t quota interval Hpath Hlim) as Hmw.
    destruct (countRequest_existing_counter rl (ctx_IP c) (ctx_Hostname c) t
                quota interval hostCount Hcounter) as [_ Hsame].
    destruct (Hsame Hgap) as (Hcounter' & Hreject & Hpass).
    rewrite <- Hmw in Hcounter', Hreject, Hpass.
    rewrite incr_exact in Hcounter', Hreject, Hpass by lia.
    destruct (RateLimiterMiddleware rl c t) as [rl1 outcome].
    cbn [fst snd] in *.
    specialize (IH rl1 {| hc_count := hc_count hostCount + 1; hc_lastSeen := t |}
                   Hlim' Hcounter' Hpaced).
    cbn [hc_count hc_lastSeen] in IH.
    destruct IH as [IHout IHcounter]; [lia | lia |].
    destruct (serve rl1 (repeated c rest)) as [rl2 outcomes].
    cbn [fst snd] in *. split.
    + cbn [length seq map]. f_equal.
      * unfold verdict. replace (Z.of_nat 1) with 1 by reflexivity.
        destruct (Z.ltb_spec quota (hc_count hostCount + 1)) as [Hover|Hunder];
          [now apply Hreject | now apply Hpass].
      * rewrite IHout, <- (seq_shift (length rest) 1), map_map. apply map_ext. intros k.
        f_equal. lia.
    + rewrite IHcounter. f_equal. f_equal.
      * cbn [length]. lia.
      * symmetry. apply last_cons.
Qed.


Lemma loadRows_lookup (rl : RateLimiter) (clock : nat -> Z)
    (rows : list (option (string * bool * Z * Z))) :
  forall acc host config,
    (fold_left (loadRow rl clock) rows acc).1 !! host = Some config ->
    acc.1 !! host = Some config
    \/ exists enabled quota period k,
         In (Some (host, enabled, quota, period)) rows
         /\ config = config_of_row rl host enabled quota period (clock k).
Proof.
  induction rows as [|row rest IH]; intros acc host config; cbn [fold_left].
  - now left.
  - intros Hlookup. destruct (IH _ _ _ Hlookup) as [Hacc | (e & q & p & k & Hin & ->)].
    + destruct acc as [newConfigs k].
      destruct row as [[[[hostname enabled] quota] period]|]; cbn in Hacc.
      * destruct (decide (hostname = host)) as [->|Hne].
        -- rewrite lookup_insert_eq in Hacc. injection Hacc as <-.
           right. exists enabled, quota, period, k. split; [now left | reflexivity].
        -- rewrite lookup_insert_ne in Hacc by exact Hne. now left.
      * now left.
    + right. exists e, q, p, k. split; [now right | reflexivity].
Qed.

Lemma loadRows_keeps (rl : RateLimiter) (clock : nat -> Z)
    (rows : list (option (string * bool * Z * Z))) :
  forall acc host,
    is_Some (acc.1 !! host) ->
    is_Some ((fold_left (loadRow rl clock) rows acc).1 !! host).
Proof.
  induction rows as [|row rest IH]; intros acc host Hacc; cbn [fold_left].
  - exact Hacc.
  - apply IH. destruct acc as [newConfigs k].
    destruct row as [[[[hostname enabled] quota] period]|]; cbn in *.
    + destruct (decide (hostname = host)) as [->|Hne].
      * rewrite lookup_insert_eq. now eexists.
      * now rewrite lookup_insert_ne.
    + exact Hacc.
Qed.

Lemma loadRows_loads (rl : RateLimiter) (clock : nat -> Z)
    (rows : list (option (string * bool * Z * Z))) :
  forall acc host enabled quota period,
    In (Some (host, enabled, quota, period)) rows ->
    is_Some ((fold_left (loadRow rl clock) rows acc).1 !! host).
Proof.
  induction rows as [|row rest IH]; intros acc host e q p Hin; cbn [fold_left].
  - destruct Hin.
  - destruct Hin as [-> | Hin]; [| now apply (IH _ host e q p)].
    apply loadRows_keeps. destruct acc as [newConfigs k]. cbn.
    rewrite lookup_insert_eq. now eexists.
Qed.

(** X10. A successful load of the rate-limit configurations replaces the
    whole configuration map and nothing else: afterwards a host has a
    configuration exactly when the query returned a row for it that
    scans, so the configuration of a host that is gone from the store is
    dropped, while the counters of the clients stay. Each configuration
    comes from such a row, with the default quota in place of a quota
    that is not positive, and with a positive period kept as it is. When
    the query fails the limiter is left as it was. *)
Theorem loadDNSConfigs_replaces_configurations
    (rl : RateLimiter) (rows : list (option (string * bool * Z * Z)))
    (clock : nat -> Z) :
  let rl' := loadDNSConfigs rl (Some rows) clock in
  loadDNSConfigs rl None clock = rl
  /\ ipMap rl' = ipMap rl
  /\ defaultMaxRequests rl' = defaultMaxRequests rl
  /\ defaultInterval rl' = defaultInterval rl
  /\ (forall host,
        is_Some (dnsConfigMap rl' !! host)
        <-> exists enabled quota period, In (Some (host, enabled, quota, period)) rows)
  /\ (forall host config,
        dnsConfigMap rl' !! host = Some config ->
        exists enabled quota period,
          In (Some (host, enabled, quota, period)) rows
          /\ Hostname config = host
          /\ Enabled config = enabled
          /\ Quota config = (if quota <=? 0 then defaultMaxRequests rl else quota)
          /\ (0 < period -> PeriodSecs config = period)
          /\ (0 < defaultMaxRequests rl -> 0 < Quota config)).
Proof.
  cbv zeta. unfold loadDNSConfigs, set_dnsConfigMap. cbn [ipMap dnsConfigMap
    defaultMaxRequests defaultInterval].
  split; [reflexivity |]. split; [reflexivity |]. split; [reflexivity |].
  split; [reflexivity |].
  assert (Hfrom : forall host config,
             (fold_left (loadRow rl clock) rows (∅, 0%nat)).1 !! host = Some config ->
             exists enabled quota period k,
               In (Some (host, enabled, quota, period)) rows
               /\ config = config_of_row rl host enabled quota period (clock k)).
  { intros host config Hlookup.
    destruct (loadRows_lookup rl clock rows _ _ _ Hlookup) as [Hempty | Hrow];
      [| exact Hrow].
    cbn in Hempty. rewrite lookup_empty in Hempty. discriminate. }
  split.
  - intros host. split.
    + intros [config Hlookup].
      destruct (Hfrom host config Hlookup) as (e & q & p & k & Hin & _).
      now exists e, q, p.
    + intros (e & q & p & Hin). now apply (loadRows_loads rl clock rows _ host e q p).
  - intros host config Hlookup.
    destruct (Hfrom host config Hlookup) as (e & q & p & k & Hin & ->).
    exists e, q, p. unfold config_of_row. cbn.
    split; [exact Hin |]. split; [reflexivity |]. split; [reflexivity |].
    split; [reflexivity |]. split.
    + intros Hp. destruct (Z.leb_spec p 0); [lia | reflexivity].
    + intros Hd. destruct (Z.leb_spec q 0); lia.
Qed.

End RateLimiterRunFacts.

Section RateLimiterRunExamples.
Import middleware.

Lemma admin_prefix_bypasses_limiter_witness :
  begins_with (ctx_Path admin_page) "/admin"
  /\ RateLimiterMiddleware (limiter_after 5) admin_page 1 = (limiter_after 5, Next).
Proof.
  assert (Hadmin : begins_with (ctx_Path admin_page) "/admin")
    by (exists "istrator"; reflexivity).
  split; [exact Hadmin |].
  exact (admin_prefix_bypasses_limiter (limiter_after 5) admin_page 1 Hadmin).
Defined.

(** With a quota of 2 per 10 seconds and one request counted at instant
    0, requests at seconds 8, 16, 24 and 32 are each within the period of
    the one before: the first passes and the others are rejected, though
    no window of 10 seconds holds more than two of them. *)
Lemma paced_run_counts_up_witness :
  is_admin_path (ctx_Path ping) = false
  /\ limits (limiter_after 1) "api.test" = Some (2, seconds 10)
  /\ snd (serve (limiter_after 1)
                (repeated ping [seconds 8; seconds 16; seconds 24; seconds 32]))
     = [Next;
        StatusJSON 429 rate_limit_message;
        StatusJSON 429 rate_limit_message;
        StatusJSON 429 rate_limit_message].
Proof.
  split; [reflexivity |]. split; [reflexivity |].
  rewrite (proj1 (paced_run_counts_up (limiter_after 1) ping 2 (seconds 10)
             {| hc_count := 1; hc_lastSeen := 0 |}
             [seconds 8; seconds 16; seconds 24; seconds 32]
             eq_refl eq_refl eq_refl
             ltac:(vm_compute; repeat split; discriminate)
             ltac:(vm_compute; discriminate)
             ltac:(vm_compute; discriminate))).
  reflexivity.
Defined.

(** The default period of a limiter created with [time.Minute] is 60
    seconds. *)
Example default_period_of_a_minute :
  Float64.to_int (Duration_Seconds GoTime.Minute) = 60.
Proof. vm_compute. reflexivity. Qed.

End RateLimiterRunExamples.

(** ** Further properties of the routing cache and of the selector. *)
Section RoutingFacts.
Import models proxy Float64.

Lemma collectBackends_active (rows : list (option Backend)) :
  List.Forall (fun b => IsActive b = true) (collectBackends rows).
Proof.
  induction rows as [|[b|] rest IH]; cbn [collectBackends];
    [constructor | | exact IH].
  destruct (IsActive b) eqn:Hb; [now constructor | exact IH].
Qed.

Lemma cacheRules_lookup (db : Database) (rows : list (option (Z * string))) :
  forall tempCache host backends,
    fold_left (cacheRule db) rows tempCache !! host = Some backends ->
    tempCache !! host = Some backends
    \/ exists ruleID backendRows,
         In (Some (ruleID, host)) rows
         /\ backends_of db ruleID = Some backendRows
         /\ backends = collectBackends backendRows
         /\ backends <> [].
Proof.
  induction rows as [|row rest IH]; intros tempCache host backends; cbn [fold_left].
  - now left.
  - intros Hlookup.
    destruct (IH _ _ _ Hlookup) as [Hacc | (ruleID & backendRows & Hin & Hq & Hb & Hne)].
    + unfold cacheRule in Hacc. destruct row as [[ruleID hostname]|]; [| now left].
      destruct (backends_of db ruleID) as [backendRows|] eqn:Hq; [| now left].
      cbv zeta in Hacc.
      destruct (Nat.ltb_spec 0 (length (collectBackends backendRows))) as [Hlen|Hlen];
        [| now left].
      destruct (decide (hostname = host)) as [->|Hne].
      * rewrite lookup_insert_eq in Hacc. injection Hacc as <-. right.
        exists ruleID, backendRows. split; [now left |]. split; [exact Hq |].
        split; [reflexivity |]. intros Hnil. rewrite Hnil in Hlen. cbn in Hlen. lia.
      * rewrite lookup_insert_ne in Hacc by exact Hne. now left.
    + right. exists ruleID, backendRows. split; [now right |]. now repeat split.
Qed.


Lemma same_backends_store (w : Z) (backends : list Backend) :
  same_backends backends (map (fun b => set_Ratio b (ratio w b)) backends).
Proof. unfold same_backends. rewrite map_map. now apply map_ext. Qed.

(** What a call of the selector returns, whatever the weights. *)
Lemma selectBackend_shape (backends : list Backend) (counts : gmap string Z) :
  match selectBackend backends counts with
  | None => backends = []
  | Some (backends', counts', i) =>
      same_backends backends backends'
      /\ exists b r,
           nth_error backends i = Some b
           /\ nth_error backends' i = Some (set_Ratio b r)
           /\ counts' = increment counts (URL b)
  end.
Proof.
  destruct backends as [|first [|second rest]]; [reflexivity | |].
  - cbn [selectBackend]. split; [reflexivity |].
    exists first, (Ratio first). repeat split. now destruct first.
  - unfold selectBackend. cbv zeta. rewrite selectLoop_start.
    set (minWeight := findMinWeight _ _).
    set (i := first_max_from _ _ _ _).
    set (backends := first :: second :: rest).
    assert (Hi : (i < length backends)%nat).
    { subst i backends.
      pose proof (first_max_from_bound
                    (map (priority minWeight counts) (second :: rest)) 1 0
                    (priority minWeight counts first)) as Hb.
      rewrite length_map in Hb. cbn [length] in *. lia. }
    destruct (nth_error backends i) as [original|] eqn:Horiginal;
      [| apply nth_error_None in Horiginal; lia].
    rewrite nth_error_map, Horiginal. cbn [option_map].
    split; [apply same_backends_store |].
    exists original, (ratio minWeight original).
    split; [exact Horiginal |]. split; [| reflexivity].
    now rewrite nth_error_map, Horiginal.
Qed.

(** X12. The selector fails (the call panics) only on an empty list. On
    any other list, whatever the weights and the counters, it returns a
    position of the list; the list it leaves is the list it was given up
    to the scratch field [Ratio]; and the only change to the counters is
    that the counter of the returned backend's URL is incremented. *)
Theorem selectBackend_effect (backends : list Backend) (counts : gmap string Z) :
  (selectBackend backends counts = None <-> backends = [])
  /\ (forall backends' counts' i,
        selectBackend backends counts = Some (backends', counts', i) ->
        same_backends backends backends'
        /\ exists b,
             nth_error backends i = Some b
             /\ (exists r, nth_error backends' i = Some (set_Ratio b r))
             /\ counts' = increment counts (URL b)
             /\ count_of counts' (URL b) = GoInt.incr (count_of counts (URL b))
             /\ (forall url, url <> URL b -> counts' !! url = counts !! url)).
Proof.
  pose proof (selectBackend_shape backends counts) as Hshape.
  split.
  - split.
    + intros Hnone. now rewrite Hnone in Hshape.
    + intros ->. reflexivity.
  - intros backends' counts' i Hsel. rewrite Hsel in Hshape.
    destruct Hshape as (Hsame & b & r & Hb & Hb' & ->).
    split; [exact Hsame |]. exists b. split; [exact Hb |].
    split; [now exists r |]. split; [reflexivity |].
    split; [apply increment_same |].
    intros url Hurl. now apply increment_other.
Qed.

(** X13. With two or more candidates whose weights are not negative, one
    of them being zero, the selector always returns the first candidate
    of the list, whatever the counters: the division by the minimum
    weight, zero, makes every priority a NaN or [+Inf], which no later
    candidate exceeds. A weight of zero thus does not take a backend out
    of rotation; it sends all traffic of the host to the first backend. *)
Theorem zero_weight_pins_first_backend
    (first second : Backend) (rest : list Backend) (counts : gmap string Z) :
  List.Forall (fun b => 0 <= Weight b <= GoInt.max_int) (first :: second :: rest) ->
  (exists b, In b (first :: second :: rest) /\ Weight b = 0) ->
  (forall url n, counts !! url = Some n -> GoInt.in_range n) ->
  exists backends',
    selectBackend (first :: second :: rest) counts
    = Some (backends', increment counts (URL first), 0%nat)
    /\ same_backends (first :: second :: rest) backends'.
Proof.
  intros Hweights (zero_one & Hin & Hzero) Hcounts.
  set (backends := first :: second :: rest) in *.
  assert (Hmin : findMinWeight (Weight first) backends = 0).
  { destruct (findMinWeight_minimum first (second :: rest)) as [(b & Hb & Hw) Hall].
    fold backends in Hb, Hw, Hall.
    rewrite List.Forall_forall in Hweights, Hall.
    specialize (Hweights b Hb). specialize (Hall zero_one Hin). lia. }
  assert (Hprio : List.Forall unbeatable (map (priority 0 counts) backends)).
  { apply List.Forall_map. rewrite List.Forall_forall in Hweights |- *.
    intros b Hb. apply priority_by_zero; [now apply Hweights |].
    now apply count_in_range. }
  exists (map (fun b => set_Ratio b (ratio 0 b)) backends).
  split; [| apply same_backends_store].
  unfold selectBackend, backends. fold backends. cbv zeta. rewrite Hmin.
  unfold backends at 1. rewrite selectLoop_start. fold backends.
  inversion Hprio as [|p ps Hfirst Hrest]; subst.
  rewrite first_max_from_unbeatable; [reflexivity | exact Hfirst | exact Hrest].
Qed.

End RoutingFacts.

Section RoutingExamples.
Import models proxy Float64.

Lemma zero_weight_pins_first_backend_witness :
  List.Forall (fun b => 0 <= Weight b <= GoInt.max_int) five_and_zero
  /\ choices 4 five_and_zero ∅
     = ["http://u1"; "http://u1"; "http://u1"; "http://u1"]
  /\ exists backends',
       selectBackend five_and_zero ∅
       = Some (backends', increment ∅ "http://u1", 0%nat)
       /\ same_backends five_and_zero backends'.
Proof.
  assert (Hweights : List.Forall (fun b => 0 <= Weight b <= GoInt.max_int)
                                 five_and_zero).
  { repeat constructor; cbn; try lia; discriminate. }
  split; [exact Hweights |]. split; [vm_compute; reflexivity |].
  apply (zero_weight_pins_first_backend
           (backend_of 1 "http://u1" 5) (backend_of 2 "http://u2" 0) [] ∅ Hweights).
  - exists (backend_of 2 "http://u2" 0). split; [right; now left | reflexivity].
  - intros url n Hn. rewrite lookup_empty in Hn. discriminate.
Defined.

End RoutingExamples.

(** ** Further properties of the request handler. *)
Section HandlerFacts.
Import models proxy.
Context `{GoStdlib}.

(** The handler on a host with backends: the selector has picked [b],
    and what follows depends on its URL and on the reverse proxy. *)
Lemma proxyHandler_routed
    (st : State) (r : http.Request) (upstream : Upstream) (latencyMS : Z)
    (backends : list Backend) :
  dnsRuleCache st !! http.Host r = Some backends -> backends <> [] ->
  exists backends' b ratio,
    In b backends
    /\ same_backends backends backends'
    /\ fst (proxyHandler st r upstream latencyMS)
       = {| dnsRuleCache := <[http.Host r := backends']> (dnsRuleCache st);
            backendCountMap := increment (backendCountMap st) (URL b) |}
    /\ snd (proxyHandler st r upstream latencyMS)
       = match url_Parse (URL b) with
         | None => [http_Error "Internal Server Error" http.StatusInternalServerError]
         | Some targetHost =>
             ServeHTTP targetHost (set_Ratio b ratio)
             :: serveEvents r (http.Host r) (set_Ratio b ratio) latencyMS upstream
         end.
Proof.
  intros Hroute Hne.
  pose proof (selectBackend_shape backends (backendCountMap st)) as Hshape.
  unfold proxyHandler. cbv zeta. rewrite Hroute.
  destruct backends as [|first rest]; [contradiction |].
  destruct (selectBackend (first :: rest) (backendCountMap st))
    as [[[backends' counts'] i]|]; [| discriminate].
  destruct Hshape as (Hsame & b & ratio & Hb & Hb' & ->).
  rewrite Hb'. exists backends', b, ratio.
  split; [now apply nth_error_In with i |]. split; [exact Hsame |].
  change (URL (set_Ratio b ratio)) with (URL b).
  destruct (url_Parse (URL b)) as [targetHost|]; now split.
Qed.

Lemma proxyHandler_unrouted
    (st : State) (r : http.Request) (upstream : Upstream) (latencyMS : Z) :
  dnsRuleCache st !! http.Host r = None \/ dnsRuleCache st !! http.Host r = Some [] ->
  proxyHandler st r upstream latencyMS
  = (st, [http_Error ("No backends found for this hostname " +:+ http.Host r)
                     http.StatusGone]).
Proof. intros [Hr | Hr]; unfold proxyHandler; cbv zeta; now rewrite Hr. Qed.

Lemma proxyHandler_cases
    (st : State) (r : http.Request) (upstream : Upstream) (latencyMS : Z) :
  (dnsRuleCache st !! http.Host r = None \/ dnsRuleCache st !! http.Host r = Some [])
  \/ (exists backends, dnsRuleCache st !! http.Host r = Some backends /\ backends <> []).
Proof.
  destruct (dnsRuleCache st !! http.Host r) as [[|first rest]|].
  - left. now right.
  - right. now exists (first :: rest).
  - left. now left.
Qed.

(** The events of [ServeHTTP] are those of the callbacks and the abort. *)
Lemma serveEvents_kinds
    (r : http.Request) (hostname : string) (backend : Backend) (latencyMS : Z)
    (upstream : Upstream) (e : Event) :
  In e (serveEvents r hostname backend latencyMS upstream) ->
  match e with
  | http_Error _ _ | ServeHTTP _ _ | Panic => False
  | _ => True
  end.
Proof.
  unfold serveEvents. intros Hin. apply in_app_or in Hin.
  destruct Hin as [Hin | Hin].
  - apply in_flat_map in Hin. destruct Hin as (call & _ & Hin).
    destruct call; cbn in Hin;
      repeat (destruct Hin as [<- | Hin]; [exact I |]); destruct Hin.
  - destruct (aborts upstream); [| destruct Hin].
    destruct Hin as [<- | []]. exact I.
Qed.

Lemma serveEvents_logs
    (r : http.Request) (backend : Backend) (latencyMS : Z) (upstream : Upstream) :
  List.filter is_log (serveEvents r (http.Host r) backend latencyMS upstream)
  = map (log_of r (ID backend) latencyMS) (callbacks upstream)
  /\ length (List.filter is_bad_gateway
                         (serveEvents r (http.Host r) backend latencyMS upstream))
     = length (List.filter is_error_call (callbacks upstream))
  /\ (In PanicAbortHandler (serveEvents r (http.Host r) backend latencyMS upstream)
      <-> aborts upstream = true).
Proof.
  unfold serveEvents. rewrite !List.filter_app.
  assert (Htail : List.filter is_log (if aborts upstream then [PanicAbortHandler] else [])
                  = []
                  /\ List.filter is_bad_gateway
                       (if aborts upstream then [PanicAbortHandler] else []) = [])
    by (now destruct (aborts upstream)).
  destruct Htail as [-> ->]. rewrite !app_nil_r.
  split; [| split].
  - induction (callbacks upstream) as [|call calls IH]; [reflexivity |].
    cbn [flat_map map]. rewrite List.filter_app, IH. now destruct call.
  - induction (callbacks upstream) as [|call calls IH]; [reflexivity |].
    cbn [flat_map]. rewrite List.filter_app, length_app, IH. now destruct call.
  - split.
    + intros Hin. apply in_app_or in Hin. destruct Hin as [Hin | Hin].
      * apply in_flat_map in Hin. destruct Hin as (call & _ & Hin).
        destruct call; cbn in Hin;
          repeat (destruct Hin as [Hin | Hin]; [discriminate |]); destruct Hin.
      * destruct (aborts upstream); [reflexivity | destruct Hin].
    + intros ->. apply in_or_app. right. now left.
Qed.

(** X14. The handler emits request-log entries only for a request it
    hands to the reverse proxy, one for every call the reverse proxy
    makes to the two callbacks, in the order of the calls. A call of
    [ModifyResponse] gives an entry with the status of the response that
    counts as a success, whatever that status; a call of [ErrorHandler]
    writes 502 to the client and gives an entry with status 502 that
    counts as a failure. Every entry carries the peer address
    [RemoteAddr] of the request, its host and path, the id of the
    selected backend and the latency read in that call. So an answer that
    is relayed gives exactly one entry, a failed round trip exactly one,
    and a reverse proxy that calls both callbacks gives two. A request
    that is not handed to the reverse proxy (410, 500) gives none. The
    handler raises no panic of its own; the abort of the reverse proxy
    passes through it. *)
Theorem proxyHandler_logs_forwarded_requests
    (st : State) (r : http.Request) (upstream : Upstream) (latencyMS : Z) :
  let events := snd (proxyHandler st r upstream latencyMS) in
  (forall targetHost backend,
      In (ServeHTTP targetHost backend) events ->
      List.filter is_log events
      = map (log_of r (ID backend) latencyMS) (callbacks upstream)
      /\ length (List.filter is_bad_gateway events)
         = length (List.filter is_error_call (callbacks upstream))
      /\ (In PanicAbortHandler events <-> aborts upstream = true))
  /\ ((forall targetHost backend, ~ In (ServeHTTP targetHost backend) events) ->
      List.filter is_log events = [] /\ ~ In PanicAbortHandler events)
  /\ ~ In Panic events.
Proof.
  cbv zeta.
  assert (Hplain : forall msg code,
             (forall targetHost backend,
                 In (ServeHTTP targetHost backend) [http_Error msg code] ->
                 List.filter is_log [http_Error msg code]
                 = map (log_of r (ID backend) latencyMS) (callbacks upstream)
                 /\ length (List.filter is_bad_gateway [http_Error msg code])
                    = length (List.filter is_error_call (callbacks upstream))
                 /\ (In PanicAbortHandler [http_Error msg code]
                     <-> aborts upstream = true))
             /\ ((forall targetHost backend,
                     ~ In (ServeHTTP targetHost backend) [http_Error msg code]) ->
                 List.filter is_log [http_Error msg code] = []
                 /\ ~ In PanicAbortHandler [http_Error msg code])
             /\ ~ In Panic [http_Error msg code]).
  { intros msg code. split; [| split].
    - intros t b [Hin | []]. discriminate.
    - intros _. split; [reflexivity |]. intros [Hin | []]. discriminate.
    - intros [Hin | []]. discriminate. }
  destruct (proxyHandler_cases st r upstream latencyMS) as [Hnone | (backends & Hr & Hne)].
  { rewrite (proxyHandler_unrouted st r upstream latencyMS Hnone). apply Hplain. }
  destruct (proxyHandler_routed st r upstream latencyMS backends Hr Hne)
    as (backends' & b & ratio & _ & _ & _ & ->).
  destruct (url_Parse (URL b)) as [targetHost|]; [| apply Hplain].
  set (backend := set_Ratio b ratio).
  destruct (serveEvents_logs r backend latencyMS upstream) as (Hlogs & H502 & Habort).
  split; [| split].
  - intros t b0 [Hin | Hin].
    + injection Hin as <- <-. cbn [List.filter is_log is_bad_gateway].
      split; [exact Hlogs |]. split; [exact H502 |].
      rewrite <- Habort. split.
      * intros [Hhead | Htail]; [discriminate | exact Htail].
      * intros Htail. now right.
    + now apply serveEvents_kinds in Hin.
  - intros Hnever. exfalso. apply (Hnever targetHost backend). now left.
  - intros [Hin | Hin]; [discriminate |]. now apply serveEvents_kinds in Hin.
Qed.

Lemma well_formed_same (backends backends' : list Backend) :
  same_backends backends backends' ->
  backends <> [] /\ List.Forall (fun b => IsActive b = true) backends ->
  backends' <> [] /\ List.Forall (fun b => IsActive b = true) backends'.
Proof.
  unfold same_backends. revert backends.
  induction backends' as [|b' rest' IH]; intros [|b rest] Hsame [Hne Hall];
    try discriminate; try contradiction.
  split; [discriminate |].
  cbn [map] in Hsame. injection Hsame as _ _ _ Hact Hrest.
  inversion Hall as [|b0 rest0 Hactive Hrest_active]; subst.
  constructor.
  - congruence.
  - destruct rest' as [|b'' rest''].
    + constructor.
    + destruct rest as [|b1 rest1]; [discriminate |].
      apply (IH (b1 :: rest1) Hrest). split; [discriminate | exact Hrest_active].
Qed.

(** The routing cache after a request: the same hosts, the same
    backends up to the scratch field. *)
Lemma proxyHandler_cache
    (st : State) (r : http.Request) (upstream : Upstream) (latencyMS : Z) :
  let st' := fst (proxyHandler st r upstream latencyMS) in
  (forall host,
      option_map (map erase_Ratio) (dnsRuleCache st' !! host)
      = option_map (map erase_Ratio) (dnsRuleCache st !! host))
  /\ (well_formed (dnsRuleCache st) -> well_formed (dnsRuleCache st')).
Proof.
  cbv zeta.
  destruct (proxyHandler_cases st r upstream latencyMS) as [Hnone | (backends & Hr & Hne)].
  { rewrite (proxyHandler_unrouted st r upstream latencyMS Hnone). cbn [fst].
    split; [reflexivity | trivial]. }
  destruct (proxyHandler_routed st r upstream latencyMS backends Hr Hne)
    as (backends' & b & ratio & _ & Hsame & -> & _).
  cbn [dnsRuleCache]. split.
  - intros host. destruct (decide (http.Host r = host)) as [<-|Hother].
    + rewrite lookup_insert_eq, Hr. cbn [option_map]. now f_equal.
    + now rewrite lookup_insert_ne.
  - intros Hwf host bs. destruct (decide (http.Host r = host)) as [<-|Hother].
    + rewrite lookup_insert_eq. intros [= <-].
      apply (well_formed_same backends backends' Hsame). now apply (Hwf (http.Host r)).
    + rewrite lookup_insert_ne by exact Hother. apply Hwf.
Qed.

(** X15. What a request does to the state of the proxy. When the routing
    cache has no backends for the host, nothing changes. When it has,
    exactly one selection counter is incremented, that of a backend of
    the host, also when the URL of that backend does not parse or the
    upstream fails. The routing cache keeps its hosts and, up to the
    scratch field [Ratio], their backends: the handler never adds,
    removes or reorders a backend. *)
Theorem proxyHandler_state_effect
    (st : State) (r : http.Request) (upstream : Upstream) (latencyMS : Z) :
  let st' := fst (proxyHandler st r upstream latencyMS) in
  (dnsRuleCache st !! http.Host r = None \/ dnsRuleCache st !! http.Host r = Some [] ->
   st' = st)
  /\ (forall backends,
        dnsRuleCache st !! http.Host r = Some backends -> backends <> [] ->
        exists b,
          In b backends
          /\ backendCountMap st' = increment (backendCountMap st) (URL b))
  /\ (forall host,
        option_map (map erase_Ratio) (dnsRuleCache st' !! host)
        = option_map (map erase_Ratio) (dnsRuleCache st !! host)).
Proof.
  cbv zeta. split.
  { intros Hnone. now rewrite (proxyHandler_unrouted st r upstream latencyMS Hnone). }
  split.
  { intros backends Hr Hne.
    destruct (proxyHandler_routed st r upstream latencyMS backends Hr Hne)
      as (backends' & b & ratio & Hb & _ & -> & _).
    now exists b. }
  apply proxyHandler_cache.
Qed.

Lemma handle_all_cache (reqs : list (http.Request * Upstream * Z)) :
  forall st,
    (forall host,
        option_map (map erase_Ratio) (dnsRuleCache (handle_all st reqs) !! host)
        = option_map (map erase_Ratio) (dnsRuleCache st !! host))
    /\ (well_formed (dnsRuleCache st) -> well_formed (dnsRuleCache (handle_all st reqs))).
Proof.
  induction reqs as [|[[r upstream] latencyMS] rest IH]; intros st; cbn [handle_all].
  - split; [reflexivity | trivial].
  - destruct (proxyHandler_cache st r upstream latencyMS) as [Hsame Hwf].
    destruct (IH (fst (proxyHandler st r upstream latencyMS))) as [Hsame' Hwf'].
    split.
    + intros host. now rewrite Hsame', Hsame.
    + intros Hst. apply Hwf'. now apply Hwf.
Qed.

(** X16. Between two refreshes the routing cache keeps its shape. After a
    successful refresh and any sequence of requests, every host that is
    cached has a non-empty list of active backends, and the hosts cached
    are those the refresh cached. A request is therefore answered with
    410 exactly when its host has no entry in the cache the refresh
    built: the test for an empty list in the handler never decides. *)
Theorem routing_cache_keeps_its_shape
    (db : Database) (st0 : State) (rows : list (option (Z * string)))
    (reqs : list (http.Request * Upstream * Z))
    (r : http.Request) (upstream : Upstream) (latencyMS : Z) :
  dns_rules db = Some rows ->
  let refreshed := refreshCache db st0 in
  let st := handle_all refreshed reqs in
  well_formed (dnsRuleCache st)
  /\ (forall host,
        is_Some (dnsRuleCache st !! host) <-> is_Some (dnsRuleCache refreshed !! host))
  /\ (In (gone r) (snd (proxyHandler st r upstream latencyMS))
      <-> dnsRuleCache refreshed !! http.Host r = None).
Proof.
  intros Hrows. cbv zeta.
  assert (Hwf0 : well_formed (dnsRuleCache (refreshCache db st0))).
  { unfold refreshCache. rewrite Hrows. cbn [dnsRuleCache].
    intros host backends Hlookup.
    destruct (cacheRules_lookup db rows _ _ _ Hlookup)
      as [Hempty | (ruleID & backendRows & _ & _ & -> & Hne)].
    - rewrite lookup_empty in Hempty. discriminate.
    - split; [exact Hne | apply collectBackends_active]. }
  destruct (handle_all_cache reqs (refreshCache db st0)) as [Hsame Hwf].
  specialize (Hwf Hwf0).
  assert (Hhosts : forall host,
             is_Some (dnsRuleCache (handle_all (refreshCache db st0) reqs) !! host)
             <-> is_Some (dnsRuleCache (refreshCache db st0) !! host)).
  { intros host. specialize (Hsame host).
    destruct (dnsRuleCache (handle_all (refreshCache db st0) reqs) !! host),
             (dnsRuleCache (refreshCache db st0) !! host);
      cbn in Hsame; try discriminate; split; intros [x Hx]; try discriminate;
      now eexists. }
  split; [exact Hwf |]. split; [exact Hhosts |].
  set (st := handle_all (refreshCache db st0) reqs) in *.
  destruct (dnsRuleCache st !! http.Host r) as [backends|] eqn:Hroute.
  - assert (Hne : backends <> []) by (now apply (Hwf (http.Host r))).
    destruct (proxyHandler_routed st r upstream latencyMS backends Hroute Hne)
      as (backends' & b & ratio & _ & _ & _ & ->).
    split.
    + intros Hin. exfalso. unfold gone in Hin.
      destruct (url_Parse (URL b)) as [targetHost|].
      * destruct Hin as [Hin | Hin]; [discriminate |].
        now apply serveEvents_kinds in Hin.
      * destruct Hin as [Hin | []]. discriminate.
    + intros Hnone. exfalso.
      assert (Hsome : is_Some (dnsRuleCache st !! http.Host r))
        by (rewrite Hroute; now eexists).
      apply Hhosts in Hsome. rewrite Hnone in Hsome. now destruct Hsome.
  - rewrite (proxyHandler_unrouted st r upstream latencyMS (or_introl Hroute)).
    split.
    + intros _. specialize (Hhosts (http.Host r)). rewrite Hroute in Hhosts.
      destruct (dnsRuleCache (refreshCache db st0) !! http.Host r) as [bs|];
        [| reflexivity].
      exfalso. assert (Hs : @is_Some (list Backend) None) by (apply Hhosts; now eexists).
      now destruct Hs.
    + intros _. now left.
Qed.

End HandlerFacts.

Section HandlerExamples.
Import models proxy IPv4.

(** An upgrade that fails after the backend has answered 101: the
    reverse proxy calls [ModifyResponse] and then [ErrorHandler], and
    the request is logged twice, the second time two milliseconds
    later. *)
Example failed_upgrade_is_logged_twice :
  snd (proxyHandler state_api_test (request_to "api.test" "/ws")
         {| callbacks := [ModifyResponse 101 0; ErrorHandler 2]; aborts := false |}
         12)
  = [ServeHTTP "u1" backend_u1;
     Go_logRequest "192.0.2.5:40000" "api.test" "/ws" 7 12 101 true;
     WriteHeader 502; Write "Bad Gateway";
     Go_logRequest "192.0.2.5:40000" "api.test" "/ws" 7 14 502 false].
Proof. vm_compute. reflexivity. Qed.

(** The copy of the response body breaks off: the entry is written and
    the handler ends in [panic(http.ErrAbortHandler)]. *)
Example broken_copy_aborts :
  snd (proxyHandler state_api_test (request_to "api.test" "/big")
         {| callbacks := [ModifyResponse 200 0]; aborts := true |} 12)
  = [ServeHTTP "u1" backend_u1;
     Go_logRequest "192.0.2.5:40000" "api.test" "/big" 7 12 200 true;
     PanicAbortHandler].
Proof. vm_compute. reflexivity. Qed.

Lemma routing_cache_keeps_its_shape_witness :
  dns_rules db_api_test = Some [Some (1, "api.test")]
  /\ (In (gone (request_to "nope.test" "/x"))
         (snd (proxyHandler
                 (handle_all (refreshCache db_api_test state_after_five)
                             [(request_to "api.test" "/", Responds 200, 3);
                              (request_to "api.test" "/", TransportError, 9)])
                 (request_to "nope.test" "/x") (Responds 200) 0))
      <-> dnsRuleCache (refreshCache db_api_test state_after_five) !! "nope.test" = None).
Proof.
  split; [reflexivity |].
  exact (proj2 (proj2 (routing_cache_keeps_its_shape db_api_test state_after_five
                         [Some (1, "api.test")]
                         [(request_to "api.test" "/", Responds 200, 3);
                          (request_to "api.test" "/", TransportError, 9)]
                         (request_to "nope.test" "/x") (Responds 200) 0 eq_refl))).
Defined.

End HandlerExamples.


(** ** Further properties of the log sink. *)
Section LogSinkRunFacts.
Import database.

Lemma execEntries_NoFault (entries : list LogEntry) :
  forall k pending, execEntries NoFault k entries pending = Some (pending ++ entries)%list.
Proof.
  induction entries as [|entry rest IH]; intros k pending; cbn [execEntries].
  - now rewrite app_nil_r.
  - rewrite IH. now rewrite <- app_assoc.
Qed.

Lemma batchInsert_NoFault (rows entries : list LogEntry) :
  batchInsert (Some rows) entries NoFault = (Some (rows ++ entries)%list, None).
Proof. unfold batchInsert. now rewrite execEntries_NoFault. Qed.

Lemma writeAttempts_reaches_success
    (faults : nat -> Fault) (rows entries : list LogEntry) (k : nat) :
  faults k = NoFault ->
  forall remaining attempt,
    (attempt <= k < attempt + remaining)%nat ->
    fst (writeAttempts remaining attempt faults (Some rows) entries)
    = Some (rows ++ entries)%list.
Proof.
  intros Hk. induction remaining as [|remaining IH]; intros attempt Hrange; [lia |].
  cbn [writeAttempts].
  destruct (batchInsert_all_or_nothing (Some rows) entries (faults attempt))
    as [[err Hfail] | (rows0 & [= <-] & Hok)].
  - rewrite Hfail.
    destruct (Nat.eq_dec attempt k) as [->|Hne].
    { rewrite Hk, batchInsert_NoFault in Hfail. discriminate. }
    specialize (IH (S attempt) ltac:(lia)).
    destruct (writeAttempts remaining (S attempt) faults (Some rows) entries)
      as [DB'' events]. exact IH.
  - rewrite Hok. reflexivity.
Qed.

(** A flush in which one of the three attempts meets no fault leaves the
    buffer empty and appends the batch to the table, in its order. *)
Lemma flush_persists_buffer
    (bl : BufferedLogger) (rows : list LogEntry) (faults : nat -> Fault) (k : nat) :
  (k < maxRetries)%nat -> faults k = NoFault ->
  buffer (fst (fst (flush bl faults (Some rows)))) = []
  /\ snd (fst (flush bl faults (Some rows))) = Some (rows ++ buffer bl)%list.
Proof.
  intros Hk Hfault. unfold flush.
  destruct (buffer bl) as [|entry rest] eqn:Hall.
  - cbn [fst snd]. rewrite Hall. now rewrite app_nil_r.
  - unfold writeToDatabase.
    pose proof (writeAttempts_reaches_success faults rows (entry :: rest) k Hfault
                  maxRetries 0 ltac:(lia)) as Hwrite.
    destruct (writeAttempts maxRetries 0 faults (Some rows) (entry :: rest))
      as [DB' events].
    cbn [fst snd] in *. now split.
Qed.

Lemma batchInsert_outcome (DB : Handle) (entries : list LogEntry) (fault : Fault) :
  (exists err, batchInsert DB entries fault = (DB, Some err)
               /\ (DB <> None -> fault <> NoFault))
  \/ (exists rows, DB = Some rows
        /\ batchInsert DB entries fault = (Some (rows ++ entries)%list, None)).
Proof.
  destruct (batchInsert_all_or_nothing DB entries fault)
    as [[err Hfail] | (rows & -> & Hok)].
  - left. exists err. split; [exact Hfail |].
    intros Hsome ->. destruct DB as [rows|]; [| contradiction].
    rewrite batchInsert_NoFault in Hfail. discriminate.
  - right. now exists rows.
Qed.

Lemma concat_fst_delete (l : list (list LogEntry * nat)) (i : nat)
    (entries : list LogEntry) (n : nat) :
  l !! i = Some (entries, n) ->
  Permutation (concat (map fst l)) (entries ++ concat (map fst (delete i l))).
Proof.
  revert i. induction l as [|[e m] l IH]; intros [|i] Hi; try discriminate.
  - cbn in Hi. injection Hi as -> ->. reflexivity.
  - cbn in Hi. simpl. rewrite (IH i Hi). solve_Permutation.
Qed.

Lemma concat_fst_insert (l : list (list LogEntry * nat)) (i : nat)
    (entries : list LogEntry) (n m : nat) :
  l !! i = Some (entries, n) ->
  concat (map fst (<[i := (entries, m)]> l)) = concat (map fst l).
Proof.
  revert i. induction l as [|[e k] l IH]; intros [|i] Hi; try discriminate.
  - cbn in Hi. injection Hi as -> ->. reflexivity.
  - cbn in Hi. simpl. now rewrite (IH i Hi).
Qed.

Lemma conserved_refl (s : Sink) : conserved s s [].
Proof.
  exists [], []. split; [now rewrite app_nil_r |].
  split; [now rewrite app_nil_r |]. solve_Permutation.
Qed.

Lemma conserved_trans (s s' s'' : Sink) (new new' : list LogEntry) :
  conserved s s' new -> conserved s' s'' new' ->
  conserved s s'' (new ++ new')%list.
Proof.
  intros (added & lost & Hrows & Hlost & Hperm)
         (added' & lost' & Hrows' & Hlost' & Hperm').
  exists (added ++ added')%list, (lost ++ lost')%list.
  split; [rewrite Hrows', Hrows; now rewrite app_assoc |].
  split; [rewrite Hlost', Hlost; now rewrite app_assoc |].
  transitivity (added ++ lost ++ (added' ++ held s'' ++ lost'))%list;
    [solve_Permutation |].
  rewrite Hperm'.
  transitivity ((added ++ held s' ++ lost) ++ new')%list; [solve_Permutation |].
  rewrite Hperm. solve_Permutation.
Qed.

Lemma enter_conserved (s : Sink) : conserved s (enter s) [].
Proof.
  unfold enter. destruct (buffer (logger s)) as [|entry rest] eqn:Hbuf;
    [apply conserved_refl |].
  exists [], []. split; [now rewrite app_nil_r |].
  split; [now rewrite app_nil_r |].
  unfold held. cbn [app logger writing given_up set_buffer buffer].
  rewrite Hbuf, List.map_app, concat_app. cbn [map concat fst].
  solve_Permutation.
Qed.

Lemma enter_frame (s : Sink) :
  table (enter s) = table s /\ given_up (enter s) = given_up s.
Proof. unfold enter. now destruct (buffer (logger s)). Qed.

(** One step. *)
Lemma step_conserved (s : Sink) (st : Step) :
  conserved s (step s st) (submitted [st])
  /\ (table s = None <-> table (step s st) = None)
  /\ (table s <> None -> faultless [st] -> given_up (step s st) = given_up s).
Proof.
  destruct st as [entry | | | i fault]; cbn [step submitted].
  - split; [| split; [reflexivity | reflexivity]].
    exists [], []. split; [now rewrite app_nil_r |].
    split; [now rewrite app_nil_r |].
    unfold held, call, LogRequest.
    cbn [app logger writing given_up set_buffer buffer].
    solve_Permutation.
  - unfold spawned. destruct (started s) as [|n].
    + split; [apply conserved_refl | now split].
    + set (s1 := {| logger := logger s; started := n; writing := writing s;
                    table := table s; given_up := given_up s |}).
      destruct (enter_frame s1) as [Htable Hlost].
      split; [exact (enter_conserved s1) |].
      rewrite Htable, Hlost. now split.
  - destruct (enter_frame s) as [Htable Hlost].
    split; [apply enter_conserved |]. rewrite Htable, Hlost. now split.
  - unfold attempt.
    destruct (writing s !! i) as [[entries n]|] eqn:Hi;
      [| split; [apply conserved_refl | now split]].
    destruct (batchInsert_outcome (table s) entries fault)
      as [(err & -> & Hfault) | (rows & Hrows & ->)].
    + destruct (S n <? maxRetries)%nat.
      * split; [| split; [reflexivity | reflexivity]].
        exists [], []. split; [now rewrite app_nil_r |].
        split; [now rewrite app_nil_r |].
        unfold held. cbn [app logger writing given_up].
        rewrite (concat_fst_insert _ _ _ _ _ Hi). solve_Permutation.
      * split; [| split; [reflexivity |]].
        -- exists [], entries. split; [now rewrite app_nil_r |].
           split; [reflexivity |].
           unfold held. cbn [app logger writing given_up].
           rewrite (concat_fst_delete _ _ _ _ Hi). solve_Permutation.
        -- intros Hsome Hok. exfalso. apply (Hfault Hsome).
           apply (Hok i). now left.
    + split; [| split].
      * exists entries, []. cbn [table]. rewrite Hrows.
        split; [reflexivity |]. split; [now rewrite app_nil_r |].
        unfold held. cbn [logger writing given_up rows_of].
        rewrite (concat_fst_delete _ _ _ _ Hi). solve_Permutation.
      * cbn [table]. rewrite Hrows. split; discriminate.
      * reflexivity.
Qed.

Lemma submitted_cons (st : Step) (steps : list Step) :
  submitted (st :: steps) = (submitted [st] ++ submitted steps)%list.
Proof. now destruct st. Qed.

(** X17. The log sink neither duplicates nor invents entries, however the
    calls of [LogRequest], the flushes they start, the flushes of the
    ticker and the attempts to write are interleaved: over any run the
    table only grows at its end, and the entries that were buffered or
    being written at the start, with those handed in during the run, are
    afterwards each in exactly one place: added to the table, still
    buffered or being written, or in a batch that was given up after its
    third failed attempt. With a database handle and no fault in any
    attempt, no batch is given up. *)
Theorem log_sink_conserves_entries (s : Sink) (steps : list Step) :
  (exists added lost,
      rows_of (table (run s steps)) = (rows_of (table s) ++ added)%list
      /\ given_up (run s steps) = (given_up s ++ lost)%list
      /\ Permutation (added ++ held (run s steps) ++ lost)
                     (held s ++ submitted steps))
  /\ (table s = None <-> table (run s steps) = None)
  /\ (table s <> None -> faultless steps -> given_up (run s steps) = given_up s).
Proof.
  change (conserved s (run s steps) (submitted steps)
          /\ (table s = None <-> table (run s steps) = None)
          /\ (table s <> None -> faultless steps ->
              given_up (run s steps) = given_up s)).
  revert s. induction steps as [|st steps IH]; intros s.
  - cbn [run fold_left submitted]. split; [apply conserved_refl | now split].
  - change (run s (st :: steps)) with (run (step s st) steps).
    destruct (step_conserved s st) as (Hstep & Hnil & Hkeep).
    destruct (IH (step s st)) as (Hrun & Hnil' & Hkeep').
    rewrite submitted_cons. split; [| split].
    + exact (conserved_trans _ _ _ _ _ Hstep Hrun).
    + now rewrite Hnil.
    + intros Hsome Hok. rewrite Hkeep'.
      * apply (Hkeep Hsome). intros i fault [Heq | []]. apply (Hok i). now left.
      * now rewrite <- Hnil.
      * intros i fault Hin. apply (Hok i). now right.
Qed.

(** A flush that no other goroutine interleaves with is the function
    [flush]. *)
Lemma flush_as_steps (s : Sink) (faults : nat -> Fault) :
  writing s = [] ->
  let s' := run s [Tick; Attempt 0 (faults 0%nat); Attempt 0 (faults 1%nat);
                   Attempt 0 (faults 2%nat)] in
  logger s' = fst (fst (flush (logger s) faults (table s)))
  /\ table s' = snd (fst (flush (logger s) faults (table s)))
  /\ writing s' = [].
Proof.
  destruct s as [[buf size time] n w DB lost]. cbn [writing logger table].
  intros ->. cbv zeta. unfold run, flush. cbn [fold_left step].
  unfold enter. cbn [logger buffer]. destruct buf as [|entry rest].
  - cbn. now split.
  - unfold writeToDatabase, maxRetries, set_buffer, attempt.
    cbn -[batchInsert].
    destruct (batchInsert DB (entry :: rest) (faults 0%nat)) as [DB1 [err1|]];
      cbn -[batchInsert]; [| now split].
    destruct (batchInsert DB1 (entry :: rest) (faults 1%nat)) as [DB2 [err2|]];
      cbn -[batchInsert]; [| now split].
    destruct (batchInsert DB2 (entry :: rest) (faults 2%nat)) as [DB3 [err3|]];
      cbn -[batchInsert]; now split.
Qed.

(** X18. While the database handle is nil, a flush of a non-empty buffer
    loses the batch: each of the three attempts fails at once with
    [database not initialized], the waits of 100 ms and 200 ms are still
    served, and the buffer is empty afterwards. *)
Theorem flush_without_database_drops_batch
    (bl : BufferedLogger) (faults : nat -> Fault) :
  buffer bl <> [] ->
  flush bl faults None
  = (set_buffer bl [], None,
     [BatchInsert (Some ErrNotInitialized); LogAttemptFailed 1 ErrNotInitialized;
      Sleep (retry_delay 1);
      BatchInsert (Some ErrNotInitialized); LogAttemptFailed 2 ErrNotInitialized;
      Sleep (retry_delay 2);
      BatchInsert (Some ErrNotInitialized); LogAttemptFailed 3 ErrNotInitialized;
      LogGaveUp (length (buffer bl)) 3 ErrNotInitialized]).
Proof.
  intros Hne. unfold flush.
  destruct (buffer bl) as [|entry rest]; [contradiction |].
  reflexivity.
Qed.

End LogSinkRunFacts.

Section LogSinkRunExamples.
Import database.

(** A flush started by [LogRequest] and a flush of the ticker, whose
    batches reach the table in the other order. *)
Example batches_overtake :
  let s := run small_sink
             [Call (entry_of "/a"); Call (entry_of "/b"); Spawned;
              Call (entry_of "/c"); Tick;
              Attempt 1 NoFault; Attempt 0 NoFault] in
  table s = Some [entry_of "/c"; entry_of "/a"; entry_of "/b"]
  /\ held s = [] /\ given_up s = [] /\ started s = 0%nat.
Proof. vm_compute. repeat split. Qed.

(** A batch is given up at its third failed attempt. *)
Example batch_given_up :
  let s := run small_sink
             [Call (entry_of "/a"); Tick;
              Attempt 0 BeginFails; Attempt 0 CommitFails; Attempt 0 (ExecFails 0)] in
  table s = Some [] /\ held s = [] /\ given_up s = [entry_of "/a"].
Proof. vm_compute. repeat split. Qed.

Lemma flush_without_database_drops_batch_witness :
  buffer (fst (LogRequest empty_logger (entry_of "/a"))) <> []
  /\ fst (flush (fst (LogRequest empty_logger (entry_of "/a"))) busy_once None)
     = (empty_logger, None).
Proof.
  assert (Hne : buffer (fst (LogRequest empty_logger (entry_of "/a"))) <> [])
    by discriminate.
  split; [exact Hne |].
  rewrite (flush_without_database_drops_batch _ busy_once Hne). reflexivity.
Defined.

End LogSinkRunExamples.

(** ** Further properties of the retention sweeper. *)
Section RetentionRunFacts.
Import main.

Lemma filter_all {A : Type} (l : list A) : List.filter (fun _ => true) l = l.
Proof. induction l as [|x l IH]; [reflexivity |]. cbn. now rewrite IH. Qed.

Lemma matches_host_other (env : Env) (host h : string) (cutoff : Z)
    (row : RequestLogRow) :
  hostname row = Some h -> h <> host -> matches_host env host cutoff row = false.
Proof.
  intros Hrow Hne. unfold matches_host. rewrite Hrow.
  now destruct (String.eqb_spec h host).
Qed.

Lemma matches_default_named (env : Env) (h : string) (cutoff : Z)
    (row : RequestLogRow) :
  hostname row = Some h -> h <> "" -> matches_default env cutoff row = false.
Proof.
  intros Hrow Hne. unfold matches_default. rewrite Hrow.
  now destruct (String.eqb_spec h "").
Qed.

Lemma pruneRules_only_deletes (env : Env) (rules : list (option (string * Z))) :
  forall s,
  exists keep,
    request_logs (pruneRules env rules s) = List.filter keep (request_logs s)
    /\ (forall row h, hostname row = Some h -> unnamed_host rules h -> keep row = true).
Proof.
  induction rules as [|rule rest IH]; intros s.
  - exists (fun _ => true). split; [now rewrite filter_all | reflexivity].
  - assert (Hrest : forall h, unnamed_host (rule :: rest) h -> unnamed_host rest h).
    { intros h Hh days Hin. apply (Hh days). now right. }
    destruct rule as [[host days]|]; cbn [pruneRules].
    + destruct (exec_fails env (execs s)).
      * destruct (IH {| request_logs := request_logs s; execs := S (execs s);
                        readings := S (readings s);
                        totalRowsPruned := totalRowsPruned s;
                        output := (output s ++ [ErrPruning host])%list |})
          as (keep & Heq & Hkeep).
        exists keep. split; [exact Heq |].
        intros row h Hrow Hh. apply (Hkeep row h Hrow). now apply Hrest.
      * unfold delete_where.
        match goal with
        | |- context [pruneRules env rest ?s1] =>
            destruct (IH s1) as (keep & Heq & Hkeep)
        end.
        cbn [request_logs] in Heq.
        set (cutoff := AddDate_days _ _) in *.
        exists (fun row => negb (matches_host env host cutoff row) && keep row).
        split.
        -- rewrite Heq. apply filter_filter.
        -- intros row h Hrow Hh.
           rewrite (matches_host_other env host h cutoff row Hrow).
           ++ cbn [negb andb]. apply (Hkeep row h Hrow). now apply Hrest.
           ++ intros ->. apply (Hh days). now left.
    + destruct (IH (say s ErrScanningRule)) as (keep & Heq & Hkeep).
      exists keep. split; [exact Heq |].
      intros row h Hrow Hh. apply (Hkeep row h Hrow). now apply Hrest.
Qed.

(** X19. A sweep only deletes: whatever the rules, the clock readings and
    the deletes that fail, the table after the sweep is the table before
    it with some rows filtered out, the rows that stay being unchanged
    and in their order. A row with a non-empty host that no rule names is
    never deleted, however old it is. When the query on the rules fails,
    no row is deleted. *)
Theorem pruneOldLogs_only_deletes (env : Env) (rows : list RequestLogRow) :
  (dns_rules env = None -> fst (pruneOldLogs env rows) = rows)
  /\ exists keep,
       fst (pruneOldLogs env rows) = List.filter keep rows
       /\ (forall rules row h,
             dns_rules env = Some rules ->
             hostname row = Some h -> h <> "" -> unnamed_host rules h ->
             keep row = true).
Proof.
  unfold pruneOldLogs. split.
  { intros ->. reflexivity. }
  destruct (dns_rules env) as [rules|].
  2:{ exists (fun _ => true). split; [now rewrite filter_all | reflexivity]. }
  cbn [fst].
  set (s0 := {| request_logs := rows; execs := 0; readings := 0;
                totalRowsPruned := 0; output := [] |}).
  destruct (pruneRules_only_deletes env rules s0) as (keep & Heq & Hkeep).
  cbn [request_logs] in Heq.
  unfold pruneDefault. destruct (exec_fails env (execs (pruneRules env rules s0))).
  - cbn [request_logs]. exists keep. split; [exact Heq |].
    intros rules0 row h [= <-] Hrow _ Hh. now apply (Hkeep row h).
  - unfold delete_where. cbn [request_logs].
    set (cutoff := AddDate_days _ _).
    exists (fun row => keep row && negb (matches_default env cutoff row)).
    split.
    + rewrite Heq. apply filter_filter.
    + intros rules0 row h [= <-] Hrow Hne Hh.
      rewrite (Hkeep row h Hrow Hh), (matches_default_named env h cutoff row Hrow Hne).
      reflexivity.
Qed.

Lemma wrap_small (z : Z) : GoInt.in_range z -> GoInt.wrap z = z.
Proof.
  unfold GoInt.in_range, GoInt.wrap, GoInt.min_int, GoInt.max_int. intros Hz.
  rewrite Z.mod_small by lia. lia.
Qed.

Lemma filter_split_length {A : Type} (p : A -> bool) (l : list A) :
  (length (List.filter p l) + length (List.filter (fun x => negb (p x)) l)
   = length l)%nat.
Proof.
  induction l as [|x l IH]; [reflexivity |].
  cbn [List.filter]. destruct (p x); cbn [negb length]; lia.
Qed.

Lemma delete_where_accounted (total : Z) (s : Sweep) (p : RequestLogRow -> bool) :
  total <= GoInt.max_int -> accounted total s ->
  let '(rows', rowsAffected) := delete_where p (request_logs s) in
  0 <= GoInt.wrap (totalRowsPruned s + rowsAffected)
  /\ GoInt.wrap (totalRowsPruned s + rowsAffected) + Z.of_nat (length rows') = total.
Proof.
  intros Hmax [Hpos Hsum]. unfold delete_where.
  pose proof (filter_split_length p (request_logs s)) as Hsplit.
  rewrite wrap_small.
  - lia.
  - unfold GoInt.in_range, GoInt.min_int. lia.
Qed.

Lemma pruneRules_accounted (env : Env) (total : Z) (rules : list (option (string * Z))) :
  total <= GoInt.max_int ->
  forall s, accounted total s -> accounted total (pruneRules env rules s).
Proof.
  intros Hmax. induction rules as [|rule rest IH]; intros s Hs; [exact Hs |].
  destruct rule as [[host days]|]; cbn [pruneRules].
  - destruct (exec_fails env (execs s)); [now apply IH |].
    set (p := matches_host env host _).
    pose proof (delete_where_accounted total s p Hmax Hs) as Hdel.
    destruct (delete_where p (request_logs s)) as [rows' rowsAffected].
    apply IH. exact Hdel.
  - apply IH. exact Hs.
Qed.

Lemma sweep_accounted (env : Env) (rules : list (option (string * Z)))
    (rows : list RequestLogRow) :
  Z.of_nat (length rows) <= GoInt.max_int ->
  accounted (Z.of_nat (length rows))
    (pruneDefault env
       (pruneRules env rules
          {| request_logs := rows; execs := 0; readings := 0;
             totalRowsPruned := 0; output := [] |})).
Proof.
  intros Hmax.
  set (s0 := {| request_logs := rows; execs := 0; readings := 0;
                totalRowsPruned := 0; output := [] |}).
  assert (H0 : accounted (Z.of_nat (length rows)) s0) by (split; cbn; lia).
  pose proof (pruneRules_accounted env _ rules Hmax s0 H0) as H1.
  set (s1 := pruneRules env rules s0) in *.
  unfold pruneDefault. destruct (exec_fails env (execs s1)); [exact H1 |].
  set (p := matches_default env _).
  pose proof (delete_where_accounted _ s1 p Hmax H1) as Hdel.
  destruct (delete_where p (request_logs s1)) as [rows' rowsAffected].
  exact Hdel.
Qed.

Lemma last_line_snoc (lines : list LogLine) (line : LogLine) :
  last_line (lines ++ [line])%list = Some line.
Proof. unfold last_line. rewrite List.map_app. cbn [map]. apply last_last. Qed.

(** X20. The total a sweep reports in its closing line is the number of
    rows it removed from the table (for a table of fewer than 2^63
    rows), whichever deletes failed. *)
Theorem pruneOldLogs_reports_rows_removed
    (env : Env) (rules : list (option (string * Z))) (rows : list RequestLogRow) :
  dns_rules env = Some rules ->
  Z.of_nat (length rows) <= GoInt.max_int ->
  last_line (snd (pruneOldLogs env rows))
  = Some (Completed (Z.of_nat (length rows)
                     - Z.of_nat (length (fst (pruneOldLogs env rows))))).
Proof.
  intros Hrules Hmax. unfold pruneOldLogs. rewrite Hrules. cbn [fst snd].
  destruct (sweep_accounted env rules rows Hmax) as [_ Hsum].
  rewrite last_line_snoc. f_equal. f_equal. lia.
Qed.

(** X21. Sweeping is idempotent: a second sweep at the same instant, with
    the same rules and no failing delete, removes no further row and
    reports a total of 0. *)
Theorem second_sweep_removes_nothing
    (env : Env) (rules : list (option (string * Z))) (now : Z)
    (rows : list RequestLogRow) :
  dns_rules env = Some rules ->
  (forall k, exec_fails env k = false) ->
  (forall k, clock env k = now) ->
  Z.of_nat (length rows) <= GoInt.max_int ->
  let swept := fst (pruneOldLogs env rows) in
  fst (pruneOldLogs env swept) = swept
  /\ last_line (snd (pruneOldLogs env swept)) = Some (Completed 0).
Proof.
  intros Hrules Hexec Hclock Hmax. cbv zeta.
  set (gone := fun row =>
                existsb (swept_by_rule env now row) rules
                || matches_default env (AddDate_days now (- 30)) row).
  assert (Htable : forall table,
             fst (pruneOldLogs env table)
             = List.filter (fun row => negb (gone row)) table).
  { intros table. exact (pruneOldLogs_swept env rules now table Hrules Hexec Hclock). }
  assert (Hagain : fst (pruneOldLogs env (fst (pruneOldLogs env rows)))
                   = fst (pruneOldLogs env rows)).
  { rewrite (Htable (fst (pruneOldLogs env rows))), (Htable rows), filter_filter.
    apply filter_ext_bool. intros row. now destruct (gone row). }
  split; [exact Hagain |].
  assert (Hshort : Z.of_nat (length (fst (pruneOldLogs env rows))) <= GoInt.max_int).
  { rewrite (Htable rows).
    pose proof (filter_split_length (fun row => negb (gone row)) rows)
      as Hsplit.
    cbv beta in Hsplit. lia. }
  pose proof (f_equal (@length _) Hagain) as Hlen.
  revert Hlen Hshort. generalize (fst (pruneOldLogs env rows)). intros swept Hlen Hshort.
  unfold pruneOldLogs in *. rewrite Hrules in *. cbn [fst snd] in *.
  destruct (sweep_accounted env rules swept Hshort) as [_ Hsum].
  rewrite last_line_snoc. f_equal. f_equal. lia.
Qed.

End RetentionRunFacts.

Section RetentionRunExamples.
Import main.

(** The delete for [b.test] fails: its old row stays, the row of
    [a.test] and the row without host go, and the total is 2. *)
Example sweep_with_failing_delete :
  pruneOldLogs flaky_env flaky_rows
  = ([row_of 2 (Some "b.test") (day 1); row_of 4 (Some "c.test") (day 1)],
     [Pruned 1 "a.test" 30; ErrPruning "b.test"; PrunedDefault 1; Completed 2]).
Proof. vm_compute. reflexivity. Qed.

Lemma pruneOldLogs_reports_rows_removed_witness :
  dns_rules flaky_env = Some [Some ("a.test", 0); Some ("b.test", 7)]
  /\ Z.of_nat (length flaky_rows) <= GoInt.max_int
  /\ last_line (snd (pruneOldLogs flaky_env flaky_rows))
     = Some (Completed (Z.of_nat (length flaky_rows)
                        - Z.of_nat (length (fst (pruneOldLogs flaky_env flaky_rows))))).
Proof.
  assert (Hmax : Z.of_nat (length flaky_rows) <= GoInt.max_int)
    by (vm_compute; discriminate).
  split; [reflexivity |]. split; [exact Hmax |].
  exact (pruneOldLogs_reports_rows_removed flaky_env
           [Some ("a.test", 0); Some ("b.test", 7)] flaky_rows eq_refl Hmax).
Defined.

Lemma second_sweep_removes_nothing_witness :
  dns_rules sweep_env = Some [Some ("a.test", 0); Some ("b.test", 7)]
  /\ pruneOldLogs sweep_env
       (fst (pruneOldLogs sweep_env
               [row_of 1 (Some "a.test") (day 1); row_of 2 (Some "b.test") (day 99)]))
     = ([row_of 2 (Some "b.test") (day 99)], [Completed 0]).
Proof.
  split; [reflexivity |].
  destruct (second_sweep_removes_nothing sweep_env
              [Some ("a.test", 0); Some ("b.test", 7)] (day 100)
              [row_of 1 (Some "a.test") (day 1); row_of 2 (Some "b.test") (day 99)]
              eq_refl (fun _ => eq_refl) (fun _ => eq_refl)
              ltac:(vm_compute; discriminate)) as [Htable _].
  apply injective_projections; [rewrite Htable |]; vm_compute; reflexivity.
Defined.

End RetentionRunExamples.

(** ** The backend health checker. *)
Section HealthFacts.
Import handlers.

Lemma scanRows_result (rows : list (option (Z * string * string))) :
  forall urlsToCheck urlMap,
    (fold_left scanRow rows (urlsToCheck, urlMap)).1
    = (urlsToCheck ++ monitored rows)%list
    /\ (forall url,
          needs_check (fold_left scanRow rows (urlsToCheck, urlMap)).2 url = true
          <-> needs_check urlMap url = true \/ In url (monitored rows)).
Proof.
  induction rows as [|row rest IH]; intros urlsToCheck urlMap;
    cbn [fold_left monitored].
  - rewrite app_nil_r. split; [reflexivity |]. intros url. cbn [snd].
    split; [now left | intros [Hneed | []]; exact Hneed].
  - destruct row as [[[dnsID hostname] backendURL]|]; cbn [scanRow].
    + destruct (IH (urlsToCheck ++ [backendURL])%list (<[backendURL := true]> urlMap))
        as [Hurls Hmap].
      split; [rewrite Hurls; now rewrite <- app_assoc |].
      intros url. rewrite Hmap. unfold needs_check. cbn [In].
      destruct (decide (backendURL = url)) as [->|Hne].
      * rewrite lookup_insert_eq. cbn. tauto.
      * rewrite lookup_insert_ne by exact Hne. intuition congruence.
    + apply IH.
Qed.

Lemma monitored_rows (rows : list (option (Z * string * string))) (url : string) :
  In url (monitored rows)
  <-> exists dnsID hostname, In (Some (dnsID, hostname, url)) rows.
Proof.
  induction rows as [|row rest IH]; cbn [monitored].
  - split; [intros [] | intros (d & h & [])].
  - destruct row as [[[dnsID hostname] backendURL]|]; cbn [In]; rewrite ?IH.
    + split.
      * intros [<- | (d & h & Hin)]; [exists dnsID, hostname; now left |].
        exists d, h. now right.
      * intros (d & h & [[= _ _ <-] | Hin]); [now left |]. right. now exists d, h.
    + split.
      * intros (d & h & Hin). exists d, h. now right.
      * intros (d & h & [Hin | Hin]); [discriminate |]. now exists d, h.
Qed.

Lemma storeVerdicts_lookup (urlsToCheck : list string) (probe : nat -> option Z)
    (schedule : list nat) :
  forall healthStatus url healthy,
    fold_left (storeVerdict urlsToCheck probe) schedule healthStatus !! url
    = Some healthy ->
    (healthStatus !! url = Some healthy
     /\ forall k, In k schedule -> nth_error urlsToCheck k <> Some url)
    \/ exists k,
         In k schedule /\ nth_error urlsToCheck k = Some url
         /\ healthy = checkBackendHealth (probe k).
Proof.
  induction schedule as [|k rest IH]; intros healthStatus url healthy;
    cbn [fold_left].
  - intros Hlookup. left. split; [exact Hlookup | intros k []].
  - intros Hlookup.
    destruct (IH _ _ _ Hlookup) as [[Hhere Hnone] | (k' & Hin & Hk' & Hv)].
    + unfold storeVerdict in Hhere.
      destruct (nth_error urlsToCheck k) as [written|] eqn:Hk.
      * destruct (decide (written = url)) as [->|Hne].
        -- rewrite lookup_insert_eq in Hhere. injection Hhere as <-.
           right. exists k. split; [now left | now split].
        -- rewrite lookup_insert_ne in Hhere by exact Hne.
           left. split; [exact Hhere |].
           intros j [<- | Hj]; [congruence | now apply Hnone].
      * left. split; [exact Hhere |].
        intros j [<- | Hj]; [congruence | now apply Hnone].
    + right. exists k'. split; [now right | now split].
Qed.

Lemma storeVerdicts_keeps (urlsToCheck : list string) (probe : nat -> option Z)
    (schedule : list nat) :
  forall healthStatus url,
    is_Some (healthStatus !! url) ->
    is_Some (fold_left (storeVerdict urlsToCheck probe) schedule healthStatus !! url).
Proof.
  induction schedule as [|k rest IH]; intros healthStatus url Hhere;
    cbn [fold_left]; [exact Hhere |].
  apply IH. unfold storeVerdict.
  destruct (nth_error urlsToCheck k) as [written|]; [| exact Hhere].
  destruct (decide (written = url)) as [->|Hne].
  - rewrite lookup_insert_eq. now eexists.
  - now rewrite lookup_insert_ne.
Qed.

Lemma storeVerdicts_stores (urlsToCheck : list string) (probe : nat -> option Z)
    (schedule : list nat) :
  forall healthStatus k url,
    In k schedule -> nth_error urlsToCheck k = Some url ->
    is_Some (fold_left (storeVerdict urlsToCheck probe) schedule healthStatus !! url).
Proof.
  induction schedule as [|j rest IH]; intros healthStatus k url Hin Hk;
    cbn [fold_left]; [destruct Hin |].
  destruct Hin as [-> | Hin]; [| now apply (IH _ k)].
  apply storeVerdicts_keeps. unfold storeVerdict. rewrite Hk.
  rewrite lookup_insert_eq. now eexists.
Qed.

Lemma checkBackendHealth_spec (resp : option Z) :
  checkBackendHealth resp = true <-> answered_below_500 resp.
Proof.
  unfold checkBackendHealth, answered_below_500. destruct resp as [code|].
  - rewrite andb_true_iff, Z.leb_le, Z.ltb_lt. split.
    + intros Hcode. now exists code.
    + intros (code' & [= <-] & Hcode). exact Hcode.
  - split; [discriminate | intros (code & Hnone & _); discriminate].
Qed.

(** X22. After a health sweep whose query succeeds, the health map holds
    a verdict exactly for the backend URLs the query returned (in rows
    that scan): the entries of URLs that are no longer monitored are
    gone, and every verdict is that of a probe of this sweep, whatever it
    was before. A backend counts as healthy exactly when its probe was
    answered with a status from 200 to 499; an error, a timeout or a
    status of 500 and above make it unhealthy. This holds for every order
    in which the concurrent probes finish. When the query fails the map
    is left as it was. *)
Theorem health_sweep_result
    (rows : list (option (Z * string * string))) (probe : nat -> option Z)
    (schedule : list nat) (healthStatus : gmap string bool) :
  Permutation schedule (seq 0 (length (monitored rows))) ->
  let healthStatus' :=
    checkHealthForEnabledDNSRules (Some rows) probe schedule healthStatus in
  checkHealthForEnabledDNSRules None probe schedule healthStatus = healthStatus
  /\ (forall url,
        is_Some (healthStatus' !! url)
        <-> exists dnsID hostname, In (Some (dnsID, hostname, url)) rows)
  /\ (forall url healthy,
        healthStatus' !! url = Some healthy ->
        exists k,
          nth_error (monitored rows) k = Some url
          /\ (healthy = true <-> answered_below_500 (probe k))).
Proof.
  intros Hschedule. cbv zeta. split; [reflexivity |].
  unfold checkHealthForEnabledDNSRules.
  destruct (scanRows_result rows [] ∅) as [Hurls Hmap].
  destruct (fold_left scanRow rows ([], ∅)) as [urlsToCheck urlMap].
  cbn [fst snd app] in Hurls, Hmap. subst urlsToCheck.
  assert (Hneeds : forall url, needs_check urlMap url = true <-> In url (monitored rows)).
  { intros url. rewrite Hmap. unfold needs_check. rewrite lookup_empty. cbn.
    intuition discriminate. }
  assert (Hprobed : forall url,
             In url (monitored rows) ->
             exists k, In k schedule /\ nth_error (monitored rows) k = Some url).
  { intros url Hin. apply In_nth_error in Hin. destruct Hin as [k Hk].
    exists k. split; [| exact Hk].
    apply (Permutation_in k (Permutation_sym Hschedule)).
    apply in_seq. split; [lia |]. cbn. apply nth_error_Some. congruence. }
  split.
  - intros url. rewrite <- monitored_rows. split.
    + intros [healthy Hlookup].
      destruct (storeVerdicts_lookup _ _ _ _ _ _ Hlookup)
        as [[Hold _] | (k & _ & Hk & _)].
      * unfold evict in Hold. apply map_lookup_filter_Some in Hold.
        destruct Hold as [_ Hneed]. now apply Hneeds.
      * now apply nth_error_In with k.
    + intros Hin. destruct (Hprobed url Hin) as (k & Hk & Hurl).
      now apply (storeVerdicts_stores _ _ _ _ k).
  - intros url healthy Hlookup.
    destruct (storeVerdicts_lookup _ _ _ _ _ _ Hlookup)
      as [[Hold Hnever] | (k & _ & Hk & ->)].
    + exfalso. unfold evict in Hold. apply map_lookup_filter_Some in Hold.
      destruct Hold as [_ Hneed]. apply Hneeds in Hneed.
      destruct (Hprobed url Hneed) as (k & Hk & Hurl). now apply (Hnever k).
    + exists k. split; [exact Hk | apply checkBackendHealth_spec].
Qed.

End HealthFacts.

Section HealthExamples.
Import handlers.

(** Two rules share [http://u1]: it is probed twice, and the verdict
    that stays is the one of the probe that finishes last. *)
Example shared_backend_last_probe_wins :
  checkHealthForEnabledDNSRules (Some health_rows) health_probe [0; 1; 2]%nat
                                health_before
  = {[ "http://u1" := false; "http://u2" := false ]}
  /\ checkHealthForEnabledDNSRules (Some health_rows) health_probe [2; 1; 0]%nat
                                   health_before
     = {[ "http://u1" := true; "http://u2" := false ]}.
Proof. split; vm_compute; reflexivity. Qed.

Lemma health_sweep_result_witness :
  Permutation [2; 0; 1]%nat (seq 0 (length (monitored health_rows)))
  /\ (is_Some (checkHealthForEnabledDNSRules (Some health_rows) health_probe
                 [2; 0; 1]%nat health_before !! "http://gone")
      <-> exists dnsID hostname, In (Some (dnsID, hostname, "http://gone")) health_rows).
Proof.
  assert (Hperm : Permutation [2; 0; 1]%nat (seq 0 (length (monitored health_rows)))).
  { cbn. apply Permutation_sym.
    apply perm_trans with [0; 2; 1]%nat.
    - apply perm_skip. apply perm_swap.
    - apply perm_swap. }
  split; [exact Hperm |].
  exact (proj1 (proj2 (health_sweep_result health_rows health_probe [2; 0; 1]%nat
                         health_before Hperm)) "http://gone").
Defined.

End HealthExamples.

(** ** The cleanup and the decisions of the limiter. *)
Section CleanupDecisionFacts.
Import middleware.

(** The outcome of a counted request is decided by the counter of the
    client for the host. *)
Lemma countRequest_outcome
    (rl : RateLimiter) (ip hostname : string) (now quota interval : Z) :
  snd (countRequest rl ip hostname now quota interval)
  = match counter rl ip hostname with
    | Some hostCount =>
        if interval <? GoTime.Sub now (hc_lastSeen hostCount) then Next
        else verdict quota (GoInt.incr (hc_count hostCount))
    | None => Next
    end.
Proof.
  unfold countRequest, counter, verdict.
  destruct (ipMap rl !! ip) as [limit|]; [| reflexivity].
  destruct (hostCounts limit !! hostname) as [hostCount|]; [| reflexivity].
  destruct (interval <? GoTime.Sub now (hc_lastSeen hostCount)); [reflexivity |].
  cbv zeta. cbn [hc_count].
  now destruct (quota <? GoInt.incr (hc_count hostCount)).
Qed.

Lemma cleanup_counter (rl : RateLimiter) (now : Z) (ip hostname : string) :
  counter (cleanup rl now) ip hostname = counter rl ip hostname
  \/ counter (cleanup rl now) ip hostname = None.
Proof.
  unfold counter, cleanup, set_ipMap. cbn [ipMap]. rewrite lookup_omap.
  destruct (ipMap rl !! ip) as [limit|]; cbn; [| now left].
  unfold cleanupLimit.
  destruct (GoTime.mul 3 (defaultInterval rl) <? GoTime.Sub now (lastSeen limit));
    [now right |].
  cbn [hostCounts]. unfold cleanupHostCounts.
  destruct (filter _ (hostCounts limit) !! hostname) as [hostCount|] eqn:Hkept;
    [| now right].
  apply map_lookup_filter_Some in Hkept. destruct Hkept as [Hthere _].
  left. now rewrite Hthere.
Qed.

(** X23. The cleanup never makes the limiter stricter: a request handled
    after a tick of the cleanup gets the outcome it would have got
    without the tick, or passes. *)
Theorem cleanup_never_causes_rejection (rl : RateLimiter) (t : Z) (c : Ctx) (now : Z) :
  snd (RateLimiterMiddleware (cleanup rl t) c now)
  = snd (RateLimiterMiddleware rl c now)
  \/ snd (RateLimiterMiddleware (cleanup rl t) c now) = Next.
Proof.
  unfold RateLimiterMiddleware.
  change (dnsConfigMap (cleanup rl t)) with (dnsConfigMap rl).
  change (defaultMaxRequests (cleanup rl t)) with (defaultMaxRequests rl).
  change (defaultInterval (cleanup rl t)) with (defaultInterval rl).
  destruct (is_admin_path (ctx_Path c)); [now left |].
  assert (Hcount : forall quota interval,
             snd (countRequest (cleanup rl t) (ctx_IP c) (ctx_Hostname c) now
                               quota interval)
             = snd (countRequest rl (ctx_IP c) (ctx_Hostname c) now quota interval)
             \/ snd (countRequest (cleanup rl t) (ctx_IP c) (ctx_Hostname c) now
                                  quota interval) = Next).
  { intros quota interval. rewrite !countRequest_outcome.
    destruct (cleanup_counter rl t (ctx_IP c) (ctx_Hostname c)) as [-> | ->];
      [now left | now right]. }
  destruct (dnsConfigMap rl !! ctx_Hostname c) as [config|]; [| apply Hcount].
  destruct (Enabled config); [apply Hcount | now left].
Qed.

End CleanupDecisionFacts.

Section CleanupDecisionExamples.
Import middleware.

(** The cleanup can lift a limit before its period is over: the host
    allows 2 requests per hour and the client has sent 5; a sixth request
    after 5 minutes is rejected, but passes when a tick of the cleanup
    after 4 minutes has dropped the client, idle for more than 3 default
    intervals of one minute. *)
Example cleanup_lifts_a_long_limit :
  snd (RateLimiterMiddleware hourly_limiter ping (seconds 300))
  = StatusJSON 429 rate_limit_message
  /\ snd (RateLimiterMiddleware (cleanup hourly_limiter (seconds 240)) ping
                                (seconds 300))
     = Next.
Proof. split; vm_compute; reflexivity. Qed.

End CleanupDecisionExamples.

(** ** The token check of the admin API. *)
Section TokenCheckFacts.
Import middleware.
Variable strings_ToLower : string -> string.
Variable jwt_Parse : string -> Parsed.

Lemma Contains_char (sep c : ascii) (s : string) :
  GoStrings.Contains (String c s) (String sep "")
  = (Ascii.eqb sep c || GoStrings.Contains s (String sep ""))%bool.
Proof.
  cbn [GoStrings.Contains GoStrings.HasPrefix].
  destruct (Ascii.eqb sep c); [now destruct s | reflexivity].
Qed.

Lemma Split_nonempty (sep : ascii) (s : string) : GoStrings.Split sep s <> [].
Proof.
  destruct s as [|c s]; cbn [GoStrings.Split]; [discriminate |].
  destruct (Ascii.eqb c sep); [discriminate |].
  destruct (GoStrings.Split sep s); discriminate.
Qed.

Lemma Split_one (sep : ascii) (s : string) :
  forall a,
    GoStrings.Split sep s = [a]
    <-> s = a /\ GoStrings.Contains a (String sep "") = false.
Proof.
  induction s as [|c s IH]; intros a; cbn [GoStrings.Split].
  - split.
    + intros [= <-]. now split.
    + intros [<- _]. reflexivity.
  - destruct (Ascii.eqb_spec c sep) as [->|Hne].
    + split.
      * intros [= _ Hrest]. now apply Split_nonempty in Hrest.
      * intros [<- Hc]. rewrite Contains_char, Ascii.eqb_refl in Hc. discriminate.
    + pose proof (Split_nonempty sep s) as Hsplit.
      destruct (GoStrings.Split sep s) as [|first rest]; [contradiction |].
      split.
      * intros [= <- ->]. destruct (proj1 (IH first) eq_refl) as [-> Hfirst].
        split; [reflexivity |]. rewrite Contains_char, Hfirst.
        destruct (Ascii.eqb_spec sep c) as [Heq|_]; [now subst | reflexivity].
      * intros [<- Hc]. rewrite Contains_char in Hc.
        apply orb_false_iff in Hc. destruct Hc as [_ Hc].
        pose proof (proj2 (IH s) (conj eq_refl Hc)) as Hs.
        now injection Hs as -> ->.
Qed.

Lemma Split_two (sep : ascii) (s : string) :
  forall a b,
    GoStrings.Split sep s = [a; b]
    <-> s = a +:+ String sep b
        /\ GoStrings.Contains a (String sep "") = false
        /\ GoStrings.Contains b (String sep "") = false.
Proof.
  induction s as [|c s IH]; intros a b; cbn [GoStrings.Split].
  - split; [discriminate |]. intros [Hs _]. destruct a; discriminate.
  - destruct (Ascii.eqb_spec c sep) as [->|Hne].
    + split.
      * intros [= <- Hrest]. apply Split_one in Hrest. destruct Hrest as [-> Hb].
        now repeat split.
      * intros (Hs & Ha & Hb). destruct a as [|c' a].
        -- rewrite append_nil_l in Hs. injection Hs as ->.
           now rewrite (proj2 (Split_one sep b b) (conj eq_refl Hb)).
        -- rewrite append_cons in Hs. injection Hs as <- _.
           rewrite Contains_char, Ascii.eqb_refl in Ha. discriminate.
    + pose proof (Split_nonempty sep s) as Hsplit.
      destruct (GoStrings.Split sep s) as [|first rest]; [contradiction |].
      split.
      * intros [= <- ->].
        destruct (proj1 (IH first b) eq_refl) as (-> & Hfirst & Hb).
        split; [now rewrite append_cons |]. split; [| exact Hb].
        rewrite Contains_char, Hfirst.
        destruct (Ascii.eqb_spec sep c) as [Heq|_]; [now subst | reflexivity].
      * intros (Hs & Ha & Hb). destruct a as [|c' a].
        -- rewrite append_nil_l in Hs. injection Hs as -> _. contradiction.
        -- rewrite append_cons in Hs. injection Hs as <- ->.
           rewrite Contains_char in Ha. apply orb_false_iff in Ha.
           destruct Ha as [_ Ha].
           pose proof (proj2 (IH a b) (conj eq_refl (conj Ha Hb))) as Hs.
           now injection Hs as -> ->.
Qed.

(** X24. The token check lets a request through only on a well-formed
    header and an accepted token: the request proceeds exactly when the
    [Authorization] header is a scheme, one space and a token, neither
    of which holds a space, the scheme is [bearer] once lower-cased, and the
    verifier returns a valid token with map claims; the locals are then
    the claims [id], [email] and [role]. In every other case, a missing
    header or a second space included, the answer is 401. *)
Theorem JWTMiddleware_proceeds_iff
    (authHeader : string) (userID userEmail userRole : option string) :
  JWTMiddleware strings_ToLower jwt_Parse authHeader
  = Proceed userID userEmail userRole
  <-> exists scheme tokenString claims,
        authHeader = scheme +:+ " " +:+ tokenString
        /\ spaceless scheme /\ spaceless tokenString
        /\ strings_ToLower scheme = "bearer"
        /\ jwt_Parse tokenString = Token true (Some claims)
        /\ userID = claims !! "id"
        /\ userEmail = claims !! "email"
        /\ userRole = claims !! "role".
Proof.
  unfold JWTMiddleware, spaceless. cbv zeta. split.
  - destruct (String.eqb_spec authHeader "") as [_|Hne]; [discriminate |].
    destruct (GoStrings.Split " " authHeader) as [|scheme [|tokenString [|third rest]]]
      eqn:Hsplit; try discriminate.
    apply Split_two in Hsplit. destruct Hsplit as (Hheader & Hscheme & Htoken).
    destruct (String.eqb_spec (strings_ToLower scheme) "bearer") as [Hbearer|_];
      [| discriminate].
    cbn [negb].
    destruct (jwt_Parse tokenString) as [|[|] [claims|]] eqn:Hparse; try discriminate.
    intros [= <- <- <-]. exists scheme, tokenString, claims.
    split; [exact Hheader |].
    split; [now apply Contains_false |]. split; [now apply Contains_false |].
    now repeat split.
  - intros (scheme & tokenString & claims & -> & Hscheme & Htoken & Hbearer
            & Hparse & -> & -> & ->).
    apply Contains_false in Hscheme, Htoken.
    change (scheme +:+ " " +:+ tokenString) with (scheme +:+ String " " tokenString).
    destruct (String.eqb_spec (scheme +:+ String " " tokenString) "") as [Hempty|_].
    { destruct scheme; discriminate. }
    rewrite (proj2 (Split_two " " _ scheme tokenString)
               (conj eq_refl (conj Hscheme Htoken))).
    now rewrite Hbearer, Hparse.
Qed.

End TokenCheckFacts.

Section TokenCheckExamples.
Import middleware.

Example bearer_in_capitals_is_accepted :
  JWTMiddleware lower accepts_good "BEARER good"
  = Proceed (Some "7") None (Some "admin").
Proof. vm_compute. reflexivity. Qed.

Example second_space_is_rejected :
  JWTMiddleware lower accepts_good "Bearer  good"
  = Unauthorized "Authorization header must be in format: Bearer <token>".
Proof. vm_compute. reflexivity. Qed.

End TokenCheckExamples.
